(** * METTLESTATE [github.js]: the GitHub-backed store of the league app

    A shallow embedding of [src/js/github.js] (the [GH] object) together
    with the parts of the JavaScript runtime it calls: strings of UTF-16
    code units, [trim], [JSON.parse] / [JSON.stringify], [btoa] / [atob],
    [escape] / [unescape], [encodeURIComponent] / [decodeURIComponent],
    [localStorage], [document.getElementById], [fetch] and [setTimeout].

    Layout: module [JS] (the runtime), module [GH] (the program), then the
    theorems. *)

From Stdlib Require Import List NArith ZArith Lia String Ascii Bool.
From stdpp Require Import gmap.
Import ListNotations.
Local Open Scope N_scope.
Set Warnings "-register-all".

(* ================================================================== *)
(** * The JavaScript runtime                                            *)
(* ================================================================== *)

Module JS.

(** ** Strings: sequences of UTF-16 code units *)

(** A JavaScript string is a finite sequence of 16-bit code units. *)
Abbreviation jsstring := (list N).

Definition ch (a : ascii) : N := N_of_ascii a.

(** An ASCII literal of the source, as code units. *)
Definition lit (s : string) : jsstring := map N_of_ascii (list_ascii_of_string s).

Definition code_unit (c : N) : Prop := c < 65536.

Definition is_high_surrogate (c : N) : bool := (0xD800 <=? c) && (c <=? 0xDBFF).
Definition is_low_surrogate (c : N) : bool := (0xDC00 <=? c) && (c <=? 0xDFFF).

(** Well-formed UTF-16: every code unit has 16 bits and every surrogate is
    half of a high/low pair. These are the "valid Unicode strings". *)
Fixpoint well_formed (s : jsstring) : Prop :=
  match s with
  | [] => True
  | c :: rest =>
      if is_high_surrogate c then
        match rest with
        | d :: rest' => is_low_surrogate d = true /\ well_formed rest'
        | [] => False
        end
      else is_low_surrogate c = false /\ code_unit c /\ well_formed rest
  end.

Definition in_range (lo hi c : N) : bool := (lo <=? c) && (c <=? hi).
Definition is_digit (c : N) : bool := in_range 48 57 c.
Definition is_upper (c : N) : bool := in_range 65 90 c.
Definition is_lower (c : N) : bool := in_range 97 122 c.
Definition is_alnum (c : N) : bool := is_digit c || is_upper c || is_lower c.

Definition mem_char (c : N) (set : jsstring) : bool := existsb (N.eqb c) set.

(** ** Exceptions and completions *)

Inductive JSError : Type :=
  | TypeError
  | SyntaxError
  | URIError
  | DOMException (name : string).

Inductive Completion (A : Type) : Type :=
  | Normal (a : A)
  | Throw (e : JSError).
Arguments Normal {A} a.
Arguments Throw {A} e.

Definition cbind {A B} (m : Completion A) (f : A -> Completion B) : Completion B :=
  match m with
  | Normal a => f a
  | Throw e => Throw e
  end.

Definition of_option {A} (e : JSError) (o : option A) : Completion A :=
  match o with
  | Some a => Normal a
  | None => Throw e
  end.

(** ** String.prototype.trim *)

(** WhiteSpace and LineTerminator code points of ECMAScript. *)
Definition is_js_whitespace (c : N) : bool :=
  mem_char c [0x09; 0x0A; 0x0B; 0x0C; 0x0D; 0x20; 0xA0; 0x1680; 0x2028; 0x2029;
              0x202F; 0x205F; 0x3000; 0xFEFF]
  || in_range 0x2000 0x200A c.

Fixpoint trimStart (s : jsstring) : jsstring :=
  match s with
  | [] => []
  | c :: rest => if is_js_whitespace c then trimStart rest else s
  end.

Definition trimEnd (s : jsstring) : jsstring := rev (trimStart (rev s)).

Definition trim (s : jsstring) : jsstring := trimEnd (trimStart s).

(** ** Digits *)

Definition hex_upper (d : N) : N := if d <? 10 then 48 + d else 55 + d.
Definition hex_lower (d : N) : N := if d <? 10 then 48 + d else 87 + d.

Definition hex_value (c : N) : option N :=
  if is_digit c then Some (c - 48)
  else if in_range 65 70 c then Some (c - 55)
  else if in_range 97 102 c then Some (c - 87)
  else None.

Definition hex2 (a b : N) : option N :=
  match hex_value a, hex_value b with
  | Some x, Some y => Some (16 * x + y)
  | _, _ => None
  end.

Definition hex4 (a b c d : N) : option N :=
  match hex2 a b, hex2 c d with
  | Some x, Some y => Some (256 * x + y)
  | _, _ => None
  end.

(** Decimal digits of a natural number, most significant first; this is
    [Number::toString] on the non-negative integers the program prints. *)
Fixpoint decimal_digits (fuel : nat) (n : N) (acc : jsstring) : jsstring :=
  match fuel with
  | O => acc
  | S fuel' =>
      let acc' := (48 + n mod 10) :: acc in
      if n <? 10 then acc' else decimal_digits fuel' (n / 10) acc'
  end.

Definition N_toString (n : N) : jsstring := decimal_digits (S (N.to_nat (N.log2 n))) n [].

(** ** URI coding and the legacy [escape] / [unescape] *)

Definition utf8_octets (cp : N) : list N :=
  if cp <? 0x80 then [cp]
  else if cp <? 0x800 then [0xC0 + cp / 64; 0x80 + cp mod 64]
  else if cp <? 0x10000 then
    [0xE0 + cp / 4096; 0x80 + (cp / 64) mod 64; 0x80 + cp mod 64]
  else
    [0xF0 + cp / 262144; 0x80 + (cp / 4096) mod 64; 0x80 + (cp / 64) mod 64;
     0x80 + cp mod 64].

Definition surrogate_pair_value (hi lo : N) : N :=
  (hi - 0xD800) * 0x400 + (lo - 0xDC00) + 0x10000.

Definition utf16_units (cp : N) : jsstring :=
  if cp <? 0x10000 then [cp]
  else [0xD800 + (cp - 0x10000) / 0x400; 0xDC00 + (cp - 0x10000) mod 0x400].

Definition percent_octet (b : N) : jsstring :=
  [ch "%"; hex_upper (b / 16); hex_upper (b mod 16)].

(** The abstract operation Encode: code units of [unescaped] are copied,
    every other code point is written as the percent-escaped octets of its
    UTF-8 form; an unpaired surrogate is a URIError. *)
Fixpoint Encode (unescaped : N -> bool) (s : jsstring) : Completion jsstring :=
  match s with
  | [] => Normal []
  | c :: rest =>
      if unescaped c then cbind (Encode unescaped rest) (fun r => Normal (c :: r))
      else if is_low_surrogate c then Throw URIError
      else if is_high_surrogate c then
        match rest with
        | d :: rest' =>
            if is_low_surrogate d then
              cbind (Encode unescaped rest') (fun r =>
                Normal (flat_map percent_octet (utf8_octets (surrogate_pair_value c d)) ++ r))
            else Throw URIError
        | [] => Throw URIError
        end
      else
        cbind (Encode unescaped rest) (fun r =>
          Normal (flat_map percent_octet (utf8_octets c) ++ r))
  end.

Definition uri_unreserved (c : N) : bool := is_alnum c || mem_char c (lit "-_.!~*'()").

Definition encodeURIComponent (s : jsstring) : Completion jsstring :=
  Encode uri_unreserved s.

(** Reads [%XX] at the head of [s]. *)
Definition take_percent_octet (s : jsstring) : option (N * jsstring) :=
  match s with
  | p :: a :: b :: rest =>
      if p =? ch "%" then option_map (fun v => (v, rest)) (hex2 a b) else None
  | _ => None
  end.

(** Number of leading 1 bits of an octet. *)
Definition leading_ones (b : N) : N :=
  if b <? 0x80 then 0 else if b <? 0xC0 then 1 else if b <? 0xE0 then 2
  else if b <? 0xF0 then 3 else if b <? 0xF8 then 4 else 5.

Definition is_continuation (b : N) : bool := in_range 0x80 0xBF b.

(** The code point of a well-formed UTF-8 sequence: shortest form only, no
    surrogates, nothing above U+10FFFF. *)
Definition utf8_code_point (octets : list N) : option N :=
  match octets with
  | [b0; b1] =>
      let cp := (b0 - 0xC0) * 64 + (b1 - 0x80) in
      if is_continuation b1 && (0x80 <=? cp) then Some cp else None
  | [b0; b1; b2] =>
      let cp := (b0 - 0xE0) * 4096 + (b1 - 0x80) * 64 + (b2 - 0x80) in
      if is_continuation b1 && is_continuation b2 && (0x800 <=? cp)
         && negb (in_range 0xD800 0xDFFF cp)
      then Some cp else None
  | [b0; b1; b2; b3] =>
      let cp := (b0 - 0xF0) * 262144 + (b1 - 0x80) * 4096 + (b2 - 0x80) * 64 + (b3 - 0x80) in
      if is_continuation b1 && is_continuation b2 && is_continuation b3
         && (0x10000 <=? cp) && (cp <=? 0x10FFFF)
      then Some cp else None
  | _ => None
  end.

(** Reads [n] further [%XX] groups. *)
Fixpoint take_continuations (n : nat) (s : jsstring) : option (list N * jsstring) :=
  match n with
  | O => Some ([], s)
  | S n' =>
      match take_percent_octet s with
      | Some (b, rest) =>
          option_map (fun '(bs, rest') => (b :: bs, rest')) (take_continuations n' rest)
      | None => None
      end
  end.

(** The abstract operation Decode with an empty reserved set, as
    [decodeURIComponent] uses it. [fuel] bounds the number of loop
    iterations; every iteration consumes at least one code unit. *)
Fixpoint Decode_loop (fuel : nat) (s : jsstring) : Completion jsstring :=
  match fuel with
  | O => match s with [] => Normal [] | _ => Throw URIError end
  | S fuel' =>
      match s with
      | [] => Normal []
      | c :: rest =>
          if negb (c =? ch "%") then
            cbind (Decode_loop fuel' rest) (fun r => Normal (c :: r))
          else
            match take_percent_octet s with
            | None => Throw URIError
            | Some (b, rest1) =>
                let n := leading_ones b in
                if n =? 0 then cbind (Decode_loop fuel' rest1) (fun r => Normal (b :: r))
                else if (n =? 1) || (4 <? n) then Throw URIError
                else
                  match take_continuations (N.to_nat (n - 1)) rest1 with
                  | None => Throw URIError
                  | Some (bs, rest2) =>
                      match utf8_code_point (b :: bs) with
                      | None => Throw URIError
                      | Some cp =>
                          cbind (Decode_loop fuel' rest2) (fun r =>
                            Normal (utf16_units cp ++ r))
                      end
                  end
            end
      end
  end.

Definition decodeURIComponent (s : jsstring) : Completion jsstring :=
  Decode_loop (length s) s.

Definition escape_unescaped (c : N) : bool := is_alnum c || mem_char c (lit "@*_+-./").

Definition escape_unit (c : N) : jsstring :=
  if escape_unescaped c then [c]
  else if c <? 256 then percent_octet c
  else [ch "%"; ch "u"; hex_upper (c / 4096); hex_upper ((c / 256) mod 16);
        hex_upper ((c / 16) mod 16); hex_upper (c mod 16)].

Definition escape (s : jsstring) : jsstring := flat_map escape_unit s.

(** [unescape]: [%uXXXX] and [%XX] become one code unit each, every other
    code unit (a [%] without hexadecimal digits included) is copied. *)
Fixpoint unescape (s : jsstring) : jsstring :=
  match s with
  | [] => []
  | c :: rest =>
      if negb (c =? ch "%") then c :: unescape rest
      else
        match rest with
        | a :: b :: rest2 =>
            if a =? ch "u" then
              match rest2 with
              | h2 :: h3 :: h4 :: rest5 =>
                  match hex4 b h2 h3 h4 with
                  | Some v => v :: unescape rest5
                  | None => c :: unescape rest
                  end
              | _ => c :: unescape rest
              end
            else
              match hex2 a b with
              | Some v => v :: unescape rest2
              | None => c :: unescape rest
              end
        | _ => c :: unescape rest
        end
  end.

(** ** Base64: [btoa] and [atob] *)

Definition b64_char (i : N) : N :=
  if i <? 26 then 65 + i
  else if i <? 52 then 97 + (i - 26)
  else if i <? 62 then 48 + (i - 52)
  else if i =? 62 then 43 else 47.

Definition b64_value (c : N) : option N :=
  if is_upper c then Some (c - 65)
  else if is_lower c then Some (c - 97 + 26)
  else if is_digit c then Some (c - 48 + 52)
  else if c =? 43 then Some 62
  else if c =? 47 then Some 63
  else None.

Fixpoint b64_encode (octets : list N) : jsstring :=
  match octets with
  | [] => []
  | [a] => [b64_char (a / 4); b64_char ((a mod 4) * 16); ch "="; ch "="]
  | [a; b] =>
      [b64_char (a / 4); b64_char ((a mod 4) * 16 + b / 16);
       b64_char ((b mod 16) * 4); ch "="]
  | a :: b :: c :: rest =>
      b64_char (a / 4) :: b64_char ((a mod 4) * 16 + b / 16)
      :: b64_char ((b mod 16) * 4 + c / 64) :: b64_char (c mod 64)
      :: b64_encode rest
  end.

(** [btoa]: the argument must be a "binary string" (every code unit below
    256), else InvalidCharacterError. *)
Definition btoa (s : jsstring) : Completion jsstring :=
  if forallb (fun c => c <? 256) s then Normal (b64_encode s)
  else Throw (DOMException "InvalidCharacterError").

Definition is_ascii_whitespace (c : N) : bool := mem_char c [0x09; 0x0A; 0x0C; 0x0D; 0x20].

Definition strip_padding (data : jsstring) : jsstring :=
  if (N.of_nat (length data)) mod 4 =? 0 then
    match rev data with
    | p :: q :: r =>
        if p =? ch "=" then (if q =? ch "=" then rev r else rev (q :: r)) else data
    | _ => data
    end
  else data.

Fixpoint b64_values (data : jsstring) : option (list N) :=
  match data with
  | [] => Some []
  | c :: rest =>
      match b64_value c, b64_values rest with
      | Some v, Some vs => Some (v :: vs)
      | _, _ => None
      end
  end.

(** Groups of four sextets give three octets; a final group of three gives
    two (the low 2 bits are dropped), a final group of two gives one (the
    low 4 bits are dropped). *)
Fixpoint b64_decode (sextets : list N) : list N :=
  match sextets with
  | a :: b :: c :: d :: rest =>
      (a * 4 + b / 16) :: ((b mod 16) * 16 + c / 4) :: ((c mod 4) * 64 + d)
      :: b64_decode rest
  | [a; b; c] => [a * 4 + b / 16; (b mod 16) * 16 + c / 4]
  | [a; b] => [a * 4 + b / 16]
  | _ => []
  end.

(** [atob]: the forgiving-base64 decode of the HTML standard. *)
Definition atob (s : jsstring) : Completion jsstring :=
  let data := strip_padding (List.filter (fun c => negb (is_ascii_whitespace c)) s) in
  if (N.of_nat (length data)) mod 4 =? 1 then Throw (DOMException "InvalidCharacterError")
  else
    match b64_values data with
    | None => Throw (DOMException "InvalidCharacterError")
    | Some vs => Normal (b64_decode vs)
    end.

(** ** Values *)

(** The mathematical value [(-1)^neg * mant * 10^exp] of a JSON number
    literal. The Number it denotes is the nearest binary64 double; the two
    tests below are the only facts about that rounding the program needs. *)
Record Decimal : Type := { dec_neg : bool; dec_mant : N; dec_exp : Z }.

(** The literal rounds to (plus or minus) zero: at most half the least
    subnormal, [2^-1075]; the tie goes to the even neighbour, zero. *)
Definition rounds_to_zero (d : Decimal) : bool :=
  (dec_mant d =? 0)
  || ((dec_exp d <? 0)%Z
      && (Z.of_N (dec_mant d) * 2 ^ 1075 <=? 10 ^ (- dec_exp d))%Z).

(** The literal overflows to an infinity: at least [2^1024 - 2^970], half
    way between the largest double and [2^1024]. *)
Definition rounds_to_infinity (d : Decimal) : bool :=
  if (0 <=? dec_exp d)%Z
  then (2 ^ 1024 - 2 ^ 970 <=? Z.of_N (dec_mant d) * 10 ^ dec_exp d)%Z
  else ((2 ^ 1024 - 2 ^ 970) * 10 ^ (- dec_exp d) <=? Z.of_N (dec_mant d))%Z.

(** [Number::toString] of a finite non-zero double is floating-point
    formatting; the development is parametric in it. *)
Class NumberFormat : Type := Number_toString : Decimal -> jsstring.

(** The values the program handles: [undefined] and what JSON denotes.
    An object is its own properties in creation order. *)
Inductive JSValue : Type :=
  | JUndefined
  | JNull
  | JBool (b : bool)
  | JNumber (d : Decimal)
  | JString (s : jsstring)
  | JArray (items : list JSValue)
  | JObject (props : list (jsstring * JSValue)).

(** ToBoolean. *)
Definition truthy (v : JSValue) : bool :=
  match v with
  | JUndefined | JNull => false
  | JBool b => b
  | JNumber d => negb (rounds_to_zero d)
  | JString s => match s with [] => false | _ => true end
  | JArray _ | JObject _ => true
  end.

Definition jsstring_eqb (a b : jsstring) : bool := bool_decide (a = b).

Fixpoint own_property {A} (props : list (jsstring * A)) (key : jsstring) : option A :=
  match props with
  | [] => None
  | (k, v) :: rest => if jsstring_eqb k key then Some v else own_property rest key
  end.

(** CreateDataProperty: an existing key keeps its place, a new one goes
    last. *)
Fixpoint set_property {A} (props : list (jsstring * A)) (key : jsstring) (v : A)
  : list (jsstring * A) :=
  match props with
  | [] => [(key, v)]
  | (k, x) :: rest =>
      if jsstring_eqb k key then (k, v) :: rest else (k, x) :: set_property rest key v
  end.

(** [v.key] for the property names this program reads ([owner], [repo],
    [branch], [token], [sha], [content]): none of them is defined on a
    built-in prototype, so only own properties of objects answer; reading
    a property of [null] or [undefined] is a TypeError. *)
Definition GetV (v : JSValue) (key : jsstring) : Completion JSValue :=
  match v with
  | JUndefined | JNull => Throw TypeError
  | JObject props =>
      Normal (match own_property props key with Some x => x | None => JUndefined end)
  | _ => Normal JUndefined
  end.

(** [v?.key] *)
Definition GetV_optional (v : JSValue) (key : jsstring) : JSValue :=
  match GetV v key with
  | Normal x => x
  | Throw _ => JUndefined
  end.

(** Own-property enumeration order: array indices ascending, then the other
    keys in creation order. *)
Definition digits_value (ds : list N) : N := fold_left (fun acc d => 10 * acc + d) ds 0.

Definition array_index (key : jsstring) : option N :=
  match key with
  | [] => None
  | c :: rest =>
      if forallb is_digit key && (negb (c =? 48) || match rest with [] => true | _ => false end)
      then
        let v := digits_value (map (fun d => d - 48) key) in
        if v <? 4294967295 then Some v else None
      else None
  end.

Fixpoint insert_by_index {A} (i : N) (p : jsstring * A) (sorted : list (N * (jsstring * A)))
  : list (N * (jsstring * A)) :=
  match sorted with
  | [] => [(i, p)]
  | (j, q) :: rest =>
      if i <? j then (i, p) :: sorted else (j, q) :: insert_by_index i p rest
  end.

Definition own_property_order {A} (props : list (jsstring * A)) : list (jsstring * A) :=
  let indexed :=
    fold_left (fun acc p =>
      match array_index (fst p) with
      | Some i => insert_by_index i p acc
      | None => acc
      end) props ([] : list (N * (jsstring * A))) in
  map snd indexed
  ++ List.filter (fun p => match array_index (fst p) with Some _ => false | None => true end) props.

Fixpoint join (sep : jsstring) (parts : list jsstring) : jsstring :=
  match parts with
  | [] => []
  | [p] => p
  | p :: rest => p ++ sep ++ join sep rest
  end.

Section Formatting.
Context `{NumberFormat}.

Definition Number_ToString (d : Decimal) : jsstring :=
  if rounds_to_zero d then lit "0"
  else if rounds_to_infinity d
       then (if dec_neg d then lit "-Infinity" else lit "Infinity")
  else Number_toString d.

(** ToString, as template literals apply it. The values here are data
    (what [JSON.parse] returns and what the program builds from strings):
    no property of theirs is callable. So the conversion of an object
    finds a callable [toString] on [Object.prototype] only, that is when
    the object has no own property of that name, and gives
    [[object Object]]; with an own [toString] neither it nor [valueOf]
    yields a primitive and the conversion is a TypeError. An array is
    joined with commas, [null] and [undefined] elements giving the empty
    string, and fails where an element fails. *)
Fixpoint ToString (v : JSValue) : Completion jsstring :=
  match v with
  | JUndefined => Normal (lit "undefined")
  | JNull => Normal (lit "null")
  | JBool true => Normal (lit "true")
  | JBool false => Normal (lit "false")
  | JNumber d => Normal (Number_ToString d)
  | JString s => Normal s
  | JArray items =>
      cbind
        ((fix each (l : list JSValue) : Completion (list jsstring) :=
            match l with
            | [] => Normal []
            | x :: rest =>
                cbind (match x with
                       | JUndefined | JNull => Normal []
                       | _ => ToString x
                       end) (fun s =>
                cbind (each rest) (fun ss => Normal (s :: ss)))
            end) items)
        (fun parts => Normal (join (lit ",") parts))
  | JObject props =>
      match own_property props (lit "toString") with
      | Some _ => Throw TypeError
      | None => Normal (lit "[object Object]")
      end
  end.

(** ** JSON.stringify *)

Definition unicode_escape (c : N) : jsstring :=
  [ch "\"; ch "u"; hex_lower (c / 4096); hex_lower ((c / 256) mod 16);
   hex_lower ((c / 16) mod 16); hex_lower (c mod 16)].

Definition quote_unit (c : N) : jsstring :=
  if c =? 0x08 then lit "\b"
  else if c =? 0x09 then lit "\t"
  else if c =? 0x0A then lit "\n"
  else if c =? 0x0C then lit "\f"
  else if c =? 0x0D then lit "\r"
  else if c =? 0x22 then [ch "\"; 0x22]
  else if c =? 0x5C then lit "\\"
  else if c <? 0x20 then unicode_escape c
  else [c].

Fixpoint quote_body (s : jsstring) : jsstring :=
  match s with
  | [] => []
  | c :: rest =>
      if is_high_surrogate c then
        match rest with
        | d :: rest' =>
            if is_low_surrogate d then c :: d :: quote_body rest'
            else unicode_escape c ++ quote_body rest
        | [] => unicode_escape c
        end
      else if is_low_surrogate c then unicode_escape c ++ quote_body rest
      else quote_unit c ++ quote_body rest
  end.

Definition QuoteJSONString (s : jsstring) : jsstring := 0x22 :: quote_body s ++ [0x22].

(** The text of an array or object from the texts of its parts: without
    [gap] on one line, with it one part per line, indented. *)
Definition wrap (opening closing gap indent : jsstring) (parts : list jsstring) : jsstring :=
  match parts with
  | [] => opening ++ closing
  | _ =>
      match gap with
      | [] => opening ++ join (lit ",") parts ++ closing
      | _ =>
          opening ++ [0x0A] ++ (indent ++ gap)
          ++ join (lit "," ++ [0x0A] ++ (indent ++ gap)) parts
          ++ [0x0A] ++ indent ++ closing
      end
  end.

(** SerializeJSONProperty without replacer; [gap] is the indentation unit
    and [indent] the current indentation. [None] is the [undefined]
    result that makes an object drop the property. *)
Fixpoint SerializeJSONProperty (gap indent : jsstring) (v : JSValue) : option jsstring :=
  match v with
  | JUndefined => None
  | JNull => Some (lit "null")
  | JBool true => Some (lit "true")
  | JBool false => Some (lit "false")
  | JNumber d => Some (if rounds_to_infinity d then lit "null" else Number_ToString d)
  | JString s => Some (QuoteJSONString s)
  | JArray items =>
      Some (wrap (lit "[") (lit "]") gap indent
              (map (fun x => match SerializeJSONProperty gap (indent ++ gap) x with
                             | Some t => t
                             | None => lit "null"
                             end) items))
  | JObject props =>
      let serialized :=
        (fix each (ps : list (jsstring * JSValue)) : list (jsstring * option jsstring) :=
           match ps with
           | [] => []
           | (k, x) :: ps' => (k, SerializeJSONProperty gap (indent ++ gap) x) :: each ps'
           end) props in
      Some (wrap (lit "{") (lit "}") gap indent
              (flat_map (fun p => match snd p with
                                  | Some t =>
                                      [QuoteJSONString (fst p) ++ lit ":"
                                       ++ match gap with [] => [] | _ => [0x20] end ++ t]
                                  | None => []
                                  end) (own_property_order serialized)))
  end.

(** [JSON.stringify(v)] *)
Definition JSON_stringify (v : JSValue) : option jsstring := SerializeJSONProperty [] [] v.

(** [JSON.stringify(v, null, space)] for a number [space]: the gap is that
    many spaces, at most ten. *)
Definition JSON_stringify_spaced (v : JSValue) (space : N) : option jsstring :=
  SerializeJSONProperty (repeat 0x20 (N.to_nat (N.min 10 space))) [] v.

End Formatting.

(** ** JSON.parse *)

Inductive Parsed (A : Type) : Type :=
  | POk (a : A) (rest : jsstring)
  | PSyntaxError
  | POutOfFuel.
Arguments POk {A} a rest.
Arguments PSyntaxError {A}.
Arguments POutOfFuel {A}.

Definition is_json_whitespace (c : N) : bool := mem_char c [0x09; 0x0A; 0x0D; 0x20].

Fixpoint skip_ws (s : jsstring) : jsstring :=
  match s with
  | [] => []
  | c :: rest => if is_json_whitespace c then skip_ws rest else s
  end.

Fixpoint take_digits (s : jsstring) : list N * jsstring :=
  match s with
  | [] => ([], [])
  | c :: rest =>
      if is_digit c then let '(ds, r) := take_digits rest in ((c - 48) :: ds, r)
      else ([], s)
  end.

Definition parse_fraction (s : jsstring) : option (list N * jsstring) :=
  match s with
  | c :: rest =>
      if c =? ch "." then
        match take_digits rest with
        | ([], _) => None
        | (fs, r) => Some (fs, r)
        end
      else Some ([], s)
  | [] => Some ([], s)
  end.

Definition parse_exponent (s : jsstring) : option (Z * jsstring) :=
  match s with
  | c :: rest =>
      if (c =? ch "e") || (c =? ch "E") then
        let '(negative, rest1) :=
          match rest with
          | sg :: r =>
              if sg =? ch "-" then (true, r)
              else if sg =? ch "+" then (false, r) else (false, rest)
          | [] => (false, rest)
          end in
        match take_digits rest1 with
        | ([], _) => None
        | (ds, r) =>
            let v := Z.of_N (digits_value ds) in
            Some (if negative then (- v)%Z else v, r)
        end
      else Some (0%Z, s)
  | [] => Some (0%Z, s)
  end.

Definition parse_number (s : jsstring) : option (Decimal * jsstring) :=
  let '(negative, s1) :=
    match s with
    | c :: r => if c =? ch "-" then (true, r) else (false, s)
    | [] => (false, s)
    end in
  match s1 with
  | c :: r1 =>
      if is_digit c then
        let '(ints, s2) := if c =? 48 then ([0], r1) else take_digits s1 in
        match parse_fraction s2 with
        | None => None
        | Some (fracs, s3) =>
            match parse_exponent s3 with
            | None => None
            | Some (e, s4) =>
                Some ({| dec_neg := negative;
                         dec_mant := digits_value (ints ++ fracs);
                         dec_exp := (e - Z.of_nat (length fracs))%Z |}, s4)
            end
        end
      else None
  | [] => None
  end.

Definition simple_escape (e : N) : option N :=
  if e =? 0x22 then Some 0x22
  else if e =? 0x5C then Some 0x5C
  else if e =? ch "/" then Some (ch "/")
  else if e =? ch "b" then Some 0x08
  else if e =? ch "f" then Some 0x0C
  else if e =? ch "n" then Some 0x0A
  else if e =? ch "r" then Some 0x0D
  else if e =? ch "t" then Some 0x09
  else None.

Definition prepend (c : N) (r : option (jsstring * jsstring)) : option (jsstring * jsstring) :=
  match r with
  | Some (s, rest) => Some (c :: s, rest)
  | None => None
  end.

(** The characters of a string literal after its opening quote, up to and
    including the closing quote. *)
Fixpoint parse_string_body (s : jsstring) : option (jsstring * jsstring) :=
  match s with
  | [] => None
  | c :: rest =>
      if c =? 0x22 then Some ([], rest)
      else if c <? 0x20 then None
      else if c =? 0x5C then
        match rest with
        | e :: rest1 =>
            if e =? ch "u" then
              match rest1 with
              | h1 :: h2 :: h3 :: h4 :: rest2 =>
                  match hex4 h1 h2 h3 h4 with
                  | Some v => prepend v (parse_string_body rest2)
                  | None => None
                  end
              | _ => None
              end
            else
              match simple_escape e with
              | Some v => prepend v (parse_string_body rest1)
              | None => None
              end
        | [] => None
        end
      else prepend c (parse_string_body rest)
  end.

Fixpoint strip_prefix (p s : jsstring) : option jsstring :=
  match p, s with
  | [], _ => Some s
  | a :: p', b :: s' => if a =? b then strip_prefix p' s' else None
  | _ :: _, [] => None
  end.

Definition parse_literal (word : string) (v : JSValue) (s : jsstring) : Parsed JSValue :=
  match strip_prefix (lit word) s with
  | Some rest => POk v rest
  | None => PSyntaxError
  end.

(** A JSON value with the white space before it. [fuel] bounds the number
    of nested calls; running out of it is reported apart from a syntax
    error. *)
Fixpoint parse_value (fuel : nat) (s : jsstring) : Parsed JSValue :=
  match fuel with
  | O => POutOfFuel
  | S fuel' =>
      match skip_ws s with
      | [] => PSyntaxError
      | c :: rest =>
          if c =? ch "{" then
            match skip_ws rest with
            | d :: rest' =>
                if d =? ch "}" then POk (JObject []) rest'
                else parse_members fuel' (skip_ws rest) []
            | [] => PSyntaxError
            end
          else if c =? ch "[" then
            match skip_ws rest with
            | d :: rest' =>
                if d =? ch "]" then POk (JArray []) rest'
                else parse_elements fuel' rest []
            | [] => PSyntaxError
            end
          else if c =? 0x22 then
            match parse_string_body rest with
            | Some (str, rest') => POk (JString str) rest'
            | None => PSyntaxError
            end
          else if (c =? ch "-") || is_digit c then
            match parse_number (c :: rest) with
            | Some (d, rest') => POk (JNumber d) rest'
            | None => PSyntaxError
            end
          else if c =? ch "t" then parse_literal "true" (JBool true) (c :: rest)
          else if c =? ch "f" then parse_literal "false" (JBool false) (c :: rest)
          else if c =? ch "n" then parse_literal "null" JNull (c :: rest)
          else PSyntaxError
      end
  end

(** The elements of an array after [[] or [,], up to the closing []]. *)
with parse_elements (fuel : nat) (s : jsstring) (acc : list JSValue) : Parsed JSValue :=
  match fuel with
  | O => POutOfFuel
  | S fuel' =>
      match parse_value fuel' s with
      | POk v rest =>
          match skip_ws rest with
          | c :: rest' =>
              if c =? ch "," then parse_elements fuel' rest' (acc ++ [v])
              else if c =? ch "]" then POk (JArray (acc ++ [v])) rest'
              else PSyntaxError
          | [] => PSyntaxError
          end
      | PSyntaxError => PSyntaxError
      | POutOfFuel => POutOfFuel
      end
  end

(** The members of an object from the opening quote of a key, up to the
    closing [}]. *)
with parse_members (fuel : nat) (s : jsstring) (acc : list (jsstring * JSValue))
  : Parsed JSValue :=
  match fuel with
  | O => POutOfFuel
  | S fuel' =>
      match s with
      | q :: s1 =>
          if q =? 0x22 then
            match parse_string_body s1 with
            | Some (key, s2) =>
                match skip_ws s2 with
                | colon :: s3 =>
                    if colon =? ch ":" then
                      match parse_value fuel' s3 with
                      | POk v rest =>
                          match skip_ws rest with
                          | c :: rest' =>
                              if c =? ch "," then
                                parse_members fuel' (skip_ws rest') (set_property acc key v)
                              else if c =? ch "}" then
                                POk (JObject (set_property acc key v)) rest'
                              else PSyntaxError
                          | [] => PSyntaxError
                          end
                      | PSyntaxError => PSyntaxError
                      | POutOfFuel => POutOfFuel
                      end
                    else PSyntaxError
                | [] => PSyntaxError
                end
            | None => PSyntaxError
            end
          else PSyntaxError
      | [] => PSyntaxError
      end
  end.

(** [JSON.parse(text)]: one value, white space around it, nothing else;
    anything else is a SyntaxError. Twice the length of the text (and two)
    is fuel enough: a nested call either consumes a code unit or is
    followed by one that does. *)
Definition parse_fuel (text : jsstring) : nat := 2 * length text + 2.

Definition JSON_parse (text : jsstring) : Completion JSValue :=
  match parse_value (parse_fuel text) text with
  | POk v rest =>
      match skip_ws rest with
      | [] => Normal v
      | _ => Throw SyntaxError
      end
  | _ => Throw SyntaxError
  end.

End JS.

(* ================================================================== *)
(** * The browser around the program                                    *)
(* ================================================================== *)

Module Browser.
Import JS.

(** An element of the page, as far as the program writes to it. [classes]
    is the token set behind [className] and [classList]. *)
Record Element : Type := {
  classes : list jsstring;
  textContent : jsstring;
  innerHTML : jsstring;
  value : JSValue;
  style_display : jsstring
}.

Inductive Method : Type := GET | PUT.

Record Request : Type := {
  req_method : Method;
  req_url : jsstring;
  req_headers : list (jsstring * jsstring);
  req_body : option jsstring
}.

(** A response: its status and the text of its body ([None] when reading
    the body fails). *)
Record Response : Type := {
  status : N;
  body : option jsstring
}.

(** What [fetch] does with a request: the promise fulfils with a response
    or rejects with an error (a failure of the transport, or a request
    [fetch] refuses to send). *)
Inductive FetchOutcome : Type :=
  | Responds (r : Response)
  | Rejects (e : JSError).

(** The callback handed to [setTimeout]. *)
Inductive TimerCallback : Type :=
  | AddClass (element token : jsstring).

(** What [new Date()] gives, as far as the program prints it:
    [toISOString()] and [toLocaleString('en-ZA')]. *)
Record DateValue : Type := {
  toISOString : jsstring;
  toLocaleString_en_ZA : jsstring
}.

(** A call into the status display ([showSyncBar] / [hideSyncBar]). *)
Inductive StatusCall : Type :=
  | SyncStart (msg : jsstring)
  | SyncEnd (outcome msg : jsstring).

(** Everything the program reads and writes. [network] is the remote
    store: it answers a request knowing the requests made before it.
    [requests] are the calls of [fetch] so far, oldest first;
    [status_calls] the calls into the status display, oldest first.
    [clock] is the time: the [n]-th [new Date()] of a run reads [clock n],
    and [dates_read] counts them. *)
Record World : Type := {
  config : JSValue;
  localStorage : gmap (list N) (list N);
  document : gmap (list N) Element;
  network : list Request -> Request -> FetchOutcome;
  requests : list Request;
  timers : list (N * TimerCallback);
  console : list (jsstring * JSError);
  status_calls : list StatusCall;
  clock : nat -> DateValue;
  dates_read : nat
}.

Definition set_config (v : JSValue) (w : World) : World :=
  {| config := v; localStorage := localStorage w; document := document w;
     network := network w; requests := requests w; timers := timers w;
     console := console w; status_calls := status_calls w;
     clock := clock w; dates_read := dates_read w |}.

Definition set_localStorage (s : gmap (list N) (list N)) (w : World) : World :=
  {| config := config w; localStorage := s; document := document w;
     network := network w; requests := requests w; timers := timers w;
     console := console w; status_calls := status_calls w;
     clock := clock w; dates_read := dates_read w |}.

Definition set_document (d : gmap (list N) Element) (w : World) : World :=
  {| config := config w; localStorage := localStorage w; document := d;
     network := network w; requests := requests w; timers := timers w;
     console := console w; status_calls := status_calls w;
     clock := clock w; dates_read := dates_read w |}.

Definition set_requests (r : list Request) (w : World) : World :=
  {| config := config w; localStorage := localStorage w; document := document w;
     network := network w; requests := r; timers := timers w;
     console := console w; status_calls := status_calls w;
     clock := clock w; dates_read := dates_read w |}.

Definition set_timers (t : list (N * TimerCallback)) (w : World) : World :=
  {| config := config w; localStorage := localStorage w; document := document w;
     network := network w; requests := requests w; timers := t;
     console := console w; status_calls := status_calls w;
     clock := clock w; dates_read := dates_read w |}.

Definition set_console (c : list (jsstring * JSError)) (w : World) : World :=
  {| config := config w; localStorage := localStorage w; document := document w;
     network := network w; requests := requests w; timers := timers w;
     console := c; status_calls := status_calls w;
     clock := clock w; dates_read := dates_read w |}.

Definition set_status_calls (c : list StatusCall) (w : World) : World :=
  {| config := config w; localStorage := localStorage w; document := document w;
     network := network w; requests := requests w; timers := timers w;
     console := console w; status_calls := c;
     clock := clock w; dates_read := dates_read w |}.

Definition set_dates_read (n : nat) (w : World) : World :=
  {| config := config w; localStorage := localStorage w; document := document w;
     network := network w; requests := requests w; timers := timers w;
     console := console w; status_calls := status_calls w;
     clock := clock w; dates_read := n |}.

(** ** Computations: state passing with exceptions *)

(** A computation runs in a world and completes normally or by throwing;
    either way it leaves a world behind. An [await] is sequencing. *)
Definition M (A : Type) : Type := World -> Completion A * World.

Definition ret {A} (a : A) : M A := fun w => (Normal a, w).

Definition throw {A} (e : JSError) : M A := fun w => (Throw e, w).

Definition bind {A B} (m : M A) (k : A -> M B) : M B :=
  fun w =>
    match m w with
    | (Normal a, w') => k a w'
    | (Throw e, w') => (Throw e, w')
    end.

(** [try { body } catch (err) { handler }] *)
Definition try_catch {A} (body : M A) (handler : JSError -> M A) : M A :=
  fun w =>
    match body w with
    | (Normal a, w') => (Normal a, w')
    | (Throw e, w') => handler e w'
    end.

Definition lift {A} (c : Completion A) : M A := fun w => (c, w).

Definition modify (f : World -> World) : M unit := fun w => (Normal tt, f w).

Definition gets {A} (f : World -> A) : M A := fun w => (Normal (f w), w).

Declare Scope js_scope.
Delimit Scope js_scope with js.
Notation "'let!' x ':=' m 'in' k" := (bind m (fun x => k))
  (at level 10, x name, m at level 100, k at level 200) : js_scope.
Notation "m ';;' k" := (bind m (fun _ => k))
  (at level 100, k at level 200, right associativity) : js_scope.

(** ** localStorage *)

Definition localStorage_getItem (key : jsstring) : M (option jsstring) :=
  gets (fun w => localStorage w !! key).

Definition localStorage_setItem (key v : jsstring) : M unit :=
  modify (fun w => set_localStorage (<[key := v]> (localStorage w)) w).

Definition localStorage_removeItem (key : jsstring) : M unit :=
  modify (fun w => set_localStorage (delete key (localStorage w)) w).

(** ** The page *)

(** [document.getElementById]: the reference to an element is its id;
    [None] is [null]. *)
Definition getElementById (id : jsstring) : M (option jsstring) :=
  gets (fun w => match document w !! id with Some _ => Some id | None => None end).

(** A write to a property of [el]; on [null] it is a TypeError. *)
Definition update (el : option jsstring) (f : Element -> Element) : M unit :=
  match el with
  | Some id => modify (fun w => set_document (alter f id (document w)) w)
  | None => throw TypeError
  end.

Definition with_classes (c : list jsstring) (e : Element) : Element :=
  {| classes := c; textContent := textContent e; innerHTML := innerHTML e;
     value := value e; style_display := style_display e |}.

Definition with_textContent (t : jsstring) (e : Element) : Element :=
  {| classes := classes e; textContent := t; innerHTML := innerHTML e;
     value := value e; style_display := style_display e |}.

Definition with_innerHTML (t : jsstring) (e : Element) : Element :=
  {| classes := classes e; textContent := textContent e; innerHTML := t;
     value := value e; style_display := style_display e |}.

Definition with_value (v : JSValue) (e : Element) : Element :=
  {| classes := classes e; textContent := textContent e; innerHTML := innerHTML e;
     value := v; style_display := style_display e |}.

Definition with_display (t : jsstring) (e : Element) : Element :=
  {| classes := classes e; textContent := textContent e; innerHTML := innerHTML e;
     value := value e; style_display := t |}.

Definition has_token (t : jsstring) (ts : list jsstring) : bool :=
  existsb (jsstring_eqb t) ts.

Definition classList_add (t : jsstring) (e : Element) : Element :=
  with_classes (if has_token t (classes e) then classes e else classes e ++ [t]) e.

Definition classList_remove (ts : list jsstring) (e : Element) : Element :=
  with_classes (List.filter (fun t => negb (has_token t ts)) (classes e)) e.

(** ** fetch, timers, console *)

(** [await fetch(url, options)]: the request is recorded, the remote store
    answers. *)
Definition fetch (req : Request) : M Response :=
  fun w =>
    let w' := set_requests (requests w ++ [req]) w in
    match network w (requests w) req with
    | Responds r => (Normal r, w')
    | Rejects e => (Throw e, w')
    end.

(** [res.ok] *)
Definition ok (r : Response) : bool := in_range 200 299 (status r).

(** [await res.json()] *)
Definition json (r : Response) : M JSValue :=
  match body r with
  | Some text => lift (JSON_parse text)
  | None => throw TypeError
  end.

Definition setTimeout (cb : TimerCallback) (delay : N) : M unit :=
  modify (fun w => set_timers (timers w ++ [(delay, cb)]) w).

Definition console_error (label : jsstring) (err : JSError) : M unit :=
  modify (fun w => set_console (console w ++ [(label, err)]) w).

(** [new Date()] *)
Definition new_Date : M DateValue :=
  fun w => (Normal (clock w (dates_read w)), set_dates_read (S (dates_read w)) w).

End Browser.

(* ================================================================== *)
(** * The program: the [GH] object of [github.js]                       *)
(* ================================================================== *)

Module GH.
Import JS Browser.
Local Open Scope js_scope.

Section Program.
Context `{NumberFormat}.

Definition CONFIG_KEY : jsstring := lit "eafc_gh_config".

(** [a && b] *)
Definition js_and (a b : JSValue) : JSValue := if truthy a then b else a.

(** [a || b] on strings. *)
Definition or_default (a b : jsstring) : jsstring :=
  match a with [] => b | _ => a end.

(** [this.config.key] *)
Definition config_get (key : string) : M JSValue :=
  let! c := gets config in lift (GetV c (lit key)).

(** [${this.config.key}], a place of a template literal. *)
Definition interpolate (key : string) : M jsstring :=
  let! v := config_get key in lift (ToString v).

(** ** Config *)

Definition isConnected : M bool :=
  let! c := gets config in
  ret (truthy (js_and (js_and (GetV_optional c (lit "owner")) (GetV_optional c (lit "repo")))
                      (GetV_optional c (lit "token")))).

(** [setVal] of [updateStatusUI]: the element keeps the value as assigned.
    (A form control keeps the string the value converts to; for the
    strings [save] stores that is the same value.) *)
Definition setVal (id : string) (val : JSValue) : M unit :=
  let! el := getElementById (lit id) in
  match el with
  | Some _ => update el (with_value val)
  | None => ret tt
  end.

Definition updateStatusUI : M unit :=
  let! dot := getElementById (lit "gh-status-dot") in
  let! label := getElementById (lit "gh-status-label") in
  let! btn := getElementById (lit "btn-force-sync") in
  match dot, label with
  | Some _, Some _ =>
      let! connected := isConnected in
      if connected then
        update dot (with_classes [lit "status-dot"; lit "status-github"]) ;;
        let! owner := interpolate "owner" in
        let! repo := interpolate "repo" in
        update label (with_textContent (owner ++ lit "/" ++ repo)) ;;
        match btn with
        | Some _ => update btn (with_display (lit "block"))
        | None => ret tt
        end ;;
        let! owner := config_get "owner" in
        setVal "ghOwner" owner ;;
        let! repo := config_get "repo" in
        setVal "ghRepo" repo ;;
        let! branch := config_get "branch" in
        setVal "ghBranch" branch ;;
        let! token := config_get "token" in
        setVal "ghToken" token
      else
        update dot (with_classes [lit "status-dot"; lit "status-local"]) ;;
        update label (with_textContent (lit "Local only")) ;;
        match btn with
        | Some _ => update btn (with_display (lit "none"))
        | None => ret tt
        end
  | _, _ => ret tt
  end.

Definition load : M bool :=
  let! raw := localStorage_getItem CONFIG_KEY in
  let! c := match raw with
            | Some ((_ :: _) as text) => lift (JSON_parse text)
            | _ => ret JNull
            end in
  modify (set_config c) ;;
  updateStatusUI ;;
  let! c' := gets config in
  ret (truthy c').

Definition save (owner repo branch token : jsstring) : M unit :=
  let c := JObject [(lit "owner", JString (trim owner));
                    (lit "repo", JString (trim repo));
                    (lit "branch", JString (or_default (trim branch) (lit "main")));
                    (lit "token", JString (trim token))] in
  modify (set_config c) ;;
  let! stored := gets config in
  localStorage_setItem CONFIG_KEY
    (match JSON_stringify stored with Some t => t | None => lit "undefined" end) ;;
  updateStatusUI.

Definition disconnect : M unit :=
  modify (set_config JNull) ;;
  localStorage_removeItem CONFIG_KEY ;;
  updateStatusUI.

(** ** Status bar *)

Definition quoted (s : string) : jsstring := [0x22] ++ lit s ++ [0x22].

Definition icon_html (icon_class : string) : jsstring :=
  lit "<i class=" ++ quoted icon_class ++ lit "></i>".

(** The default message of [showSyncBar], [Syncing to GitHub] and an
    ellipsis (U+2026). *)
Definition SYNCING : jsstring := lit "Syncing to GitHub" ++ [0x2026].

(** [Sync failed], an em dash (U+2014), [data saved locally]. *)
Definition SYNC_FAILED : jsstring := lit "Sync failed " ++ [0x2014] ++ lit " data saved locally".

Definition showSyncBar (msg : jsstring) : M unit :=
  modify (fun w => set_status_calls (status_calls w ++ [SyncStart msg]) w) ;;
  let! bar := getElementById (lit "sync-bar") in
  let! msgEl := getElementById (lit "sync-msg") in
  let! icon := getElementById (lit "sync-icon") in
  match bar with
  | None => ret tt
  | Some _ =>
      update msgEl (with_textContent (or_default msg SYNCING)) ;;
      update icon (with_innerHTML (icon_html "fas fa-circle-notch fa-spin")) ;;
      update bar (classList_remove [lit "hidden"; lit "sync-error"; lit "sync-ok"]) ;;
      update bar (classList_add (lit "sync-active"))
  end.

Definition hideSyncBar (status msg : jsstring) : M unit :=
  modify (fun w => set_status_calls (status_calls w ++ [SyncEnd status msg]) w) ;;
  let! bar := getElementById (lit "sync-bar") in
  let! msgEl := getElementById (lit "sync-msg") in
  let! icon := getElementById (lit "sync-icon") in
  match bar with
  | None => ret tt
  | Some bar_id =>
      update bar (classList_remove [lit "sync-active"]) ;;
      (if jsstring_eqb status (lit "ok") then
         update icon (with_innerHTML (icon_html "fas fa-check-circle")) ;;
         update msgEl (with_textContent (or_default msg (lit "Synced to GitHub"))) ;;
         update bar (classList_add (lit "sync-ok"))
       else
         update icon (with_innerHTML (icon_html "fas fa-exclamation-circle")) ;;
         update msgEl (with_textContent (or_default msg SYNC_FAILED)) ;;
         update bar (classList_add (lit "sync-error"))) ;;
      setTimeout (AddClass bar_id (lit "hidden")) 4000
  end.

(** ** Core API *)

Definition apiBase : M jsstring :=
  let! owner := interpolate "owner" in
  let! repo := interpolate "repo" in
  ret (lit "https://api.github.com/repos/" ++ owner ++ lit "/" ++ repo).

Definition headers : M (list (jsstring * jsstring)) :=
  let! token := interpolate "token" in
  ret [(lit "Authorization", lit "token " ++ token);
       (lit "Accept", lit "application/vnd.github.v3+json");
       (lit "Content-Type", lit "application/json")].

(** [data.sha || null] *)
Definition or_null (v : JSValue) : JSValue := if truthy v then v else JNull.

Definition getFileSHA (path : jsstring) : M JSValue :=
  try_catch
    (let! base := apiBase in
     let! branch := interpolate "branch" in
     let! hs := headers in
     let! res := fetch {| req_method := GET;
                          req_url := base ++ lit "/contents/" ++ path ++ lit "?ref="
                                     ++ branch;
                          req_headers := hs;
                          req_body := None |} in
     if status res =? 404 then ret JNull
     else if negb (ok res) then ret JNull
     else
       let! data := json res in
       let! sha := lift (GetV data (lit "sha")) in
       ret (or_null sha))
    (fun _ => ret JNull).

(** [btoa(unescape(encodeURIComponent(content)))] *)
Definition encode_text (content : jsstring) : Completion jsstring :=
  cbind (encodeURIComponent content) (fun e => btoa (unescape e)).

(** [decodeURIComponent(escape(atob(x)))] *)
Definition decode_text (x : jsstring) : Completion jsstring :=
  cbind (atob x) (fun b => decodeURIComponent (escape b)).

(** The [body] object of [commitFile]: [sha] is set only when truthy. *)
Definition commit_body (commitMsg : jsstring) (branch : JSValue) (content : jsstring)
    (sha : JSValue) : list (jsstring * JSValue) :=
  let body := [(lit "message", JString commitMsg);
               (lit "branch", branch);
               (lit "content", JString content)] in
  if truthy sha then set_property body (lit "sha") sha else body.

Definition commitFile (path content commitMsg : jsstring) (isBinary : bool) : M bool :=
  let! connected := isConnected in
  if negb connected then ret false
  else
    let! sha := getFileSHA path in
    let! branch := config_get "branch" in
    let! encoded := if isBinary then ret content else lift (encode_text content) in
    let body := commit_body commitMsg branch encoded sha in
    let! base := apiBase in
    let! hs := headers in
    let! res := fetch {| req_method := PUT;
                         req_url := base ++ lit "/contents/" ++ path;
                         req_headers := hs;
                         req_body := JSON_stringify (JObject body) |} in
    ret (ok res).

(** ** Sync league data *)

(** The chart emoji U+1F4CA of the commit message (a surrogate pair),
    [League data update], an em dash (U+2014) and the local time. *)
Definition LEAGUE_MSG (local_time : jsstring) : jsstring :=
  [0xD83D; 0xDCCA] ++ lit " League data update " ++ [0x2014] ++ lit " " ++ local_time.

Definition syncData (players fixtures results : JSValue) : M unit :=
  let! connected := isConnected in
  if negb connected then ret tt
  else
    showSyncBar (lit "Syncing league data" ++ [0x2026]) ;;
    try_catch
      (let! now := new_Date in
       let payload :=
         JSON_stringify_spaced
           (JObject [(lit "players", players); (lit "fixtures", fixtures);
                     (lit "results", results);
                     (lit "lastUpdated", JString (toISOString now))]) 2 in
       let! stamp := new_Date in
       let! success :=
         commitFile (lit "data/league-data.json")
           (match payload with Some t => t | None => lit "undefined" end)
           (LEAGUE_MSG (toLocaleString_en_ZA stamp)) false in
       hideSyncBar (if success then lit "ok" else lit "error")
         (if success then lit "League data saved to GitHub" else lit "Data sync failed"))
      (fun err =>
         console_error (lit "GH sync error:") err ;;
         hideSyncBar (lit "error")
           (lit "Sync failed " ++ [0x2014] ++ lit " check token & repo")).

(** ** Upload match image *)

(** The camera emoji U+1F4F8 of the commit message, as a surrogate pair. *)
Definition SCREENSHOT_MSG (filename : jsstring) : jsstring :=
  [0xD83D; 0xDCF8] ++ lit " Match screenshot: " ++ filename.

Definition uploadMatchImage (base64Data filename : jsstring) : M (option jsstring) :=
  let! connected := isConnected in
  if negb connected then ret None
  else
    showSyncBar (lit "Uploading match screenshot" ++ [0x2026]) ;;
    try_catch
      (let path := lit "match-images/" ++ filename in
       let! success := commitFile path base64Data (SCREENSHOT_MSG filename) true in
       if success then
         hideSyncBar (lit "ok") (lit "Screenshot saved to GitHub") ;;
         let! owner := interpolate "owner" in
         let! repo := interpolate "repo" in
         let! branch := interpolate "branch" in
         ret (Some (lit "https://raw.githubusercontent.com/" ++ owner ++ lit "/"
                    ++ repo ++ lit "/" ++ branch ++ lit "/" ++ path))
       else
         hideSyncBar (lit "error") (lit "Image upload failed") ;;
         ret None)
      (fun err =>
         console_error (lit "GH image upload error:") err ;;
         hideSyncBar (lit "error") (lit "Image upload failed") ;;
         ret None).

(** ** Load data from GitHub *)

(** [No remote data yet], an em dash (U+2014), [starting fresh]. *)
Definition NO_REMOTE_DATA : jsstring :=
  lit "No remote data yet " ++ [0x2014] ++ lit " starting fresh".

(** [file.content.replace(/\n/g, '')]: only a string has [replace]. *)
Definition content_without_newlines (file : JSValue) : Completion jsstring :=
  cbind (GetV file (lit "content")) (fun c =>
    match c with
    | JString s => Normal (List.filter (fun u => negb (u =? 0x0A)) s)
    | _ => Throw TypeError
    end).

Definition loadRemoteData : M JSValue :=
  let! connected := isConnected in
  if negb connected then ret JNull
  else
    showSyncBar (lit "Loading data from GitHub" ++ [0x2026]) ;;
    try_catch
      (let! base := apiBase in
       let! branch := interpolate "branch" in
       let! hs := headers in
       let! res := fetch {| req_method := GET;
                            req_url := base ++ lit "/contents/data/league-data.json?ref="
                                       ++ branch;
                            req_headers := hs;
                            req_body := None |} in
       if negb (ok res) then
         hideSyncBar (lit "ok") NO_REMOTE_DATA ;;
         ret JNull
       else
         let! file := json res in
         let! text := lift (content_without_newlines file) in
         let! decoded := lift (decode_text text) in
         let! data := lift (JSON_parse decoded) in
         hideSyncBar (lit "ok") (lit "Data loaded from GitHub") ;;
         ret data)
      (fun err =>
         console_error (lit "GH load error:") err ;;
         hideSyncBar (lit "error") (lit "Could not load remote data") ;;
         ret JNull).

(** ** Test connection *)

Record SyncResult : Type := { result_ok : bool; msg : jsstring }.

Definition testConnection : M SyncResult :=
  let! connected := isConnected in
  if negb connected then ret {| result_ok := false; msg := lit "Not configured" |}
  else
    try_catch
      (let! base := apiBase in
       let! hs := headers in
       let! res := fetch {| req_method := GET; req_url := base; req_headers := hs;
                            req_body := None |} in
       if status res =? 200 then ret {| result_ok := true; msg := lit "Connected!" |}
       else if status res =? 401 then ret {| result_ok := false; msg := lit "Invalid token" |}
       else if status res =? 404 then ret {| result_ok := false; msg := lit "Repo not found" |}
       else ret {| result_ok := false; msg := lit "Error " ++ N_toString (status res) |})
      (fun _ => ret {| result_ok := false; msg := lit "Network error" |}).

End Program.
End GH.

(* ================================================================== *)
(** * Vocabulary of the statements                                      *)
(* ================================================================== *)

Module Spec.
Import JS Browser.
Local Open Scope js_scope.

Section Vocabulary.
Context `{NumberFormat}.

(** The config is connected: [isConnected()] answers [true]. *)
Definition connected (w : World) : Prop := fst (GH.isConnected w) = Normal true.

(** [this.config?.key] *)
Definition field (w : World) (key : string) : JSValue := GetV_optional (config w) (lit key).

(** The config object [save] builds from four strings. *)
Definition config_object (owner repo branch token : jsstring) : JSValue :=
  JObject [(lit "owner", JString owner); (lit "repo", JString repo);
           (lit "branch", JString branch); (lit "token", JString token)].

(** Its JSON text. *)
Definition config_text (owner repo branch token : jsstring) : jsstring :=
  lit "{" ++ QuoteJSONString (lit "owner") ++ lit ":" ++ QuoteJSONString owner
  ++ lit "," ++ QuoteJSONString (lit "repo") ++ lit ":" ++ QuoteJSONString repo
  ++ lit "," ++ QuoteJSONString (lit "branch") ++ lit ":" ++ QuoteJSONString branch
  ++ lit "," ++ QuoteJSONString (lit "token") ++ lit ":" ++ QuoteJSONString token
  ++ lit "}".

(** What [save] stores for its four arguments: the object and its text. *)
Definition saved_object (owner repo branch token : jsstring) : JSValue :=
  config_object (trim owner) (trim repo) (GH.or_default (trim branch) (lit "main"))
    (trim token).

Definition saved_text (owner repo branch token : jsstring) : jsstring :=
  config_text (trim owner) (trim repo) (GH.or_default (trim branch) (lit "main"))
    (trim token).

Definition nonempty (s : jsstring) : bool := match s with [] => false | _ => true end.

(** The value converts to a string: a template literal can print it. *)
Definition printable (v : JSValue) : bool :=
  match ToString v with Normal _ => true | Throw _ => false end.

(** The string a printable value converts to. *)
Definition text_of (v : JSValue) : jsstring :=
  match ToString v with Normal s => s | Throw _ => [] end.

(** The four fields of the config convert to strings. Every config of four
    strings does (so every config [save] stores), and so does one with
    numbers, booleans or plain objects for fields; a field with an own
    [toString] property, which a stored entry edited by hand can give, does
    not. *)
Definition printable_config (w : World) : bool :=
  printable (field w "owner") && printable (field w "repo")
  && printable (field w "branch") && printable (field w "token").

(** The URL and the headers of a request can be built: owner, repo and
    token convert to strings. *)
Definition printable_api (w : World) : bool :=
  printable (field w "owner") && printable (field w "repo") && printable (field w "token").

(** The label of the status indicator can be written: the owner and the
    repo of a connected config convert to strings. *)
Definition label_ok (w : World) : Prop :=
  connected w -> printable (field w "owner") = true /\ printable (field w "repo") = true.

(** The requests of a connected config whose fields convert to strings. *)
Definition api_base (w : World) : jsstring :=
  lit "https://api.github.com/repos/" ++ text_of (field w "owner") ++ lit "/"
  ++ text_of (field w "repo").

Definition api_headers (w : World) : list (jsstring * jsstring) :=
  [(lit "Authorization", lit "token " ++ text_of (field w "token"));
   (lit "Accept", lit "application/vnd.github.v3+json");
   (lit "Content-Type", lit "application/json")].

(** The read of [getFileSHA]. *)
Definition read_request (w : World) (path : jsstring) : Request :=
  {| req_method := GET;
     req_url := api_base w ++ lit "/contents/" ++ path ++ lit "?ref="
                ++ text_of (field w "branch");
     req_headers := api_headers w;
     req_body := None |}.

(** The write of [commitFile] once the content is encoded and the revision
    tag read. *)
Definition write_request (w : World) (path commitMsg content : jsstring) (sha : JSValue)
  : Request :=
  {| req_method := PUT;
     req_url := api_base w ++ lit "/contents/" ++ path;
     req_headers := api_headers w;
     req_body := JSON_stringify
                   (JObject (GH.commit_body commitMsg (field w "branch") content sha)) |}.

(** The read of [testConnection]. *)
Definition probe_request (w : World) : Request :=
  {| req_method := GET; req_url := api_base w; req_headers := api_headers w;
     req_body := None |}.

(** The read of [loadRemoteData]. *)
Definition snapshot_request (w : World) : Request :=
  read_request w (lit "data/league-data.json").

(** The URL [uploadMatchImage] returns. *)
Definition asset_url (w : World) (path : jsstring) : jsstring :=
  lit "https://raw.githubusercontent.com/" ++ text_of (field w "owner") ++ lit "/"
  ++ text_of (field w "repo") ++ lit "/" ++ text_of (field w "branch") ++ lit "/" ++ path.

(** The revision tag [getFileSHA] makes of the store's answer. *)
Definition sha_of_outcome (o : FetchOutcome) : JSValue :=
  match o with
  | Rejects _ => JNull
  | Responds res =>
      if status res =? 404 then JNull
      else if negb (ok res) then JNull
      else match body res with
           | None => JNull
           | Some text =>
               match cbind (JSON_parse text) (fun data => GetV data (lit "sha")) with
               | Normal sha => GH.or_null sha
               | Throw _ => JNull
               end
           end
  end.

(** The [content] of the body of a write. *)
Definition encoded_content (content : jsstring) (isBinary : bool) : Completion jsstring :=
  if isBinary then Normal content else GH.encode_text content.

(** The page has the element [id]. *)
Definition present (w : World) (id : string) : bool :=
  match document w !! lit id with Some _ => true | None => false end.

(** The status bar is whole: when the page has [sync-bar] it also has
    [sync-msg] and [sync-icon], which [showSyncBar] and [hideSyncBar]
    write to without a check. *)
Definition syncbar_ok (w : World) : bool :=
  negb (present w "sync-bar") || (present w "sync-msg" && present w "sync-icon").

(** [w'] differs from [w] at most in properties of elements, timers and
    status calls. *)
Record same_core (w w' : World) : Prop := {
  core_config : config w' = config w;
  core_storage : localStorage w' = localStorage w;
  core_network : network w' = network w;
  core_requests : requests w' = requests w;
  core_console : console w' = console w;
  core_clock : clock w' = clock w;
  core_dates : dates_read w' = dates_read w;
  core_dom : dom (document w') = dom (document w)
}.

(** [m] completes normally from every world satisfying [P] and writes
    nothing but properties of elements of the page. *)
Definition quiet (P : World -> Prop) (m : M unit) : Prop :=
  forall w, P w ->
    exists w', m w = (Normal tt, w') /\ same_core w w'
               /\ status_calls w' = status_calls w /\ timers w' = timers w.

(** [m] is quiet and leaves the elements [keep] as they are. *)
Definition quiet_keeping (keep : list jsstring) (P : World -> Prop) (m : M unit) : Prop :=
  forall w, P w ->
    exists w', m w = (Normal tt, w') /\ same_core w w'
               /\ status_calls w' = status_calls w /\ timers w' = timers w
               /\ forall id, In id keep -> document w' !! id = document w !! id.

Definition stable (P : World -> Prop) : Prop :=
  forall w w', same_core w w' -> P w -> P w'.

(** [await res.json()] as a completion. *)
Definition json_of (res : Response) : Completion JSValue :=
  match body res with
  | Some text => JSON_parse text
  | None => Throw TypeError
  end.

(** The snapshot [loadRemoteData] decodes from an accepted answer. *)
Definition decode_snapshot (res : Response) : Completion JSValue :=
  cbind (json_of res) (fun file =>
  cbind (GH.content_without_newlines file) (fun text =>
  cbind (GH.decode_text text) JSON_parse)).

(** The element [id] of the page with its [textContent] and [classes]. *)
Definition shows (w : World) (id : string) (text : jsstring) (cls : list jsstring) : Prop :=
  exists e, document w !! lit id = Some e /\ textContent e = text /\ classes e = cls.

(** The string neither starts nor ends with white space. *)
Definition trimmed (s : jsstring) : Prop :=
  (forall c r, s = c :: r -> is_js_whitespace c = false)
  /\ (forall c r, s = r ++ [c] -> is_js_whitespace c = false).

(** Every code unit of the string has 16 bits. *)
Definition valid_string (s : jsstring) : Prop := Forall code_unit s.

(** Every string and every key of the value is a string of 16-bit code
    units. *)
Fixpoint valid_value (v : JSValue) : Prop :=
  match v with
  | JString s => valid_string s
  | JArray items =>
      (fix all (l : list JSValue) : Prop :=
         match l with
         | [] => True
         | x :: rest => valid_value x /\ all rest
         end) items
  | JObject props =>
      (fix all (l : list (jsstring * JSValue)) : Prop :=
         match l with
         | [] => True
         | (k, x) :: rest => valid_string k /\ valid_value x /\ all rest
         end) props
  | _ => True
  end.

(** The text [syncData] commits: the league data and the time, indented
    by two spaces. *)
Definition sync_payload (players fixtures results : JSValue) (now : DateValue) : jsstring :=
  match JSON_stringify_spaced
          (JObject [(lit "players", players); (lit "fixtures", fixtures);
                    (lit "results", results);
                    (lit "lastUpdated", JString (toISOString now))]) 2 with
  | Some t => t
  | None => lit "undefined"
  end.

(** The path of the snapshot. *)
Definition SNAPSHOT_PATH : jsstring := lit "data/league-data.json".

(** The messages of the status bar. *)
Definition LOADING : jsstring := lit "Loading data from GitHub" ++ [0x2026].
Definition UPLOADING : jsstring := lit "Uploading match screenshot" ++ [0x2026].
Definition SYNCING_DATA : jsstring := lit "Syncing league data" ++ [0x2026].
Definition CHECK_TOKEN : jsstring :=
  lit "Sync failed " ++ [0x2014] ++ lit " check token & repo".

End Vocabulary.

(** The UTF-8 octets of a string, code point by code point. *)
Fixpoint utf8_of (s : jsstring) : list N :=
  match s with
  | [] => []
  | c :: rest =>
      if is_high_surrogate c then
        match rest with
        | d :: rest' => utf8_octets (surrogate_pair_value c d) ++ utf8_of rest'
        | [] => []
        end
      else utf8_octets c ++ utf8_of rest
  end.

(** The 6-bit groups of a sequence of octets. *)
Fixpoint sextets (octets : list N) : list N :=
  match octets with
  | [] => []
  | [a] => [a / 4; (a mod 4) * 16]
  | [a; b] => [a / 4; (a mod 4) * 16 + b / 16; (b mod 16) * 4]
  | a :: b :: c :: rest =>
      a / 4 :: (a mod 4) * 16 + b / 16 :: (b mod 16) * 4 + c / 64 :: c mod 64 :: sextets rest
  end.

(** ** Sample runs *)

(** A stand-in for number formatting where no number is printed. *)
#[global] Instance digits_only : NumberFormat := fun d => N_toString (dec_mant d).

Definition blank : Element :=
  {| classes := []; textContent := []; innerHTML := []; value := JUndefined;
     style_display := [] |}.

(** A page with the status dot, its label and the three parts of the
    status bar. *)
Definition page : gmap (list N) Element :=
  list_to_map [(lit "gh-status-dot", blank); (lit "gh-status-label", blank);
               (lit "sync-bar", blank); (lit "sync-msg", blank); (lit "sync-icon", blank)].

Definition epoch : DateValue :=
  {| toISOString := lit "1970-01-01T00:00:00.000Z";
     toLocaleString_en_ZA := lit "1970/01/01, 02:00:00" |}.

Definition world (c : JSValue) (store : gmap (list N) (list N))
    (net : list Request -> Request -> FetchOutcome) : World :=
  {| config := c; localStorage := store; document := page; network := net;
     requests := []; timers := []; console := []; status_calls := [];
     clock := fun _ => epoch; dates_read := 0 |}.

(** owner [a], repo [b], branch [main], token [t]. *)
Definition sample_config : JSValue := config_object (lit "a") (lit "b") (lit "main") (lit "t").

Definition answer (st : N) (text : option jsstring) : FetchOutcome :=
  Responds {| status := st; body := text |}.

(** A store that answers every request with the same status and no body. *)
Definition always (st : N) : list Request -> Request -> FetchOutcome :=
  fun _ _ => answer st None.

(** A store where the file is absent and the write fails in transport. *)
Definition write_fails : list Request -> Request -> FetchOutcome :=
  fun _ req =>
    match req_method req with
    | GET => answer 404 None
    | PUT => Rejects TypeError
    end.

(** A store where the file is absent and the write is accepted. *)
Definition creates : list Request -> Request -> FetchOutcome :=
  fun _ req =>
    match req_method req with
    | GET => answer 404 None
    | PUT => answer 201 None
    end.

(** A store where the file exists with revision tag [abc] and the write is
    accepted. *)
Definition updates : list Request -> Request -> FetchOutcome :=
  fun _ req =>
    match req_method req with
    | GET => answer 200 (Some (lit "{" ++ QuoteJSONString (lit "sha") ++ lit ":"
                               ++ QuoteJSONString (lit "abc") ++ lit "}"))
    | PUT => answer 200 None
    end.

(** The sample text: [h], e-acute, the euro sign, an emoji (a surrogate
    pair), [ ok%]. *)
Definition sample_text : jsstring :=
  lit "h" ++ [0xE9; 0x20AC; 0xD83D; 0xDE00] ++ lit " ok%".

Definition offline : World := world JNull ∅ (always 200).
Definition online_200 : World := world sample_config ∅ (always 200).
Definition online_404 : World := world sample_config ∅ (always 404).
Definition online_write_fails : World := world sample_config ∅ write_fails.
Definition online_creates : World := world sample_config ∅ creates.
Definition online_updates : World := world sample_config ∅ updates.

Definition online_401 : World := world sample_config ∅ (always 401).
Definition online_rejects : World := world sample_config ∅ (fun _ _ => Rejects TypeError).

(** The snapshot text of the samples: the sample text as a JSON string. *)
Definition snapshot_text : jsstring := QuoteJSONString sample_text.

(** Its transport encoding, with a line feed after the fourth character,
    inside the JSON object a store answers with. *)
Definition snapshot_body : jsstring :=
  let x := match GH.encode_text snapshot_text with Normal x => x | Throw _ => [] end in
  lit "{" ++ QuoteJSONString (lit "content") ++ lit ":"
  ++ QuoteJSONString (firstn 4 x ++ [0x0A] ++ skipn 4 x) ++ lit "}".

(** A store that answers every request with the snapshot. *)
Definition online_snapshot : World :=
  world sample_config ∅ (fun _ _ => answer 200 (Some snapshot_body)).

(** A page whose status bar lacks its message element. *)
Definition broken_bar : World :=
  {| config := sample_config; localStorage := ∅;
     document := list_to_map [(lit "sync-bar", blank); (lit "sync-icon", blank)];
     network := creates; requests := []; timers := []; console := []; status_calls := [];
     clock := fun _ => epoch; dates_read := 0 |}.

(** League data with an unpaired surrogate in a name. *)
Definition sample_players : JSValue :=
  JArray [JObject [(lit "name", JString ([0xD800] ++ lit "x")); (lit "points", JNull)]].

(** An object with an own [toString] property, what [JSON.parse] makes of
    [{"toString":0}]: it does not convert to a string. *)
Definition odd_value : JSValue :=
  JObject [(lit "toString", JNumber {| dec_neg := false; dec_mant := 0; dec_exp := 0 |})].

(** A connected config whose owner does not convert to a string, in front
    of a store that accepts every write. *)
Definition odd_owner : World :=
  world (JObject [(lit "owner", odd_value); (lit "repo", JString (lit "b"));
                  (lit "branch", JString (lit "main")); (lit "token", JString (lit "t"))])
    ∅ creates.

(** A connected config whose branch alone does not convert. *)
Definition odd_branch : World :=
  world (JObject [(lit "owner", JString (lit "a")); (lit "repo", JString (lit "b"));
                  (lit "branch", odd_value); (lit "token", JString (lit "t"))])
    ∅ creates.

(** The stored entry [{"owner":{"toString":0},"repo":"b","token":"t"}]. *)
Definition odd_entry : jsstring :=
  lit "{" ++ QuoteJSONString (lit "owner") ++ lit ":{"
  ++ QuoteJSONString (lit "toString") ++ lit ":0},"
  ++ QuoteJSONString (lit "repo") ++ lit ":" ++ QuoteJSONString (lit "b") ++ lit ","
  ++ QuoteJSONString (lit "token") ++ lit ":" ++ QuoteJSONString (lit "t") ++ lit "}".

Definition odd_store : World := world JNull {[ GH.CONFIG_KEY := odd_entry ]} (always 200).

(** The stored entry is the single character [{]. *)
Definition malformed_store : World :=
  world JNull {[ GH.CONFIG_KEY := lit "{" ]} (always 200).

End Spec.

(* ================================================================== *)
(** * Proofs                                                            *)
(* ================================================================== *)

Import JS Browser Spec.
Local Open Scope js_scope.
Ltac Zify.zify_post_hook ::= Z.to_euclidean_division_equations.

(** ** The runtime: transport encoding *)

(** Comparisons that [lia] decides are rewritten to their value. *)
Ltac settle :=
  repeat match goal with
         | |- context [?a <? ?b] =>
             first [ rewrite (proj2 (N.ltb_lt a b)) by lia
                   | rewrite (proj2 (N.ltb_ge a b)) by lia ]
         | |- context [?a <=? ?b] =>
             first [ rewrite (proj2 (N.leb_le a b)) by lia
                   | rewrite (proj2 (N.leb_gt a b)) by lia ]
         | |- context [?a =? ?b] =>
             first [ rewrite (proj2 (N.eqb_eq a b)) by lia
                   | rewrite (proj2 (N.eqb_neq a b)) by lia ]
         end;
  cbn [andb orb negb].

(** Literals of the source are replaced by their code units. *)
Ltac eval_lits :=
  repeat match goal with
         | |- context [lit ?s] => let v := eval vm_compute in (lit s) in change (lit s) with v
         | |- context [ch ?a] => let v := eval vm_compute in (ch a) in change (ch a) with v
         end.

(** Case analysis on the comparisons of a goal, arithmetic by [lia]. *)
Ltac cmp :=
  repeat match goal with
         | |- context [?a <? ?b] => destruct (N.ltb_spec a b)
         | |- context [?a <=? ?b] => destruct (N.leb_spec a b)
         | |- context [?a =? ?b] => destruct (N.eqb_spec a b)
         | H : context [?a <? ?b] |- _ => destruct (N.ltb_spec a b)
         | H : context [?a <=? ?b] |- _ => destruct (N.leb_spec a b)
         | H : context [?a =? ?b] |- _ => destruct (N.eqb_spec a b)
         end;
  cbn [andb orb negb] in *; try discriminate; try reflexivity; try lia.

Lemma nibble_cases d : d < 16 ->
  d = 0 \/ d = 1 \/ d = 2 \/ d = 3 \/ d = 4 \/ d = 5 \/ d = 6 \/ d = 7 \/
  d = 8 \/ d = 9 \/ d = 10 \/ d = 11 \/ d = 12 \/ d = 13 \/ d = 14 \/ d = 15.
Proof. lia. Qed.

Ltac by_nibble d Hd :=
  let C := fresh "C" in
  pose proof (nibble_cases d Hd) as C;
  repeat (destruct C as [->|C]; [vm_compute; try reflexivity; try discriminate; auto|]);
  subst; vm_compute; try reflexivity; try discriminate; auto.

Lemma hex_value_upper d : d < 16 -> hex_value (hex_upper d) = Some d.
Proof. intros Hd. by_nibble d Hd. Qed.

Lemma hex_value_lower d : d < 16 -> hex_value (hex_lower d) = Some d.
Proof. intros Hd. by_nibble d Hd. Qed.

Lemma hex_upper_not_u d : d < 16 -> (hex_upper d =? ch "u") = false.
Proof. intros Hd. by_nibble d Hd. Qed.

Lemma hex2_upper b : b < 256 -> hex2 (hex_upper (b / 16)) (hex_upper (b mod 16)) = Some b.
Proof.
  intros Hb. unfold hex2. rewrite !hex_value_upper by lia. f_equal. lia.
Qed.

Lemma take_percent_octet_percent b rest :
  b < 256 -> take_percent_octet (percent_octet b ++ rest) = Some (b, rest).
Proof.
  intros Hb. unfold percent_octet, take_percent_octet. cbn [app].
  rewrite N.eqb_refl, hex2_upper by assumption. reflexivity.
Qed.

(** *** [unescape] after [encodeURIComponent]: the UTF-8 octets *)

Lemma unescape_percent_octet b rest :
  b < 256 -> unescape (percent_octet b ++ rest) = b :: unescape rest.
Proof.
  intros Hb. unfold percent_octet. cbn [app unescape].
  rewrite N.eqb_refl. cbn [negb].
  rewrite hex_upper_not_u, hex2_upper by lia. reflexivity.
Qed.

Lemma unescape_percent_octets bs rest :
  Forall (fun b => b < 256) bs ->
  unescape (flat_map percent_octet bs ++ rest) = bs ++ unescape rest.
Proof.
  induction 1 as [|b bs Hb _ IH]; [reflexivity|].
  cbn [flat_map]. rewrite <- app_assoc, unescape_percent_octet, IH by assumption. reflexivity.
Qed.

Lemma utf8_octets_bytes cp : cp <= 0x10FFFF -> Forall (fun b => b < 256) (utf8_octets cp).
Proof.
  intros Hcp. unfold utf8_octets. cmp; repeat constructor; lia.
Qed.

Lemma well_formed_ind (P : jsstring -> Prop) :
  P [] ->
  (forall c rest, is_high_surrogate c = false -> is_low_surrogate c = false -> code_unit c ->
     well_formed rest -> P rest -> P (c :: rest)) ->
  (forall c d rest, is_high_surrogate c = true -> is_low_surrogate d = true ->
     well_formed rest -> P rest -> P (c :: d :: rest)) ->
  forall s, well_formed s -> P s.
Proof.
  intros Hnil Hunit Hpair s.
  remember (length s) as n eqn:Hn.
  revert s Hn. induction n as [n IH] using (well_founded_induction lt_wf).
  intros [|c rest] Hn Hwf; [exact Hnil|].
  cbn [well_formed] in Hwf. destruct (is_high_surrogate c) eqn:Hh.
  - destruct rest as [|d rest']; [contradiction|]. destruct Hwf as [Hl Hwf].
    apply Hpair; try assumption. apply (IH (length rest')); [simpl in Hn; lia|reflexivity|assumption].
  - destruct Hwf as (Hl & Hc & Hwf).
    apply Hunit; try assumption. apply (IH (length rest)); [simpl in Hn; lia|reflexivity|assumption].
Qed.

Lemma surrogate_pair_range c d :
  is_high_surrogate c = true -> is_low_surrogate d = true ->
  0x10000 <= surrogate_pair_value c d <= 0x10FFFF.
Proof.
  unfold is_high_surrogate, is_low_surrogate, surrogate_pair_value. intros Hc Hd.
  apply andb_true_iff in Hc as [Hc1 Hc2]. apply andb_true_iff in Hd as [Hd1 Hd2].
  apply N.leb_le in Hc1, Hc2, Hd1, Hd2. lia.
Qed.

Lemma unreserved_ascii c : uri_unreserved c = true -> c < 0x80 /\ c <> ch "%".
Proof.
  unfold uri_unreserved, is_alnum, is_digit, is_upper, is_lower, in_range, mem_char.
  eval_lits. cbn [existsb].
  intros Hc. split.
  - destruct (N.ltb_spec c 0x80); [assumption|]. exfalso. revert Hc. settle. discriminate.
  - intros ->. discriminate.
Qed.

Lemma encode_then_unescape s :
  well_formed s ->
  exists e, encodeURIComponent s = Normal e /\ unescape e = utf8_of s.
Proof.
  unfold encodeURIComponent.
  induction 1 as [|c rest Hh Hl Hc Hwf (e & He & Hu)|c d rest Hh Hl Hwf (e & He & Hu)]
    using well_formed_ind.
  - exists []. split; reflexivity.
  - cbn [Encode utf8_of]. rewrite He, Hh, Hl. cbn [cbind].
    destruct (uri_unreserved c) eqn:Hun.
    + exists (c :: e). split; [reflexivity|].
      destruct (unreserved_ascii c Hun) as [Hlt Hne].
      cbn [unescape]. apply N.eqb_neq in Hne. rewrite Hne. cbn [negb].
      rewrite Hu. unfold utf8_octets. apply N.ltb_lt in Hlt. rewrite Hlt. reflexivity.
    + eexists. split; [reflexivity|].
      rewrite unescape_percent_octets, Hu; [reflexivity|].
      apply utf8_octets_bytes. unfold code_unit in Hc. lia.
  - cbn [Encode utf8_of]. rewrite Hh, Hl, He. cbn [cbind].
    assert (Hlc : is_low_surrogate c = false).
    { revert Hh. unfold is_high_surrogate, is_low_surrogate. intros Hh.
      apply andb_true_iff in Hh as [H1 H2]. apply N.leb_le in H1, H2. settle. reflexivity. }
    rewrite Hlc.
    destruct (uri_unreserved c) eqn:Hun.
    { exfalso. destruct (unreserved_ascii c Hun) as [Hlt _].
      revert Hh. unfold is_high_surrogate. settle. discriminate. }
    eexists. split; [reflexivity|].
    rewrite unescape_percent_octets, Hu; [reflexivity|].
    apply utf8_octets_bytes. apply surrogate_pair_range; assumption.
Qed.

Lemma utf8_of_bytes s : well_formed s -> Forall (fun b => b < 256) (utf8_of s).
Proof.
  induction 1 as [|c rest Hh Hl Hc Hwf IH|c d rest Hh Hl Hwf IH] using well_formed_ind.
  - constructor.
  - cbn [utf8_of]. rewrite Hh. apply Forall_app. split; [|assumption].
    apply utf8_octets_bytes. unfold code_unit in Hc. lia.
  - cbn [utf8_of]. rewrite Hh. apply Forall_app. split; [|assumption].
    apply utf8_octets_bytes. apply surrogate_pair_range; assumption.
Qed.

(** *** Base64 *)

Lemma list_ind3 {A} (P : list A -> Prop) :
  P [] -> (forall a, P [a]) -> (forall a b, P [a; b]) ->
  (forall a b c rest, P rest -> P (a :: b :: c :: rest)) ->
  forall l, P l.
Proof.
  intros H0 H1 H2 H3.
  fix IH 1. intros [|a [|b [|c rest]]]; [exact H0 | apply H1 | apply H2 | apply H3, IH].
Qed.

Lemma b64_char_not_pad i : (b64_char i =? ch "=") = false.
Proof. unfold b64_char. eval_lits. cmp. Qed.

Lemma b64_char_not_space i : is_ascii_whitespace (b64_char i) = false.
Proof. unfold b64_char, is_ascii_whitespace, mem_char. cbn [existsb]. cmp. Qed.

Lemma b64_value_char i : i < 64 -> b64_value (b64_char i) = Some i.
Proof.
  intros Hi. unfold b64_char, b64_value, is_upper, is_lower, is_digit, in_range.
  destruct (N.ltb_spec i 26); [settle; f_equal; lia|].
  destruct (N.ltb_spec i 52); [settle; f_equal; lia|].
  destruct (N.ltb_spec i 62); [settle; f_equal; lia|].
  destruct (N.eqb_spec i 62); [subst; reflexivity|].
  assert (i = 63) as -> by lia. reflexivity.
Qed.

Lemma sextets_bound bs :
  Forall (fun b => b < 256) bs -> Forall (fun v => v < 64) (sextets bs).
Proof.
  induction bs as [|a|a b|a b c rest IH] using list_ind3; intros Hb; cbn [sextets].
  - constructor.
  - inversion_clear Hb. repeat constructor; lia.
  - inversion_clear Hb as [|? ? Ha Hb']. inversion_clear Hb'. repeat constructor; lia.
  - inversion_clear Hb as [|? ? Ha Hb']. inversion_clear Hb' as [|? ? Hb Hc'].
    inversion_clear Hc' as [|? ? Hc Hr]. repeat constructor; try lia. apply IH, Hr.
Qed.

Lemma b64_decode_sextets bs :
  Forall (fun b => b < 256) bs -> b64_decode (sextets bs) = bs.
Proof.
  induction bs as [|a|a b|a b c rest IH] using list_ind3; intros Hb; cbn [sextets b64_decode].
  - reflexivity.
  - inversion_clear Hb. f_equal. lia.
  - inversion_clear Hb as [|? ? Ha Hb']. inversion_clear Hb'. repeat f_equal; lia.
  - inversion_clear Hb as [|? ? Ha Hb']. inversion_clear Hb' as [|? ? Hb Hc'].
    inversion_clear Hc' as [|? ? Hc Hr]. rewrite (IH Hr). repeat f_equal; lia.
Qed.

Lemma b64_values_chars vs :
  Forall (fun v => v < 64) vs -> b64_values (map b64_char vs) = Some vs.
Proof.
  induction 1 as [|v vs Hv _ IH]; [reflexivity|].
  cbn [map b64_values]. rewrite (b64_value_char v Hv), IH. reflexivity.
Qed.

Lemma sextets_length bs : (N.of_nat (length (sextets bs)) mod 4 =? 1) = false.
Proof.
  induction bs as [|a|a b|a b c rest IH] using list_ind3; try reflexivity.
  cbn [sextets length]. apply N.eqb_neq. apply N.eqb_neq in IH. lia.
Qed.

Lemma b64_encode_no_space bs :
  List.filter (fun c => negb (is_ascii_whitespace c)) (b64_encode bs) = b64_encode bs.
Proof.
  induction bs as [|a|a b|a b c rest IH] using list_ind3;
    cbn [b64_encode List.filter]; rewrite ?b64_char_not_space; cbn [negb];
    try reflexivity.
  rewrite IH. reflexivity.
Qed.

Lemma strip_padding_app pre d :
  N.of_nat (length pre) mod 4 = 0 -> (2 <= length d)%nat ->
  strip_padding (pre ++ d) = pre ++ strip_padding d.
Proof.
  intros Hpre Hd. unfold strip_padding.
  assert (Hm : N.of_nat (length (pre ++ d)) mod 4 = N.of_nat (length d) mod 4).
  { rewrite length_app. lia. }
  rewrite Hm. destruct (N.of_nat (length d) mod 4 =? 0); [|reflexivity].
  rewrite rev_app_distr.
  destruct (rev d) as [|p [|q r]] eqn:Hr.
  - apply (f_equal (@length N)) in Hr. rewrite length_rev in Hr. simpl in Hr. lia.
  - apply (f_equal (@length N)) in Hr. rewrite length_rev in Hr. simpl in Hr. lia.
  - cbn [app]. destruct (p =? ch "="); [|reflexivity].
    destruct (q =? ch "=").
    + rewrite rev_app_distr, rev_involutive. reflexivity.
    + change (q :: r ++ rev pre) with ((q :: r) ++ rev pre).
      rewrite rev_app_distr, rev_involutive. reflexivity.
Qed.

Lemma b64_encode_length bs : bs <> [] -> (2 <= length (b64_encode bs))%nat.
Proof.
  destruct bs as [|a [|b [|c rest]]]; [congruence| | |]; intros _; cbn [b64_encode length]; lia.
Qed.

Lemma strip_padding_encode bs :
  strip_padding (b64_encode bs) = map b64_char (sextets bs).
Proof.
  induction bs as [|a|a b|a b c rest IH] using list_ind3.
  - reflexivity.
  - reflexivity.
  - cbn [b64_encode sextets map]. unfold strip_padding.
    cbn [length rev app]. change (N.of_nat 4 mod 4 =? 0) with true. cbv iota.
    change (ch "=" =? ch "=") with true. cbv iota.
    rewrite b64_char_not_pad. reflexivity.
  - cbn [b64_encode sextets map].
    destruct rest as [|x rest'].
    + cbn [b64_encode sextets map]. unfold strip_padding.
      cbn [length rev app]. change (N.of_nat 4 mod 4 =? 0) with true. cbv iota.
      rewrite b64_char_not_pad. reflexivity.
    + change (?a :: ?b :: ?c :: ?d :: b64_encode (x :: rest'))
        with ([a; b; c; d] ++ b64_encode (x :: rest')).
      rewrite strip_padding_app, IH; [reflexivity|reflexivity|].
      apply b64_encode_length. discriminate.
Qed.

Lemma atob_b64_encode bs :
  Forall (fun b => b < 256) bs -> atob (b64_encode bs) = Normal bs.
Proof.
  intros Hb. unfold atob.
  rewrite b64_encode_no_space, strip_padding_encode, length_map, sextets_length.
  rewrite b64_values_chars by (apply sextets_bound, Hb).
  rewrite b64_decode_sextets by assumption. reflexivity.
Qed.

Lemma btoa_bytes bs : Forall (fun b => b < 256) bs -> btoa bs = Normal (b64_encode bs).
Proof.
  intros Hb. unfold btoa.
  assert (Hf : forallb (fun c => c <? 256) bs = true).
  { apply forallb_forall. intros c Hc. apply N.ltb_lt.
    rewrite Forall_forall in Hb. apply Hb. apply list_elem_of_In. exact Hc. }
  rewrite Hf. reflexivity.
Qed.

(** *** [decodeURIComponent] after [escape] *)

Lemma escape_unit_high b :
  0x80 <= b -> b < 256 -> escape_unit b = percent_octet b.
Proof.
  intros Hlo Hhi. unfold escape_unit, escape_unescaped, is_alnum, is_digit, is_upper,
    is_lower, in_range, mem_char.
  eval_lits. cbn [existsb]. settle. reflexivity.
Qed.

Lemma escape_unescaped_literal c :
  escape_unescaped c = true -> (c =? ch "%") = false.
Proof.
  intros Hc. destruct (N.eqb_spec c (ch "%")) as [->|]; [discriminate|reflexivity].
Qed.

Lemma Decode_percent fuel b t :
  b < 256 ->
  Decode_loop (S fuel) (percent_octet b ++ t)
  = if leading_ones b =? 0 then cbind (Decode_loop fuel t) (fun r => Normal (b :: r))
    else if (leading_ones b =? 1) || (4 <? leading_ones b) then Throw URIError
    else
      match take_continuations (N.to_nat (leading_ones b - 1)) t with
      | None => Throw URIError
      | Some (bs, rest2) =>
          match utf8_code_point (b :: bs) with
          | None => Throw URIError
          | Some cp => cbind (Decode_loop fuel rest2) (fun r => Normal (utf16_units cp ++ r))
          end
      end.
Proof.
  intros Hb.
  change (Decode_loop (S fuel) (percent_octet b ++ t)) with
    (match take_percent_octet (percent_octet b ++ t) with
     | None => Throw URIError
     | Some (b, rest1) =>
         let n := leading_ones b in
         if n =? 0 then cbind (Decode_loop fuel rest1) (fun r => Normal (b :: r))
         else if (n =? 1) || (4 <? n) then Throw URIError
         else
           match take_continuations (N.to_nat (n - 1)) rest1 with
           | None => Throw URIError
           | Some (bs, rest2) =>
               match utf8_code_point (b :: bs) with
               | None => Throw URIError
               | Some cp =>
                   cbind (Decode_loop fuel rest2) (fun r => Normal (utf16_units cp ++ r))
               end
           end
     end).
  rewrite take_percent_octet_percent by lia. reflexivity.
Qed.

Lemma Decode_ascii fuel b t :
  b < 0x80 ->
  Decode_loop (S fuel) (escape_unit b ++ t)
  = cbind (Decode_loop fuel t) (fun r => Normal (b :: r)).
Proof.
  intros Hb. unfold escape_unit.
  destruct (escape_unescaped b) eqn:Hu.
  - cbn [app Decode_loop]. rewrite (escape_unescaped_literal b Hu). reflexivity.
  - assert (Hlt : (b <? 256) = true) by (apply N.ltb_lt; lia). rewrite Hlt.
    rewrite Decode_percent by lia. unfold leading_ones. settle. reflexivity.
Qed.

Lemma take_continuations_percent bs t :
  Forall (fun b => b < 256) bs ->
  take_continuations (length bs) (flat_map percent_octet bs ++ t) = Some (bs, t).
Proof.
  induction 1 as [|b bs Hb _ IH]; [reflexivity|].
  cbn [length take_continuations flat_map]. rewrite <- app_assoc.
  rewrite take_percent_octet_percent, IH by assumption. reflexivity.
Qed.

Lemma escape_high_octets bs :
  Forall (fun b => 0x80 <= b < 256) bs -> escape bs = flat_map percent_octet bs.
Proof.
  induction 1 as [|b bs [Hlo Hhi] _ IH]; [reflexivity|].
  unfold escape in *. cbn [flat_map]. rewrite IH, escape_unit_high by assumption. reflexivity.
Qed.

(** A code point outside ASCII: its octets are all escaped, and Decode
    reads them back as one code point. *)
Lemma Decode_code_point fuel cp t :
  0x80 <= cp -> cp <= 0x10FFFF -> in_range 0xD800 0xDFFF cp = false ->
  Decode_loop (S fuel) (escape (utf8_octets cp) ++ t)
  = cbind (Decode_loop fuel t) (fun r => Normal (utf16_units cp ++ r)).
Proof.
  intros Hlo Hhi Hsur. unfold in_range in Hsur.
  unfold utf8_octets. settle.
  destruct (N.ltb_spec cp 0x800); [|destruct (N.ltb_spec cp 0x10000)].
  - rewrite escape_high_octets by (repeat constructor; lia).
    cbn [flat_map]. rewrite <- app_assoc, Decode_percent by lia.
    unfold leading_ones. settle.
    change (N.to_nat (2 - 1)) with (length [0x80 + cp mod 64]).
    rewrite (take_continuations_percent [0x80 + cp mod 64]) by (repeat constructor; lia).
    unfold utf8_code_point, is_continuation, in_range.
    replace ((0xC0 + cp / 64 - 0xC0) * 64 + (0x80 + cp mod 64 - 0x80)) with cp by lia.
    settle. reflexivity.
  - rewrite escape_high_octets by (repeat constructor; lia).
    cbn [flat_map]. rewrite <- app_assoc, Decode_percent by lia.
    unfold leading_ones. settle.
    change (N.to_nat (3 - 1)) with (length [0x80 + (cp / 64) mod 64; 0x80 + cp mod 64]).
    rewrite (take_continuations_percent [0x80 + (cp / 64) mod 64; 0x80 + cp mod 64])
      by (repeat constructor; lia).
    unfold utf8_code_point, is_continuation, in_range.
    replace ((0xE0 + cp / 4096 - 0xE0) * 4096 + (0x80 + (cp / 64) mod 64 - 0x80) * 64
             + (0x80 + cp mod 64 - 0x80)) with cp by lia.
    settle. rewrite Hsur. reflexivity.
  - rewrite escape_high_octets by (repeat constructor; lia).
    cbn [flat_map]. rewrite <- app_assoc, Decode_percent by lia.
    unfold leading_ones. settle.
    change (N.to_nat (4 - 1))
      with (length [0x80 + (cp / 4096) mod 64; 0x80 + (cp / 64) mod 64; 0x80 + cp mod 64]).
    rewrite (take_continuations_percent
               [0x80 + (cp / 4096) mod 64; 0x80 + (cp / 64) mod 64; 0x80 + cp mod 64])
      by (repeat constructor; lia).
    unfold utf8_code_point, is_continuation, in_range.
    replace ((0xF0 + cp / 262144 - 0xF0) * 262144 + (0x80 + (cp / 4096) mod 64 - 0x80) * 4096
             + (0x80 + (cp / 64) mod 64 - 0x80) * 64 + (0x80 + cp mod 64 - 0x80))
      with cp by lia.
    settle. reflexivity.
Qed.

Lemma escape_unit_nonempty c : (1 <= length (escape_unit c))%nat.
Proof.
  unfold escape_unit. destruct (escape_unescaped c); [simpl; lia|].
  destruct (c <? 256); simpl; lia.
Qed.

Lemma escape_app a b : escape (a ++ b) = escape a ++ escape b.
Proof. unfold escape. apply flat_map_app. Qed.

Lemma utf8_octets_nonempty cp : exists b bs, utf8_octets cp = b :: bs.
Proof. unfold utf8_octets. repeat destruct (_ <? _); eauto. Qed.

Lemma escape_octets_length cp : (1 <= length (escape (utf8_octets cp)))%nat.
Proof.
  destruct (utf8_octets_nonempty cp) as (b & bs & ->).
  unfold escape. cbn [flat_map]. rewrite length_app.
  pose proof (escape_unit_nonempty b). lia.
Qed.

Lemma Decode_escape_utf8 s :
  well_formed s ->
  forall fuel, (length (escape (utf8_of s)) <= fuel)%nat ->
  Decode_loop fuel (escape (utf8_of s)) = Normal s.
Proof.
  induction 1 as [|c rest Hh Hl Hc Hwf IH|c d rest Hh Hl Hwf IH] using well_formed_ind;
    intros fuel Hfuel.
  - destruct fuel; reflexivity.
  - cbn [utf8_of] in *. rewrite Hh in *. rewrite escape_app in *.
    rewrite length_app in Hfuel. pose proof (escape_octets_length c).
    destruct fuel as [|fuel]; [lia|].
    destruct (N.ltb_spec c 0x80) as [Hlt|Hge].
    + unfold utf8_octets in *. apply N.ltb_lt in Hlt. rewrite Hlt in *.
      unfold escape at 1. cbn [flat_map]. rewrite app_nil_r.
      rewrite Decode_ascii by (apply N.ltb_lt; exact Hlt).
      rewrite IH by lia. reflexivity.
    + rewrite Decode_code_point.
      * rewrite IH by lia. cbn [cbind]. unfold utf16_units. unfold code_unit in Hc.
        settle. reflexivity.
      * exact Hge.
      * unfold code_unit in Hc. lia.
      * revert Hh Hl. unfold is_high_surrogate, is_low_surrogate, in_range. cmp.
  - cbn [utf8_of] in *. rewrite Hh in *. rewrite escape_app in *.
    rewrite length_app in Hfuel.
    pose proof (escape_octets_length (surrogate_pair_value c d)).
    destruct fuel as [|fuel]; [lia|].
    pose proof (surrogate_pair_range c d Hh Hl) as Hr.
    rewrite Decode_code_point; try lia.
    + rewrite IH by lia. cbn [cbind]. unfold utf16_units. settle.
      revert Hh Hl. unfold is_high_surrogate, is_low_surrogate, surrogate_pair_value.
      intros Hh Hl. apply andb_true_iff in Hh as [H1 H2]. apply andb_true_iff in Hl as [H3 H4].
      apply N.leb_le in H1, H2, H3, H4.
      cbn [app]. repeat f_equal; lia.
    + unfold in_range. settle. reflexivity.
Qed.

(** ** The runtime: JSON *)

Section Proofs.
Context `{NumberFormat}.

Lemma hex4_lower c :
  c < 65536 ->
  hex4 (hex_lower (c / 4096)) (hex_lower ((c / 256) mod 16))
       (hex_lower ((c / 16) mod 16)) (hex_lower (c mod 16)) = Some c.
Proof.
  intros Hc. unfold hex4, hex2. rewrite !hex_value_lower by lia. f_equal. lia.
Qed.

Lemma parse_unicode_escape c rest :
  c < 65536 ->
  parse_string_body (unicode_escape c ++ rest) = prepend c (parse_string_body rest).
Proof.
  intros Hc. unfold unicode_escape. cbn [app parse_string_body].
  change (ch "\" =? 34) with false. change (ch "\" <? 32) with false.
  change (ch "\" =? 92) with true. change (ch "u" =? ch "u") with true. cbv iota.
  rewrite hex4_lower by assumption. reflexivity.
Qed.

Lemma parse_quote_unit c rest :
  is_high_surrogate c = false -> is_low_surrogate c = false ->
  parse_string_body (quote_unit c ++ rest) = prepend c (parse_string_body rest).
Proof.
  intros _ _. unfold quote_unit.
  destruct (N.eqb_spec c 8) as [->|]; [reflexivity|].
  destruct (N.eqb_spec c 9) as [->|]; [reflexivity|].
  destruct (N.eqb_spec c 10) as [->|]; [reflexivity|].
  destruct (N.eqb_spec c 12) as [->|]; [reflexivity|].
  destruct (N.eqb_spec c 13) as [->|]; [reflexivity|].
  destruct (N.eqb_spec c 34) as [->|]; [reflexivity|].
  destruct (N.eqb_spec c 92) as [->|]; [reflexivity|].
  destruct (N.ltb_spec c 32).
  - apply parse_unicode_escape. lia.
  - cbn [app parse_string_body]. settle. reflexivity.
Qed.

Lemma parse_surrogate_unit c rest :
  is_high_surrogate c = true \/ is_low_surrogate c = true ->
  parse_string_body (c :: rest) = prepend c (parse_string_body rest).
Proof.
  unfold is_high_surrogate, is_low_surrogate. intros Hc.
  assert (0xD800 <= c).
  { destruct Hc as [Hc|Hc]; apply andb_true_iff in Hc as [H1 _]; apply N.leb_le in H1; lia. }
  cbn [parse_string_body]. settle. reflexivity.
Qed.

Lemma surrogate_code_unit c :
  is_high_surrogate c = true \/ is_low_surrogate c = true -> c < 65536.
Proof.
  unfold is_high_surrogate, is_low_surrogate.
  intros [Hc|Hc]; apply andb_true_iff in Hc as [_ H2]; apply N.leb_le in H2; lia.
Qed.

(** Reading back a quoted string: the characters, then what follows the
    closing quote. *)
Lemma parse_quote_body s rest :
  parse_string_body (quote_body s ++ 0x22 :: rest) = Some (s, rest).
Proof.
  remember (length s) as n eqn:Hn. revert s Hn.
  induction n as [n IH] using (well_founded_induction lt_wf).
  intros [|c s'] Hn; [reflexivity|].
  cbn [quote_body]. cbn [length] in Hn.
  destruct (is_high_surrogate c) eqn:Hh.
  - destruct s' as [|d s''].
    + rewrite parse_unicode_escape by (apply surrogate_code_unit; auto).
      reflexivity.
    + destruct (is_low_surrogate d) eqn:Hl.
      * cbn [app]. rewrite parse_surrogate_unit by auto.
        rewrite parse_surrogate_unit by auto.
        rewrite (IH (length s'')); [reflexivity| cbn [length] in Hn; lia | reflexivity].
      * rewrite <- app_assoc, parse_unicode_escape by (apply surrogate_code_unit; auto).
        rewrite (IH (length (d :: s''))); [reflexivity| lia | reflexivity].
  - destruct (is_low_surrogate c) eqn:Hl.
    + rewrite <- app_assoc, parse_unicode_escape by (apply surrogate_code_unit; auto).
      rewrite (IH (length s')); [reflexivity| lia | reflexivity].
    + rewrite <- app_assoc, parse_quote_unit by assumption.
      rewrite (IH (length s')); [reflexivity| lia | reflexivity].
Qed.

Lemma parse_quoted s rest :
  parse_string_body (quote_body s ++ [0x22] ++ rest) = Some (s, rest).
Proof. apply parse_quote_body. Qed.

Lemma skip_ws_quote rest : skip_ws (0x22 :: rest) = 0x22 :: rest.
Proof. reflexivity. Qed.

Lemma parse_value_string fuel s rest :
  parse_value (S fuel) (QuoteJSONString s ++ rest) = POk (JString s) rest.
Proof.
  unfold QuoteJSONString. cbn [app]. rewrite <- app_assoc.
  cbn [parse_value skip_ws is_json_whitespace mem_char existsb].
  change (34 =? 9) with false. change (34 =? 10) with false. change (34 =? 13) with false.
  change (34 =? 32) with false. cbn [orb].
  change (34 =? ch "{") with false. change (34 =? ch "[") with false.
  change (34 =? 34) with true. cbv iota.
  rewrite parse_quoted. reflexivity.
Qed.

(** One member [key:string] of an object, followed by a comma and the
    next key. *)
Lemma parse_members_more fuel k s k' more acc :
  parse_members (S (S fuel))
    (QuoteJSONString k ++ lit ":" ++ QuoteJSONString s ++ lit ","
     ++ QuoteJSONString k' ++ more) acc
  = parse_members (S fuel) (QuoteJSONString k' ++ more) (set_property acc k (JString s)).
Proof.
  unfold QuoteJSONString at 1. cbn [app]. rewrite <- app_assoc.
  cbn [parse_members]. change (34 =? 34) with true. cbv iota.
  rewrite parse_quoted.
  change (lit ":" ++ ?x) with (ch ":" :: x).
  change (skip_ws (ch ":" :: ?x)) with (ch ":" :: x). cbv iota.
  rewrite N.eqb_refl. rewrite parse_value_string.
  change (lit "," ++ ?x) with (ch "," :: x).
  change (skip_ws (ch "," :: ?x)) with (ch "," :: x). cbv iota.
  rewrite N.eqb_refl. reflexivity.
Qed.

Lemma parse_value_object fuel k more :
  parse_value (S fuel) (lit "{" ++ QuoteJSONString k ++ more)
  = parse_members fuel (QuoteJSONString k ++ more) [].
Proof. reflexivity. Qed.

Lemma parse_members_last fuel k s rest acc :
  parse_members (S (S fuel))
    (QuoteJSONString k ++ lit ":" ++ QuoteJSONString s ++ lit "}" ++ rest) acc
  = POk (JObject (set_property acc k (JString s))) rest.
Proof.
  unfold QuoteJSONString at 1. cbn [app]. rewrite <- app_assoc.
  cbn [parse_members]. change (34 =? 34) with true. cbv iota.
  rewrite parse_quoted.
  change (lit ":" ++ ?x) with (ch ":" :: x).
  change (skip_ws (ch ":" :: ?x)) with (ch ":" :: x). cbv iota.
  rewrite N.eqb_refl. rewrite parse_value_string.
  change (lit "}" ++ ?x) with (ch "}" :: x).
  change (skip_ws (ch "}" :: ?x)) with (ch "}" :: x). cbv iota.
  change (ch "}" =? ch ",") with false. rewrite N.eqb_refl. reflexivity.
Qed.

Lemma stringify_config owner repo branch token :
  JSON_stringify (config_object owner repo branch token)
  = Some (config_text owner repo branch token).
Proof.
  unfold JSON_stringify, config_object, config_text.
  cbn [SerializeJSONProperty].
  change (own_property_order ?l) with l at 1.
  cbn [flat_map fst snd app]. unfold wrap. cbn [join app].
  rewrite <- !app_assoc. reflexivity.
Qed.

Lemma parse_config_text fuel owner repo branch token :
  (6 <= fuel)%nat ->
  parse_value fuel (config_text owner repo branch token)
  = POk (config_object owner repo branch token) [].
Proof.
  intros Hf.
  do 6 (destruct fuel as [|fuel]; [lia|]). clear Hf.
  unfold config_text.
  rewrite parse_value_object, !parse_members_more.
  change (lit "}") with (lit "}" ++ []).
  rewrite parse_members_last. reflexivity.
Qed.

Lemma JSON_parse_config_text owner repo branch token :
  JSON_parse (config_text owner repo branch token)
  = Normal (config_object owner repo branch token).
Proof.
  unfold JSON_parse. rewrite parse_config_text; [reflexivity|].
  unfold parse_fuel, config_text, QuoteJSONString.
  cbn [lit list_ascii_of_string map app length]. lia.
Qed.
(** ** The program *)

Lemma bind_normal {A B} (m : M A) (k : A -> M B) w a w' :
  m w = (Normal a, w') -> bind m k w = k a w'.
Proof. intros Hm. unfold bind. rewrite Hm. reflexivity. Qed.

Lemma bind_throw {A B} (m : M A) (k : A -> M B) w e w' :
  m w = (Throw e, w') -> bind m k w = (Throw e, w').
Proof. intros Hm. unfold bind. rewrite Hm. reflexivity. Qed.

Lemma isConnected_pure w : exists b, GH.isConnected w = (Normal b, w).
Proof. unfold GH.isConnected, bind, gets, ret. eauto. Qed.

Lemma connected_run w : connected w -> GH.isConnected w = (Normal true, w).
Proof.
  intros Hc. destruct (isConnected_pure w) as [b Hb].
  unfold connected in Hc. rewrite Hb in Hc. simpl in Hc. congruence.
Qed.

Lemma connected_object w : connected w -> exists props, config w = JObject props.
Proof.
  unfold connected, GH.isConnected, bind, gets, ret. simpl.
  destruct (config w); simpl; try discriminate. eauto.
Qed.

Lemma config_get_connected w key :
  connected w -> GH.config_get key w = (Normal (field w key), w).
Proof.
  intros Hc. destruct (connected_object w Hc) as [props Hp].
  unfold GH.config_get, field, bind, gets, lift, GetV_optional. simpl. rewrite Hp. reflexivity.
Qed.

Lemma connected_same_config w w' : config w' = config w -> connected w -> connected w'.
Proof.
  unfold connected, GH.isConnected, bind, gets, ret. simpl. intros ->. auto.
Qed.

Lemma field_same_config w w' key : config w' = config w -> field w' key = field w key.
Proof. unfold field. intros ->. reflexivity. Qed.

Lemma read_request_same_config w w' path :
  config w' = config w -> read_request w' path = read_request w path.
Proof.
  intros Hc. unfold read_request, api_base, api_headers. rewrite !(field_same_config w w') by exact Hc.
  reflexivity.
Qed.

Lemma write_request_same_config w w' path commitMsg content sha :
  config w' = config w ->
  write_request w' path commitMsg content sha = write_request w path commitMsg content sha.
Proof.
  intros Hc. unfold write_request, api_base, api_headers.
  rewrite !(field_same_config w w') by exact Hc. reflexivity.
Qed.

Lemma JSValue_nested_ind (P : JSValue -> Prop) :
  P JUndefined -> P JNull -> (forall b, P (JBool b)) -> (forall d, P (JNumber d)) ->
  (forall s, P (JString s)) ->
  (forall items, Forall P items -> P (JArray items)) ->
  (forall props, Forall (fun p => P (snd p)) props -> P (JObject props)) ->
  forall v, P v.
Proof.
  intros Hu Hn Hb Hd Hs Ha Ho.
  fix IH 1. intros [| |b|d|s|items|props];
    [exact Hu | exact Hn | apply Hb | apply Hd | apply Hs | |].
  - apply Ha. induction items as [|x items IHl]; constructor; [apply IH|exact IHl].
  - apply Ho. induction props as [|[k x] props IHl]; constructor; [apply IH|exact IHl].
Qed.

(** [ToString] fails with a TypeError only. *)
Lemma ToString_error v e : ToString v = Throw e -> e = TypeError.
Proof.
  revert e. induction v as [| | b | d | s | items IH | props IH] using JSValue_nested_ind;
    intros e; cbn [ToString]; try discriminate.
  - destruct b; discriminate.
  - match goal with |- cbind ?l _ = _ -> _ => destruct l as [parts|e'] eqn:El end;
      cbn [cbind]; [discriminate|]. intros [= <-].
    clear - IH El. revert e' El.
    induction IH as [|x items Hx Hitems IHl]; intros e'; [discriminate|].
    destruct (match x with JUndefined | JNull => Normal [] | _ => ToString x end) as [s|e1] eqn:Ex.
    + cbn [cbind].
      match goal with |- cbind ?l _ = _ -> _ => destruct l as [ss|e2] eqn:El end;
        cbn [cbind]; [discriminate|]. intros [= <-]. apply IHl. reflexivity.
    + cbn [cbind]. intros [= <-]. apply Hx. destruct x; try discriminate; exact Ex.
  - destruct (own_property props (lit "toString")); [|discriminate]. congruence.
Qed.

Lemma printable_text v : printable v = true -> ToString v = Normal (text_of v).
Proof. unfold printable, text_of. destruct (ToString v); [reflexivity|discriminate]. Qed.

Lemma unprintable_throws v : printable v = false -> ToString v = Throw TypeError.
Proof.
  unfold printable. destruct (ToString v) as [s|e] eqn:E; [discriminate|].
  intros _. rewrite (ToString_error v e E). reflexivity.
Qed.

Lemma printable_string s : printable (JString s) = true.
Proof. reflexivity. Qed.

Lemma printable_fields w :
  printable_config w = true ->
  printable (field w "owner") = true /\ printable (field w "repo") = true
  /\ printable (field w "branch") = true /\ printable (field w "token") = true.
Proof. unfold printable_config. rewrite !andb_true_iff. tauto. Qed.

Lemma printable_same_config w w' :
  config w' = config w -> printable_config w' = printable_config w.
Proof.
  intros Hc. unfold printable_config. rewrite !(field_same_config w w') by exact Hc.
  reflexivity.
Qed.

Lemma printable_config_object w owner repo branch token :
  config w = config_object owner repo branch token -> printable_config w = true.
Proof. intros Hc. unfold printable_config, field. rewrite Hc. reflexivity. Qed.

Lemma interpolate_connected w key :
  connected w -> printable (field w key) = true ->
  GH.interpolate key w = (Normal (text_of (field w key)), w).
Proof.
  intros Hc Hp. unfold GH.interpolate.
  rewrite (bind_normal _ _ _ _ _ (config_get_connected w key Hc)).
  unfold lift. rewrite (printable_text _ Hp). reflexivity.
Qed.

Lemma interpolate_unprintable w key :
  connected w -> printable (field w key) = false ->
  GH.interpolate key w = (Throw TypeError, w).
Proof.
  intros Hc Hp. unfold GH.interpolate.
  rewrite (bind_normal _ _ _ _ _ (config_get_connected w key Hc)).
  unfold lift. rewrite (unprintable_throws _ Hp). reflexivity.
Qed.

Lemma apiBase_fields w :
  connected w -> printable (field w "owner") = true -> printable (field w "repo") = true ->
  GH.apiBase w = (Normal (api_base w), w).
Proof.
  intros Hc Ho Hr. unfold GH.apiBase.
  rewrite (bind_normal _ _ _ _ _ (interpolate_connected w _ Hc Ho)).
  rewrite (bind_normal _ _ _ _ _ (interpolate_connected w _ Hc Hr)).
  reflexivity.
Qed.

Lemma apiBase_throws w :
  connected w -> printable (field w "owner") && printable (field w "repo") = false ->
  GH.apiBase w = (Throw TypeError, w).
Proof.
  intros Hc Hp. unfold GH.apiBase.
  destruct (printable (field w "owner")) eqn:Ho.
  - rewrite (bind_normal _ _ _ _ _ (interpolate_connected w _ Hc Ho)).
    apply bind_throw, interpolate_unprintable; assumption.
  - apply bind_throw, interpolate_unprintable; assumption.
Qed.

Lemma headers_fields w :
  connected w -> printable (field w "token") = true ->
  GH.headers w = (Normal (api_headers w), w).
Proof.
  intros Hc Ht. unfold GH.headers.
  rewrite (bind_normal _ _ _ _ _ (interpolate_connected w _ Hc Ht)). reflexivity.
Qed.

Lemma headers_throws w :
  connected w -> printable (field w "token") = false -> GH.headers w = (Throw TypeError, w).
Proof. intros Hc Ht. apply bind_throw, interpolate_unprintable; assumption. Qed.

Lemma apiBase_connected w :
  connected w -> printable_config w = true -> GH.apiBase w = (Normal (api_base w), w).
Proof.
  intros Hc Hp. destruct (printable_fields w Hp) as (Ho & Hr & _).
  apply apiBase_fields; assumption.
Qed.

Lemma headers_connected w :
  connected w -> printable_config w = true -> GH.headers w = (Normal (api_headers w), w).
Proof.
  intros Hc Hp. destruct (printable_fields w Hp) as (_ & _ & _ & Ht).
  apply headers_fields; assumption.
Qed.

Lemma getFileSHA_connected w path :
  connected w -> printable_config w = true ->
  GH.getFileSHA path w =
    (Normal (sha_of_outcome (network w (requests w) (read_request w path))),
     set_requests (requests w ++ [read_request w path]) w).
Proof.
  intros Hc Hp. destruct (printable_fields w Hp) as (_ & _ & Hb & _).
  unfold GH.getFileSHA, try_catch.
  rewrite (bind_normal _ _ _ _ _ (apiBase_connected w Hc Hp)).
  rewrite (bind_normal _ _ _ _ _ (interpolate_connected w _ Hc Hb)).
  rewrite (bind_normal _ _ _ _ _ (headers_connected w Hc Hp)).
  unfold bind, fetch. fold (read_request w path).
  destruct (network w (requests w) (read_request w path)) as [res|e]; simpl; [|reflexivity].
  destruct (status res =? 404); [reflexivity|].
  destruct (ok res); simpl; [|reflexivity].
  unfold json. destruct (body res) as [text|]; [|reflexivity].
  unfold lift. destruct (JSON_parse text) as [data|e]; simpl; [|reflexivity].
  destruct (GetV data (lit "sha")); reflexivity.
Qed.

(** Without a request when a field of the config does not convert. *)
Lemma getFileSHA_unprintable w path :
  connected w -> printable_config w = false -> GH.getFileSHA path w = (Normal JNull, w).
Proof.
  intros Hc Hp. unfold GH.getFileSHA, try_catch.
  destruct (printable (field w "owner") && printable (field w "repo")) eqn:Hor.
  2: { rewrite (bind_throw _ _ _ _ _ (apiBase_throws w Hc Hor)). reflexivity. }
  apply andb_true_iff in Hor as [Ho Hr].
  rewrite (bind_normal _ _ _ _ _ (apiBase_fields w Hc Ho Hr)).
  destruct (printable (field w "branch")) eqn:Hb.
  2: { rewrite (bind_throw _ _ _ _ _ (interpolate_unprintable w _ Hc Hb)). reflexivity. }
  rewrite (bind_normal _ _ _ _ _ (interpolate_connected w _ Hc Hb)).
  destruct (printable (field w "token")) eqn:Ht.
  { unfold printable_config in Hp. rewrite Ho, Hr, Hb, Ht in Hp. discriminate. }
  rewrite (bind_throw _ _ _ _ _ (headers_throws w Hc Ht)). reflexivity.
Qed.

Lemma getFileSHA_total w path : exists v w', GH.getFileSHA path w = (Normal v, w').
Proof.
  unfold GH.getFileSHA, try_catch.
  match goal with |- context [match ?b w with _ => _ end] => destruct (b w) as [[v|e] w'] end;
    unfold ret; eauto.
Qed.

Lemma commitFile_connected w path content commitMsg isBinary :
  connected w -> printable_config w = true ->
  let read := read_request w path in
  let sha := sha_of_outcome (network w (requests w) read) in
  GH.commitFile path content commitMsg isBinary w =
    match encoded_content content isBinary with
    | Throw e => (Throw e, set_requests (requests w ++ [read]) w)
    | Normal enc =>
        let write := write_request w path commitMsg enc sha in
        (match network w (requests w ++ [read]) write with
         | Responds res => Normal (ok res)
         | Rejects e => Throw e
         end,
         set_requests (requests w ++ [read; write]) w)
    end.
Proof.
  intros Hc Hp read sha. unfold GH.commitFile.
  rewrite (bind_normal _ _ _ _ _ (connected_run w Hc)). cbn [negb].
  rewrite (bind_normal _ _ _ _ _ (getFileSHA_connected w path Hc Hp)).
  fold read. fold sha.
  set (w1 := set_requests (requests w ++ [read]) w).
  assert (Hc1 : connected w1) by (apply (connected_same_config w); [reflexivity|assumption]).
  assert (Hp1 : printable_config w1 = true) by exact Hp.
  rewrite (bind_normal _ _ _ _ _ (config_get_connected w1 _ Hc1)).
  unfold encoded_content.
  assert (Hf : forall k, field w1 k = field w k) by reflexivity.
  assert (Hw : forall enc,
    (let! base := GH.apiBase
     in let! hs := GH.headers
     in let! res := fetch {| req_method := PUT;
                             req_url := base ++ lit "/contents/" ++ path;
                             req_headers := hs;
                             req_body := JSON_stringify
                               (JObject (GH.commit_body commitMsg (field w1 "branch") enc sha)) |}
     in ret (ok res))%js w1 =
    (match network w (requests w ++ [read]) (write_request w path commitMsg enc sha) with
     | Responds res => Normal (ok res)
     | Rejects e => Throw e
     end,
     set_requests (requests w ++ [read; write_request w path commitMsg enc sha]) w)).
  { intros enc.
    rewrite (bind_normal _ _ _ _ _ (apiBase_connected w1 Hc1 Hp1)).
    rewrite (bind_normal _ _ _ _ _ (headers_connected w1 Hc1 Hp1)).
    unfold bind, fetch, ret. cbn [network requests w1 set_requests].
    change (api_base w1) with (api_base w). change (api_headers w1) with (api_headers w).
    rewrite Hf. fold (write_request w path commitMsg enc sha).
    destruct (network w (requests w ++ [read]) (write_request w path commitMsg enc sha));
      cbn [requests set_requests]; rewrite <- app_assoc; reflexivity. }
  destruct isBinary.
  - rewrite (bind_normal _ _ w1 content w1) by reflexivity. apply Hw.
  - destruct (GH.encode_text content) as [enc|e] eqn:He.
    + rewrite (bind_normal _ _ w1 enc w1) by reflexivity. apply Hw.
    + rewrite (bind_throw _ _ w1 e w1) by reflexivity. reflexivity.
Qed.

(** [commitFile] when the branch alone does not convert: no read, and the
    write carries no revision tag. *)
Lemma commitFile_no_read w path content commitMsg isBinary :
  connected w ->
  printable (field w "owner") = true -> printable (field w "repo") = true ->
  printable (field w "token") = true -> printable (field w "branch") = false ->
  GH.commitFile path content commitMsg isBinary w =
    match encoded_content content isBinary with
    | Throw e => (Throw e, w)
    | Normal enc =>
        let write := write_request w path commitMsg enc JNull in
        (match network w (requests w) write with
         | Responds res => Normal (ok res)
         | Rejects e => Throw e
         end,
         set_requests (requests w ++ [write]) w)
    end.
Proof.
  intros Hc Ho Hr Ht Hb. unfold GH.commitFile.
  rewrite (bind_normal _ _ _ _ _ (connected_run w Hc)). cbn [negb].
  assert (Hp : printable_config w = false).
  { unfold printable_config. rewrite Ho, Hr, Hb. reflexivity. }
  rewrite (bind_normal _ _ _ _ _ (getFileSHA_unprintable w path Hc Hp)).
  rewrite (bind_normal _ _ _ _ _ (config_get_connected w _ Hc)).
  assert (Hw : forall enc,
    (let! base := GH.apiBase
     in let! hs := GH.headers
     in let! res := fetch {| req_method := PUT;
                             req_url := base ++ lit "/contents/" ++ path;
                             req_headers := hs;
                             req_body := JSON_stringify
                               (JObject (GH.commit_body commitMsg (field w "branch") enc JNull)) |}
     in ret (ok res))%js w =
    (match network w (requests w) (write_request w path commitMsg enc JNull) with
     | Responds res => Normal (ok res)
     | Rejects e => Throw e
     end,
     set_requests (requests w ++ [write_request w path commitMsg enc JNull]) w)).
  { intros enc.
    rewrite (bind_normal _ _ _ _ _ (apiBase_fields w Hc Ho Hr)).
    rewrite (bind_normal _ _ _ _ _ (headers_fields w Hc Ht)).
    unfold bind, fetch, ret. fold (write_request w path commitMsg enc JNull).
    destruct (network w (requests w) (write_request w path commitMsg enc JNull));
      reflexivity. }
  unfold encoded_content. destruct isBinary.
  - rewrite (bind_normal _ _ w content w) by reflexivity. apply Hw.
  - destruct (GH.encode_text content) as [enc|e].
    + rewrite (bind_normal _ _ w enc w) by reflexivity. apply Hw.
    + apply bind_throw. reflexivity.
Qed.

Lemma printable_api_fields w :
  printable_api w = true ->
  printable (field w "owner") = true /\ printable (field w "repo") = true
  /\ printable (field w "token") = true.
Proof. unfold printable_api. rewrite !andb_true_iff. tauto. Qed.

Lemma printable_config_split w :
  printable_config w = printable_api w && printable (field w "branch").
Proof.
  unfold printable_config, printable_api.
  destruct (printable (field w "owner")), (printable (field w "repo")),
    (printable (field w "branch")), (printable (field w "token")); reflexivity.
Qed.

Lemma commitFile_not_connected w path content commitMsg isBinary :
  GH.isConnected w = (Normal false, w) ->
  GH.commitFile path content commitMsg isBinary w = (Normal false, w).
Proof. intros Hn. unfold GH.commitFile, bind. rewrite Hn. reflexivity. Qed.

Lemma same_core_refl w : same_core w w.
Proof. split; reflexivity. Qed.

Lemma same_core_trans w1 w2 w3 : same_core w1 w2 -> same_core w2 w3 -> same_core w1 w3.
Proof. intros [] []. split; congruence. Qed.

Lemma same_core_present w w' id : same_core w w' -> present w' id = present w id.
Proof.
  intros Hs. unfold present.
  destruct (document w' !! lit id) eqn:E', (document w !! lit id) eqn:E; try reflexivity.
  - assert (Hin : lit id ∈ dom (document w')) by (apply elem_of_dom; eauto).
    rewrite (core_dom _ _ Hs) in Hin. apply elem_of_dom in Hin as [x Hx]. congruence.
  - assert (Hin : lit id ∈ dom (document w)) by (apply elem_of_dom; eauto).
    rewrite <- (core_dom _ _ Hs) in Hin. apply elem_of_dom in Hin as [x Hx]. congruence.
Qed.

Lemma same_core_syncbar w w' : same_core w w' -> syncbar_ok w = true -> syncbar_ok w' = true.
Proof.
  intros Hs Hok. unfold syncbar_ok in *. rewrite !(same_core_present _ _ _ Hs). exact Hok.
Qed.

Lemma syncbar_parts w :
  syncbar_ok w = true ->
  document w !! lit "sync-bar" = None
  \/ (exists b m i, document w !! lit "sync-bar" = Some b
                    /\ document w !! lit "sync-msg" = Some m
                    /\ document w !! lit "sync-icon" = Some i).
Proof.
  unfold syncbar_ok, present.
  destruct (document w !! lit "sync-bar") as [b|]; [|auto].
  destruct (document w !! lit "sync-msg") as [m|]; [|discriminate].
  destruct (document w !! lit "sync-icon") as [i|]; [|discriminate].
  intros _. right. eauto 6.
Qed.

Lemma same_core_connected w w' : same_core w w' -> connected w -> connected w'.
Proof. intros Hs. apply connected_same_config, Hs. Qed.

Lemma getElementById_run id w :
  getElementById id w =
    (Normal (match document w !! id with Some _ => Some id | None => None end), w).
Proof. reflexivity. Qed.

Lemma update_some id f w :
  update (Some id) f w = (Normal tt, set_document (alter f id (document w)) w).
Proof. reflexivity. Qed.

Lemma same_core_alter f id w : same_core w (set_document (alter f id (document w)) w).
Proof. split; try reflexivity. simpl. apply dom_alter_L. Qed.

Lemma same_core_status c w : same_core w (set_status_calls c w).
Proof. split; reflexivity. Qed.

Lemma same_core_timers t w : same_core w (set_timers t w).
Proof. split; reflexivity. Qed.

Lemma quiet_ret P : quiet P (ret tt).
Proof. intros w _. exists w. split; [reflexivity|]. split; [apply same_core_refl|]. auto. Qed.

Lemma quiet_update P id f : quiet P (update (Some id) f).
Proof.
  intros w _. eexists. split; [apply update_some|]. split; [apply same_core_alter|]. auto.
Qed.

Lemma quiet_seq P (m k : M unit) :
  stable P -> quiet P m -> quiet P k -> quiet P (bind m (fun _ => k)).
Proof.
  intros HP Hm Hk w Hw. destruct (Hm w Hw) as (w1 & E1 & S1 & C1 & T1).
  destruct (Hk w1 (HP _ _ S1 Hw)) as (w2 & E2 & S2 & C2 & T2).
  exists w2. rewrite (bind_normal _ _ _ _ _ E1). split; [exact E2|].
  split; [eapply same_core_trans; eassumption|]. split; congruence.
Qed.

Lemma quiet_getElementById P id (k : option jsstring -> M unit) :
  (forall el, quiet P (k el)) -> quiet P (bind (getElementById id) k).
Proof.
  intros Hk w Hw. rewrite (bind_normal _ _ _ _ _ (getElementById_run id w)). apply Hk, Hw.
Qed.

Lemma quiet_config_get P key (k : JSValue -> M unit) :
  (forall w, P w -> connected w) -> (forall v, quiet P (k v)) ->
  quiet P (bind (GH.config_get key) k).
Proof.
  intros HP Hk w Hw.
  rewrite (bind_normal _ _ _ _ _ (config_get_connected w key (HP w Hw))). apply Hk, Hw.
Qed.

Lemma quiet_optional P (el : option jsstring) f :
  quiet P (match el with Some _ => update el f | None => ret tt end).
Proof. destruct el; [apply quiet_update | apply quiet_ret]. Qed.

Lemma quiet_setVal P id v : quiet P (GH.setVal id v).
Proof.
  unfold GH.setVal. apply quiet_getElementById. intros el. apply quiet_optional.
Qed.

Lemma stable_connected : stable connected.
Proof. intros w w'. apply same_core_connected. Qed.

Lemma stable_true : stable (fun _ => True).
Proof. intros w w' _ _. exact I. Qed.

Lemma quiet_interpolate P key (k : jsstring -> M unit) :
  (forall w, P w -> connected w /\ printable (field w key) = true) ->
  (forall s, quiet P (k s)) ->
  quiet P (bind (GH.interpolate key) k).
Proof.
  intros HP Hk w Hw. destruct (HP w Hw) as [Hc Hp].
  rewrite (bind_normal _ _ _ _ _ (interpolate_connected w key Hc Hp)). apply Hk, Hw.
Qed.

Lemma stable_label :
  stable (fun w => connected w /\ printable (field w "owner") = true
                   /\ printable (field w "repo") = true).
Proof.
  intros w w' Hs (Hc & Ho & Hr).
  rewrite !(field_same_config w w') by apply Hs.
  split; [eapply same_core_connected; eassumption|]. split; assumption.
Qed.

Lemma label_ok_config_object w owner repo branch token :
  config w = config_object owner repo branch token -> label_ok w.
Proof. intros Hc _. unfold field. rewrite Hc. split; reflexivity. Qed.

Lemma label_ok_null w : config w = JNull -> label_ok w.
Proof.
  intros Hc Hcon. exfalso. unfold connected, GH.isConnected, bind, gets, ret in Hcon.
  rewrite Hc in Hcon. discriminate.
Qed.

Lemma label_ok_printable w : printable_config w = true -> label_ok w.
Proof. intros Hp _. destruct (printable_fields w Hp) as (Ho & Hr & _). auto. Qed.

(** Where the label can be written, [updateStatusUI] completes and writes
    to the page only. *)
Lemma updateStatusUI_quiet : quiet label_ok GH.updateStatusUI.
Proof.
  unfold GH.updateStatusUI.
  apply quiet_getElementById. intros dot.
  apply quiet_getElementById. intros label.
  apply quiet_getElementById. intros btn.
  destruct dot as [dot|]; [|apply quiet_ret].
  destruct label as [label|]; [|apply quiet_ret].
  intros w Hl. destruct (isConnected_pure w) as [b Hb]. rewrite (bind_normal _ _ _ _ _ Hb).
  destruct b.
  - assert (Hc : connected w) by (unfold connected; rewrite Hb; reflexivity).
    assert (HP : connected w /\ printable (field w "owner") = true
                 /\ printable (field w "repo") = true) by (split; [exact Hc|exact (Hl Hc)]).
    clear Hb Hl Hc. revert w HP.
    change (quiet (fun w => connected w /\ printable (field w "owner") = true
                            /\ printable (field w "repo") = true)
      (update (Some dot) (with_classes [lit "status-dot"; lit "status-github"]) ;;
        let! owner := GH.interpolate "owner" in
        let! repo := GH.interpolate "repo" in
        update (Some label) (with_textContent (owner ++ lit "/" ++ repo)) ;;
        match btn with
        | Some _ => update btn (with_display (lit "block"))
        | None => ret tt
        end ;;
        let! owner := GH.config_get "owner" in
        GH.setVal "ghOwner" owner ;;
        let! repo := GH.config_get "repo" in
        GH.setVal "ghRepo" repo ;;
        let! branch := GH.config_get "branch" in
        GH.setVal "ghBranch" branch ;;
        let! token := GH.config_get "token" in
        GH.setVal "ghToken" token)%js).
    repeat first
      [ apply quiet_setVal | apply quiet_update | apply quiet_optional
      | apply quiet_seq; [exact stable_label| |]
      | apply quiet_interpolate; [intros ? (? & ? & ?); auto|intro]
      | apply quiet_config_get; [intros ? (? & ? & ?); assumption|intro] ].
  - clear Hb Hl. generalize I. revert w.
    change (quiet (fun _ => True)
      (update (Some dot) (with_classes [lit "status-dot"; lit "status-local"]) ;;
        update (Some label) (with_textContent (lit "Local only")) ;;
        match btn with
        | Some _ => update btn (with_display (lit "none"))
        | None => ret tt
        end)%js).
    repeat first
      [ apply quiet_update | apply quiet_optional
      | apply quiet_seq; [exact stable_true| |] ].
Qed.

(** On a page without the dot or without its label nothing is written. *)
Lemma updateStatusUI_absent w :
  present w "gh-status-dot" && present w "gh-status-label" = false ->
  GH.updateStatusUI w = (Normal tt, w).
Proof.
  intros Hp. unfold GH.updateStatusUI.
  rewrite !(bind_normal _ _ _ _ _ (getElementById_run _ w)).
  unfold present in Hp.
  destruct (document w !! lit "gh-status-dot"); [|reflexivity].
  destruct (document w !! lit "gh-status-label"); [discriminate|reflexivity].
Qed.

Lemma updateStatusUI_completes w :
  label_ok w \/ present w "gh-status-dot" && present w "gh-status-label" = false ->
  exists w', GH.updateStatusUI w = (Normal tt, w') /\ same_core w w'
             /\ status_calls w' = status_calls w /\ timers w' = timers w.
Proof.
  intros [Hl|Ha].
  - apply updateStatusUI_quiet, Hl.
  - exists w. rewrite (updateStatusUI_absent w Ha).
    split; [reflexivity|]. split; [apply same_core_refl|]. split; reflexivity.
Qed.

(** Where the label cannot be written, on a page with the indicator,
    [updateStatusUI] throws a TypeError after the dot is set. *)
Lemma updateStatusUI_throws_at w :
  connected w -> present w "gh-status-dot" = true -> present w "gh-status-label" = true ->
  printable (field w "owner") && printable (field w "repo") = false ->
  GH.updateStatusUI w
  = (Throw TypeError,
     set_document (alter (with_classes [lit "status-dot"; lit "status-github"])
                     (lit "gh-status-dot") (document w)) w).
Proof.
  intros Hc Hd Hl Hp. unfold GH.updateStatusUI.
  rewrite !(bind_normal _ _ _ _ _ (getElementById_run _ w)).
  unfold present in Hd, Hl.
  destruct (document w !! lit "gh-status-dot"); [|discriminate].
  destruct (document w !! lit "gh-status-label"); [|discriminate].
  rewrite (bind_normal _ _ _ _ _ (connected_run w Hc)).
  rewrite (bind_normal _ _ _ _ _ (update_some _ _ w)).
  set (w1 := set_document _ w).
  assert (S1 : same_core w w1) by apply same_core_alter.
  assert (Hc1 : connected w1) by (eapply same_core_connected; eassumption).
  change (field w "owner") with (field w1 "owner") in Hp.
  change (field w "repo") with (field w1 "repo") in Hp.
  destruct (printable (field w1 "owner")) eqn:Ho.
  - rewrite (bind_normal _ _ _ _ _ (interpolate_connected w1 _ Hc1 Ho)).
    apply bind_throw, interpolate_unprintable; assumption.
  - apply bind_throw, interpolate_unprintable; assumption.
Qed.

Lemma updateStatusUI_throws w :
  connected w -> present w "gh-status-dot" = true -> present w "gh-status-label" = true ->
  printable (field w "owner") && printable (field w "repo") = false ->
  exists w', GH.updateStatusUI w = (Throw TypeError, w') /\ same_core w w'
             /\ status_calls w' = status_calls w /\ timers w' = timers w.
Proof.
  intros Hc Hd Hl Hp. eexists. split; [apply updateStatusUI_throws_at; assumption|].
  split; [apply same_core_alter|]. split; reflexivity.
Qed.

Lemma showSyncBar_run msg w :
  syncbar_ok w = true ->
  exists w', GH.showSyncBar msg w = (Normal tt, w') /\ same_core w w'
             /\ status_calls w' = status_calls w ++ [SyncStart msg].
Proof.
  intros Hok. unfold GH.showSyncBar.
  rewrite (bind_normal _ _ w tt (set_status_calls (status_calls w ++ [SyncStart msg]) w))
    by reflexivity.
  set (w0 := set_status_calls _ w).
  assert (S0 : same_core w w0) by apply same_core_status.
  pose proof (same_core_syncbar _ _ S0 Hok) as Hok0.
  rewrite !(bind_normal _ _ _ _ _ (getElementById_run _ w0)).
  destruct (syncbar_parts w0 Hok0) as [Hb|(b & m & i & Hb & Hm & Hi)]; rewrite Hb.
  2: rewrite Hm, Hi.
  2: {
    assert (Hq : quiet (fun _ => True)
      (update (Some (lit "sync-msg")) (with_textContent (GH.or_default msg GH.SYNCING)) ;;
       update (Some (lit "sync-icon"))
         (with_innerHTML (GH.icon_html "fas fa-circle-notch fa-spin")) ;;
       update (Some (lit "sync-bar"))
         (classList_remove [lit "hidden"; lit "sync-error"; lit "sync-ok"]) ;;
       update (Some (lit "sync-bar")) (classList_add (lit "sync-active")))%js).
    { repeat first [ apply quiet_update | apply quiet_seq; [exact stable_true| |] ]. }
    destruct (Hq w0 I) as (w' & E & S & C & T).
    exists w'. split; [exact E|]. split; [eapply same_core_trans; eassumption|].
    rewrite C. reflexivity. }
  exists w0. split; [reflexivity|]. split; [exact S0|reflexivity].
Qed.

Lemma hideSyncBar_run status msg w :
  syncbar_ok w = true ->
  exists w', GH.hideSyncBar status msg w = (Normal tt, w') /\ same_core w w'
             /\ status_calls w' = status_calls w ++ [SyncEnd status msg].
Proof.
  intros Hok. unfold GH.hideSyncBar.
  rewrite (bind_normal _ _ w tt (set_status_calls (status_calls w ++ [SyncEnd status msg]) w))
    by reflexivity.
  set (w0 := set_status_calls _ w).
  assert (S0 : same_core w w0) by apply same_core_status.
  pose proof (same_core_syncbar _ _ S0 Hok) as Hok0.
  rewrite !(bind_normal _ _ _ _ _ (getElementById_run _ w0)).
  destruct (syncbar_parts w0 Hok0) as [Hb|(b & m & i & Hb & Hm & Hi)]; rewrite Hb.
  2: rewrite Hm, Hi.
  2: {
    assert (Hq : quiet (fun _ => True)
      (if jsstring_eqb status (lit "ok") then
          update (Some (lit "sync-icon")) (with_innerHTML (GH.icon_html "fas fa-check-circle")) ;;
          update (Some (lit "sync-msg"))
            (with_textContent (GH.or_default msg (lit "Synced to GitHub"))) ;;
          update (Some (lit "sync-bar")) (classList_add (lit "sync-ok"))
        else
          update (Some (lit "sync-icon"))
            (with_innerHTML (GH.icon_html "fas fa-exclamation-circle")) ;;
          update (Some (lit "sync-msg")) (with_textContent (GH.or_default msg GH.SYNC_FAILED)) ;;
          update (Some (lit "sync-bar")) (classList_add (lit "sync-error")))%js).
    { destruct (jsstring_eqb status (lit "ok"));
        repeat first [ apply quiet_update | apply quiet_seq; [exact stable_true| |] ]. }
    rewrite (bind_normal _ _ _ _ _ (update_some _ _ w0)).
    set (w1 := set_document _ w0).
    destruct (Hq w1 I) as (w2 & E & S & C & T).
    rewrite (bind_normal _ _ _ _ _ E).
    eexists. split; [reflexivity|]. split.
    + eapply same_core_trans; [exact S0|].
      eapply same_core_trans; [apply same_core_alter|].
      eapply same_core_trans; [exact S|]. apply same_core_timers.
    + cbn [status_calls set_timers]. rewrite C. reflexivity. }
  exists w0. split; [reflexivity|]. split; [exact S0|reflexivity].
Qed.

Lemma or_null_truthy v : GH.or_null v = JNull \/ (GH.or_null v = v /\ truthy v = true).
Proof. unfold GH.or_null. destruct (truthy v) eqn:E; auto. Qed.

Lemma sha_of_outcome_truthy o :
  sha_of_outcome o = JNull \/ truthy (sha_of_outcome o) = true.
Proof.
  destruct o as [res|e]; simpl; auto.
  destruct (status res =? 404); auto. destruct (ok res); simpl; auto.
  destruct (body res); auto.
  destruct (cbind _ _) as [sha|]; auto.
  destruct (or_null_truthy sha) as [->|[-> Ht]]; auto.
Qed.

(** C10. When the config is not connected, [commitFile] returns [false]
    at once and leaves the world as it was: no read and no write request
    is issued. *)
Theorem commitFile_not_connected_no_request w path content commitMsg isBinary :
  fst (GH.isConnected w) = Normal false ->
  GH.commitFile path content commitMsg isBinary w = (Normal false, w)
  /\ requests (snd (GH.commitFile path content commitMsg isBinary w)) = requests w.
Proof.
  intros Hn. destruct (isConnected_pure w) as [b Hb]. rewrite Hb in Hn. simpl in Hn.
  injection Hn as ->.
  rewrite (commitFile_not_connected _ _ _ _ _ Hb). split; reflexivity.
Qed.

(** C1, amended. [getFileSHA] catches every error and returns [null] (so
    also when the read is rejected in transport). [commitFile] has no
    handler of its own: it returns [false] when the config is not
    connected and, for a connected config whose fields convert to strings
    (every config of strings does), [res.ok] when the store answers the
    write, but an error thrown by the write request reaches its caller. *)
Theorem getFileSHA_catches_commitFile_propagates w path content commitMsg isBinary :
  (exists v w', GH.getFileSHA path w = (Normal v, w')
     /\ (connected w ->
         forall e, network w (requests w) (read_request w path) = Rejects e -> v = JNull))
  /\ (fst (GH.isConnected w) = Normal false ->
      fst (GH.commitFile path content commitMsg isBinary w) = Normal false)
  /\ (connected w -> printable_config w = true ->
      forall enc, encoded_content content isBinary = Normal enc ->
      let read := read_request w path in
      let write := write_request w path commitMsg enc
                     (sha_of_outcome (network w (requests w) read)) in
      (forall res, network w (requests w ++ [read]) write = Responds res ->
         fst (GH.commitFile path content commitMsg isBinary w) = Normal (ok res))
      /\ (forall e, network w (requests w ++ [read]) write = Rejects e ->
         fst (GH.commitFile path content commitMsg isBinary w) = Throw e)).
Proof.
  split; [|split].
  - destruct (getFileSHA_total w path) as (v & w' & E). exists v, w'. split; [exact E|].
    intros Hc e He. destruct (printable_config w) eqn:Hp.
    + rewrite (getFileSHA_connected w path Hc Hp), He in E. simpl in E. congruence.
    + rewrite (getFileSHA_unprintable w path Hc Hp) in E. congruence.
  - intros Hn. destruct (isConnected_pure w) as [b Hb]. rewrite Hb in Hn. simpl in Hn.
    injection Hn as ->. rewrite (commitFile_not_connected _ _ _ _ _ Hb). reflexivity.
  - intros Hc Hp enc He read write.
    rewrite (commitFile_connected w path content commitMsg isBinary Hc Hp), He.
    cbv zeta. fold read. fold write. split; intros x Hx; rewrite Hx; reflexivity.
Qed.

Lemma own_property_commit_body commitMsg branch content sha :
  own_property (GH.commit_body commitMsg branch content sha) (lit "sha")
  = if truthy sha then Some sha else None.
Proof. unfold GH.commit_body. destruct (truthy sha); reflexivity. Qed.

(** C3. For a connected config whose owner, repo and token convert to
    strings (every config of strings; without them no write request can be
    built), the body of the write request of [commitFile] has a [sha]
    property if and only if the read of [getFileSHA] just before it
    returned a tag other than [null], and then it is that tag; after a
    "not found" answer (404) the body has none. *)
Theorem commitFile_sha_tag_iff w path content commitMsg isBinary enc :
  connected w -> printable_api w = true ->
  encoded_content content isBinary = Normal enc ->
  let read := GH.getFileSHA path w in
  exists sha write props,
    fst read = Normal sha
    /\ requests (snd (GH.commitFile path content commitMsg isBinary w))
       = requests (snd read) ++ [write]
    /\ req_method write = PUT
    /\ req_body write = JSON_stringify (JObject props)
    /\ (own_property props (lit "sha") <> None <-> sha <> JNull)
    /\ (sha <> JNull -> own_property props (lit "sha") = Some sha)
    /\ (forall res, network w (requests w) (read_request w path) = Responds res ->
        status res = 404 -> own_property props (lit "sha") = None).
Proof.
  intros Hc Hapi He read. subst read.
  destruct (printable_api_fields w Hapi) as (Ho & Hr & Ht).
  destruct (printable (field w "branch")) eqn:Hb.
  - assert (Hp : printable_config w = true)
      by (rewrite printable_config_split, Hapi, Hb; reflexivity).
    rewrite (getFileSHA_connected w path Hc Hp).
    rewrite (commitFile_connected w path content commitMsg isBinary Hc Hp), He.
    cbv zeta. set (sha := sha_of_outcome _).
    exists sha, (write_request w path commitMsg enc sha),
      (GH.commit_body commitMsg (field w "branch") enc sha).
    cbn [fst snd requests set_requests].
    split; [reflexivity|]. split; [rewrite <- app_assoc; reflexivity|].
    split; [reflexivity|]. split; [reflexivity|].
    rewrite own_property_commit_body.
    destruct (sha_of_outcome_truthy (network w (requests w) (read_request w path))) as [E|E];
      fold sha in E.
    + rewrite E. simpl. split; [split; congruence|]. split; [congruence|]. reflexivity.
    + rewrite E. split; [|split].
      * split; [|congruence]. intros _ ->. discriminate.
      * reflexivity.
      * intros res Hr' H404. exfalso. subst sha. rewrite Hr' in E. simpl in E.
        rewrite H404 in E. discriminate.
  - assert (Hp : printable_config w = false)
      by (rewrite printable_config_split, Hapi, Hb; reflexivity).
    rewrite (getFileSHA_unprintable w path Hc Hp).
    rewrite (commitFile_no_read w path content commitMsg isBinary Hc Ho Hr Ht Hb), He.
    cbv zeta.
    exists JNull, (write_request w path commitMsg enc JNull),
      (GH.commit_body commitMsg (field w "branch") enc JNull).
    cbn [fst snd requests set_requests].
    split; [reflexivity|]. split; [reflexivity|].
    split; [reflexivity|]. split; [reflexivity|].
    rewrite own_property_commit_body. cbn [truthy].
    split; [split; congruence|]. split; [congruence|]. reflexivity.
Qed.

(** C6, amended. For a connected config whose owner, repo and token
    convert to strings (every config of strings) [testConnection]
    classifies the answer to the repository read: 200 gives [ok] with
    [Connected!]; 401
    not-ok with [Invalid token]; 404 not-ok with [Repo not found]; any
    other status not-ok with [Error] and the status; a rejected request
    not-ok with [Network error]. The stored config is untouched. *)
Theorem testConnection_classifies w :
  connected w -> printable_api w = true ->
  exists r w',
    GH.testConnection w = (Normal r, w')
    /\ config w' = config w /\ localStorage w' = localStorage w
    /\ (forall res, network w (requests w) (probe_request w) = Responds res ->
          (status res = 200 -> r = {| GH.result_ok := true; GH.msg := lit "Connected!" |})
          /\ (status res = 401 ->
              r = {| GH.result_ok := false; GH.msg := lit "Invalid token" |})
          /\ (status res = 404 ->
              r = {| GH.result_ok := false; GH.msg := lit "Repo not found" |})
          /\ (status res <> 200 -> status res <> 401 -> status res <> 404 ->
              r = {| GH.result_ok := false;
                     GH.msg := lit "Error " ++ N_toString (status res) |}))
    /\ (forall e, network w (requests w) (probe_request w) = Rejects e ->
          r = {| GH.result_ok := false; GH.msg := lit "Network error" |}).
Proof.
  intros Hc Hp. destruct (printable_api_fields w Hp) as (Ho & Hr & Ht).
  unfold GH.testConnection.
  rewrite (bind_normal _ _ _ _ _ (connected_run w Hc)). cbn [negb].
  unfold try_catch.
  rewrite (bind_normal _ _ _ _ _ (apiBase_fields w Hc Ho Hr)).
  rewrite (bind_normal _ _ _ _ _ (headers_fields w Hc Ht)).
  unfold bind, fetch. fold (probe_request w).
  destruct (network w (requests w) (probe_request w)) as [res|e].
  - destruct (N.eqb_spec (status res) 200) as [E200|N200].
    { eexists _, _. split; [reflexivity|]. split; [reflexivity|]. split; [reflexivity|].
      split; [|discriminate]. intros ? [= <-]. rewrite E200.
      repeat split; try reflexivity; intros; try discriminate; congruence. }
    destruct (N.eqb_spec (status res) 401) as [E401|N401].
    { eexists _, _. split; [reflexivity|]. split; [reflexivity|]. split; [reflexivity|].
      split; [|discriminate]. intros ? [= <-]. rewrite E401.
      repeat split; try reflexivity; intros; try discriminate; congruence. }
    destruct (N.eqb_spec (status res) 404) as [E404|N404].
    { eexists _, _. split; [reflexivity|]. split; [reflexivity|]. split; [reflexivity|].
      split; [|discriminate]. intros ? [= <-]. rewrite E404.
      repeat split; try reflexivity; intros; try discriminate; congruence. }
    eexists _, _. split; [reflexivity|]. split; [reflexivity|]. split; [reflexivity|].
    split; [|discriminate]. intros ? [= <-].
    repeat split; try reflexivity; intros; congruence.
  - eexists _, _. split; [reflexivity|]. split; [reflexivity|]. split; [reflexivity|].
    split; [discriminate|]. reflexivity.
Qed.

(** C7. For a connected config of fields that convert to strings (and a
    page whose status bar is whole), when the store answers the snapshot read with 404, [loadRemoteData]
    returns [null] and reports the outcome as success ([ok], with the
    "no remote data yet" message); nothing is logged as an error. *)
Theorem loadRemoteData_not_found w res :
  connected w -> printable_config w = true -> syncbar_ok w = true ->
  network w (requests w) (snapshot_request w) = Responds res ->
  status res = 404 ->
  exists w',
    GH.loadRemoteData w = (Normal JNull, w')
    /\ status_calls w' = status_calls w
         ++ [SyncStart (lit "Loading data from GitHub" ++ [0x2026]);
             SyncEnd (lit "ok") GH.NO_REMOTE_DATA]
    /\ console w' = console w.
Proof.
  intros Hc Hp Hok Hnet H404. unfold GH.loadRemoteData.
  rewrite (bind_normal _ _ _ _ _ (connected_run w Hc)). cbn [negb].
  destruct (showSyncBar_run (lit "Loading data from GitHub" ++ [0x2026]) w Hok)
    as (w1 & E1 & S1 & C1).
  rewrite (bind_normal _ _ _ _ _ E1).
  assert (Hc1 : connected w1) by (eapply same_core_connected; eassumption).
  assert (Hp1 : printable_config w1 = true)
    by (rewrite (printable_same_config w w1); [exact Hp|apply S1]).
  unfold try_catch.
  rewrite (bind_normal _ _ _ _ _ (apiBase_connected w1 Hc1 Hp1)).
  rewrite (bind_normal _ _ _ _ _
             (interpolate_connected w1 "branch" Hc1 (proj1 (proj2 (proj2 (printable_fields w1 Hp1)))))).
  rewrite (bind_normal _ _ _ _ _ (headers_connected w1 Hc1 Hp1)).
  assert (Hreq : snapshot_request w1 = snapshot_request w).
  { apply read_request_same_config, S1. }
  assert (Hf : fetch (snapshot_request w1) w1
               = (Normal res, set_requests (requests w1 ++ [snapshot_request w1]) w1)).
  { unfold fetch. rewrite Hreq, (core_network _ _ S1), (core_requests _ _ S1), Hnet.
    reflexivity. }
  rewrite (bind_normal _ _ _ _ _ Hf).
  assert (Hnok : ok res = false) by (unfold ok; rewrite H404; reflexivity).
  rewrite Hnok. cbn [negb].
  set (w2 := set_requests _ w1).
  assert (Hok2 : syncbar_ok w2 = true).
  { change (syncbar_ok w2) with (syncbar_ok w1). eapply same_core_syncbar; eassumption. }
  destruct (hideSyncBar_run (lit "ok") GH.NO_REMOTE_DATA w2 Hok2) as (w3 & E3 & S3 & C3).
  rewrite (bind_normal _ _ _ _ _ E3).
  exists w3. split; [reflexivity|]. split.
  - rewrite C3. cbn [status_calls w2 set_requests]. rewrite C1, <- app_assoc. reflexivity.
  - rewrite (core_console _ _ S3). cbn [console w2 set_requests]. apply S1.
Qed.

(** C9. For a connected config of fields that convert to strings (and a
    page whose status bar is whole), [uploadMatchImage] returns the raw-content URL of owner, repo, branch
    and [match-images/filename] when the store accepts the write, and
    [null] when the store rejects the write or the write request throws. *)
Theorem uploadMatchImage_result w base64Data filename :
  connected w -> printable_config w = true -> syncbar_ok w = true ->
  let path := lit "match-images/" ++ filename in
  let read := read_request w path in
  let write := write_request w path (GH.SCREENSHOT_MSG filename) base64Data
                 (sha_of_outcome (network w (requests w) read)) in
  exists w',
    GH.uploadMatchImage base64Data filename w =
      (Normal match network w (requests w ++ [read]) write with
              | Responds res => if ok res then Some (asset_url w path) else None
              | Rejects _ => None
              end, w')
    /\ requests w' = requests w ++ [read; write].
Proof.
  intros Hc Hp Hok path read write. unfold GH.uploadMatchImage.
  rewrite (bind_normal _ _ _ _ _ (connected_run w Hc)). cbn [negb].
  destruct (showSyncBar_run (lit "Uploading match screenshot" ++ [0x2026]) w Hok)
    as (w1 & E1 & S1 & C1).
  rewrite (bind_normal _ _ _ _ _ E1).
  assert (Hc1 : connected w1) by (eapply same_core_connected; eassumption).
  assert (Hp1 : printable_config w1 = true)
    by (rewrite (printable_same_config w w1); [exact Hp|apply S1]).
  assert (Hok1 : syncbar_ok w1 = true) by (eapply same_core_syncbar; eassumption).
  unfold try_catch. fold path.
  pose proof (commitFile_connected w1 path base64Data (GH.SCREENSHOT_MSG filename) true Hc1 Hp1)
    as Hcommit.
  cbn [encoded_content] in Hcommit. cbv zeta in Hcommit.
  assert (Hr : read_request w1 path = read) by apply read_request_same_config, S1.
  assert (Hw : forall sha, write_request w1 path (GH.SCREENSHOT_MSG filename) base64Data sha
                = write_request w path (GH.SCREENSHOT_MSG filename) base64Data sha).
  { intros sha. apply write_request_same_config, S1. }
  rewrite Hr, Hw, (core_network _ _ S1), (core_requests _ _ S1) in Hcommit. fold write in Hcommit.
  set (w2 := set_requests (requests w ++ [read; write]) w1) in Hcommit.
  assert (Hok2 : syncbar_ok w2 = true) by exact Hok1.
  assert (Hc2 : connected w2) by exact Hc1.
  destruct (network w (requests w ++ [read]) write) as [res|e].
  - rewrite (bind_normal _ _ _ _ _ Hcommit).
    destruct (ok res).
    + destruct (hideSyncBar_run (lit "ok") (lit "Screenshot saved to GitHub") w2 Hok2)
        as (w3 & E3 & S3 & C3).
      rewrite (bind_normal _ _ _ _ _ E3).
      assert (Hc3 : connected w3) by (eapply same_core_connected; eassumption).
      assert (Hp3 : printable_config w3 = true)
        by (rewrite (printable_same_config w1 w3); [exact Hp1|apply S3]).
      destruct (printable_fields w3 Hp3) as (Ho3 & Hr3 & Hb3 & _).
      rewrite (bind_normal _ _ _ _ _ (interpolate_connected w3 _ Hc3 Ho3)).
      rewrite (bind_normal _ _ _ _ _ (interpolate_connected w3 _ Hc3 Hr3)).
      rewrite (bind_normal _ _ _ _ _ (interpolate_connected w3 _ Hc3 Hb3)).
      exists w3. split.
      * unfold ret, asset_url, field. rewrite (core_config _ _ S3).
        cbn [config w2 set_requests]. rewrite (core_config _ _ S1). reflexivity.
      * rewrite (core_requests _ _ S3). reflexivity.
    + destruct (hideSyncBar_run (lit "error") (lit "Image upload failed") w2 Hok2)
        as (w3 & E3 & S3 & C3).
      rewrite (bind_normal _ _ _ _ _ E3).
      exists w3. split; [reflexivity|]. rewrite (core_requests _ _ S3). reflexivity.
  - rewrite (bind_throw _ _ _ _ _ Hcommit).
    rewrite (bind_normal _ _ w2 tt
               (set_console (console w2 ++ [(lit "GH image upload error:", e)]) w2))
      by reflexivity.
    set (w2' := set_console _ w2).
    assert (Hok2' : syncbar_ok w2' = true) by exact Hok2.
    destruct (hideSyncBar_run (lit "error") (lit "Image upload failed") w2' Hok2')
      as (w3 & E3 & S3 & C3).
    rewrite (bind_normal _ _ _ _ _ E3).
    exists w3. split; [reflexivity|]. rewrite (core_requests _ _ S3). reflexivity.
Qed.

(** ** Config: [save], [load], [disconnect], [isConnected] *)

Lemma nonempty_true s : nonempty s = true <-> s <> [].
Proof. destruct s; simpl; split; congruence. Qed.

Lemma isConnected_config_object w owner repo branch token :
  config w = config_object owner repo branch token ->
  GH.isConnected w = (Normal (nonempty owner && nonempty repo && nonempty token), w).
Proof.
  intros Hcfg. unfold GH.isConnected, bind, gets, ret. rewrite Hcfg.
  destruct owner, repo, token; reflexivity.
Qed.

Lemma isConnected_null w : config w = JNull -> GH.isConnected w = (Normal false, w).
Proof. intros Hcfg. unfold GH.isConnected, bind, gets, ret. rewrite Hcfg. reflexivity. Qed.

Lemma save_run owner repo branch token w :
  exists w',
    GH.save owner repo branch token w = (Normal tt, w')
    /\ config w' = saved_object owner repo branch token
    /\ localStorage w' = <[GH.CONFIG_KEY := saved_text owner repo branch token]> (localStorage w)
    /\ requests w' = requests w /\ status_calls w' = status_calls w
    /\ console w' = console w /\ network w' = network w
    /\ dom (document w') = dom (document w) /\ timers w' = timers w.
Proof.
  unfold GH.save. fold (saved_object owner repo branch token).
  rewrite (bind_normal _ _ w tt (set_config (saved_object owner repo branch token) w))
    by reflexivity.
  rewrite (bind_normal _ _ _ (saved_object owner repo branch token) _) by reflexivity.
  unfold saved_object at 1. rewrite stringify_config. fold (saved_text owner repo branch token).
  set (w1 := set_config _ w).
  rewrite (bind_normal _ _ w1 tt
    (set_localStorage (<[GH.CONFIG_KEY := saved_text owner repo branch token]> (localStorage w1))
       w1)) by reflexivity.
  set (w2 := set_localStorage _ w1).
  destruct (updateStatusUI_quiet w2 (label_ok_config_object w2 _ _ _ _ eq_refl))
    as (w' & E & S & C & T).
  exists w'. split; [exact E|].
  rewrite (core_config _ _ S), (core_storage _ _ S), (core_requests _ _ S), C,
    (core_console _ _ S), (core_network _ _ S), (core_dom _ _ S), T.
  repeat split; reflexivity.
Qed.

Lemma disconnect_run w :
  exists w',
    GH.disconnect w = (Normal tt, w')
    /\ config w' = JNull
    /\ localStorage w' = delete GH.CONFIG_KEY (localStorage w)
    /\ requests w' = requests w /\ status_calls w' = status_calls w
    /\ console w' = console w /\ network w' = network w
    /\ dom (document w') = dom (document w) /\ timers w' = timers w.
Proof.
  unfold GH.disconnect.
  rewrite (bind_normal _ _ w tt (set_config JNull w)) by reflexivity.
  set (w1 := set_config _ w).
  rewrite (bind_normal _ _ w1 tt
    (set_localStorage (delete GH.CONFIG_KEY (localStorage w1)) w1)) by reflexivity.
  set (w2 := set_localStorage _ w1).
  destruct (updateStatusUI_quiet w2 (label_ok_null w2 eq_refl)) as (w' & E & S & C & T).
  exists w'. split; [exact E|].
  rewrite (core_config _ _ S), (core_storage _ _ S), (core_requests _ _ S), C,
    (core_console _ _ S), (core_network _ _ S), (core_dom _ _ S), T.
  repeat split; reflexivity.
Qed.

(** [load] once the stored text has given the value [v] ([null] when
    there is no text). *)
Lemma load_value w (c : M JSValue) v :
  c w = (Normal v, w) ->
  label_ok (set_config v w)
  \/ present w "gh-status-dot" && present w "gh-status-label" = false ->
  exists w',
    (let! x := c in
     modify (set_config x) ;;
     GH.updateStatusUI ;;
     let! c' := gets config in
     ret (truthy c'))%js w = (Normal (truthy v), w')
    /\ config w' = v
    /\ localStorage w' = localStorage w
    /\ requests w' = requests w /\ status_calls w' = status_calls w
    /\ console w' = console w /\ network w' = network w
    /\ dom (document w') = dom (document w) /\ timers w' = timers w.
Proof.
  intros Hc Hl. rewrite (bind_normal _ _ _ _ _ Hc).
  rewrite (bind_normal _ _ w tt (set_config v w)) by reflexivity.
  set (w1 := set_config v w).
  destruct (updateStatusUI_completes w1 Hl) as (w' & E & S & C & T).
  rewrite (bind_normal _ _ _ _ _ E).
  exists w'. unfold bind, gets, ret.
  rewrite (core_config _ _ S), (core_storage _ _ S), (core_requests _ _ S), C,
    (core_console _ _ S), (core_network _ _ S), (core_dom _ _ S), T.
  repeat split; reflexivity.
Qed.

(** [load] once the stored text has given a connected config whose label
    cannot be written, on a page with the indicator: the config is set,
    then the TypeError of the label reaches the caller. *)
Lemma load_value_throws w (c : M JSValue) v :
  c w = (Normal v, w) ->
  connected (set_config v w) ->
  present w "gh-status-dot" = true -> present w "gh-status-label" = true ->
  printable (field (set_config v w) "owner") && printable (field (set_config v w) "repo")
    = false ->
  exists w',
    (let! x := c in
     modify (set_config x) ;;
     GH.updateStatusUI ;;
     let! c' := gets config in
     ret (truthy c'))%js w = (Throw TypeError, w')
    /\ config w' = v
    /\ localStorage w' = localStorage w
    /\ requests w' = requests w /\ status_calls w' = status_calls w
    /\ console w' = console w /\ network w' = network w
    /\ dom (document w') = dom (document w) /\ timers w' = timers w.
Proof.
  intros Hc Hcon Hd Hl Hp. rewrite (bind_normal _ _ _ _ _ Hc).
  rewrite (bind_normal _ _ w tt (set_config v w)) by reflexivity.
  set (w1 := set_config v w) in *.
  destruct (updateStatusUI_throws w1 Hcon Hd Hl Hp) as (w' & E & S & C & T).
  rewrite (bind_throw _ _ _ _ _ E).
  exists w'.
  rewrite (core_config _ _ S), (core_storage _ _ S), (core_requests _ _ S), C,
    (core_console _ _ S), (core_network _ _ S), (core_dom _ _ S), T.
  repeat split; reflexivity.
Qed.

Lemma load_reads w text :
  localStorage w !! GH.CONFIG_KEY = Some text -> text <> [] ->
  GH.load w =
    (let! x := lift (JSON_parse text) in
     modify (set_config x) ;;
     GH.updateStatusUI ;;
     let! c' := gets config in
     ret (truthy c'))%js w.
Proof.
  intros Hl Hne. unfold GH.load.
  rewrite (bind_normal _ _ w (Some text) w)
    by (unfold localStorage_getItem, gets; rewrite Hl; reflexivity).
  destruct text as [|c t]; [congruence|]. reflexivity.
Qed.

Lemma load_stored w text v :
  localStorage w !! GH.CONFIG_KEY = Some text -> text <> [] ->
  JSON_parse text = Normal v ->
  label_ok (set_config v w)
  \/ present w "gh-status-dot" && present w "gh-status-label" = false ->
  exists w',
    GH.load w = (Normal (truthy v), w')
    /\ config w' = v
    /\ localStorage w' = localStorage w
    /\ requests w' = requests w /\ status_calls w' = status_calls w
    /\ console w' = console w /\ network w' = network w
    /\ dom (document w') = dom (document w) /\ timers w' = timers w.
Proof.
  intros Hl Hne Hp Hok. rewrite (load_reads w text Hl Hne).
  apply (load_value w (lift (JSON_parse text)) v); [|exact Hok].
  unfold lift. rewrite Hp. reflexivity.
Qed.

Lemma load_stored_throws w text v :
  localStorage w !! GH.CONFIG_KEY = Some text -> text <> [] ->
  JSON_parse text = Normal v ->
  connected (set_config v w) ->
  present w "gh-status-dot" = true -> present w "gh-status-label" = true ->
  printable (field (set_config v w) "owner") && printable (field (set_config v w) "repo")
    = false ->
  exists w',
    GH.load w = (Throw TypeError, w')
    /\ config w' = v
    /\ localStorage w' = localStorage w
    /\ requests w' = requests w /\ status_calls w' = status_calls w
    /\ console w' = console w /\ network w' = network w
    /\ dom (document w') = dom (document w) /\ timers w' = timers w.
Proof.
  intros Hl Hne Hp Hcon Hd Hlab Hunp. rewrite (load_reads w text Hl Hne).
  apply (load_value_throws w (lift (JSON_parse text)) v); try assumption.
  unfold lift. rewrite Hp. reflexivity.
Qed.

Lemma load_nothing w :
  localStorage w !! GH.CONFIG_KEY = None \/ localStorage w !! GH.CONFIG_KEY = Some [] ->
  exists w',
    GH.load w = (Normal false, w')
    /\ config w' = JNull
    /\ localStorage w' = localStorage w
    /\ requests w' = requests w /\ status_calls w' = status_calls w
    /\ console w' = console w /\ network w' = network w
    /\ dom (document w') = dom (document w) /\ timers w' = timers w.
Proof.
  intros Hl. unfold GH.load.
  destruct Hl as [Hl|Hl].
  - rewrite (bind_normal _ _ w None w)
      by (unfold localStorage_getItem, gets; rewrite Hl; reflexivity).
    apply (load_value w (ret JNull) JNull); [reflexivity|]. left. apply label_ok_null. reflexivity.
  - rewrite (bind_normal _ _ w (Some []) w)
      by (unfold localStorage_getItem, gets; rewrite Hl; reflexivity).
    apply (load_value w (ret JNull) JNull); [reflexivity|]. left. apply label_ok_null. reflexivity.
Qed.

Lemma load_malformed w text e :
  localStorage w !! GH.CONFIG_KEY = Some text -> text <> [] ->
  JSON_parse text = Throw e ->
  GH.load w = (Throw e, w).
Proof.
  intros Hl Hne Hp. unfold GH.load.
  rewrite (bind_normal _ _ w (Some text) w)
    by (unfold localStorage_getItem, gets; rewrite Hl; reflexivity).
  destruct text as [|c t]; [congruence|].
  apply (bind_throw (lift (JSON_parse (c :: t)))). unfold lift. rewrite Hp. reflexivity.
Qed.

(** C4. For every valid Unicode string [s] (well-formed UTF-16, multi-byte
    characters included) the transport encoding
    [btoa(unescape(encodeURIComponent(s)))] is defined, and
    [decodeURIComponent(escape(atob(x)))] of it is [s] again. *)
Theorem text_round_trip s :
  well_formed s ->
  exists x, GH.encode_text s = Normal x /\ GH.decode_text x = Normal s.
Proof.
  intros Hwf. destruct (encode_then_unescape s Hwf) as (e & He & Hu).
  exists (b64_encode (utf8_of s)). unfold GH.encode_text, GH.decode_text.
  rewrite He. cbn [cbind]. rewrite Hu, btoa_bytes by (apply utf8_of_bytes, Hwf).
  split; [reflexivity|].
  rewrite atob_b64_encode by (apply utf8_of_bytes, Hwf). cbn [cbind].
  unfold decodeURIComponent. apply Decode_escape_utf8; [assumption|lia].
Qed.

(** C2, amended. [load()] returns [false] and leaves no config when the
    stored entry is absent or empty. When the entry holds text that is
    not JSON, the SyntaxError of [JSON.parse] reaches the caller and
    nothing is changed. When it holds well-formed JSON, the parsed value
    becomes the config, and [load()] returns its truthiness once the
    status indicator is updated: always when the fields of the config
    convert to strings (as those of every config of strings do), when the
    config is not connected, and on a page without the indicator; but on
    a page with the indicator, a connected config whose owner or repo does
    not convert makes the TypeError of the label reach the caller. *)
Theorem load_outcome w :
  match localStorage w !! GH.CONFIG_KEY with
  | None | Some [] =>
      exists w', GH.load w = (Normal false, w') /\ config w' = JNull
  | Some text =>
      match JSON_parse text with
      | Normal v =>
          let w1 := set_config v w in
          exists r w',
            GH.load w = (r, w') /\ config w' = v
            /\ (r = Normal (truthy v) \/ r = Throw TypeError)
            /\ (printable_config w1 = true -> r = Normal (truthy v))
            /\ (~ connected w1 -> r = Normal (truthy v))
            /\ (present w "gh-status-dot" && present w "gh-status-label" = false ->
                r = Normal (truthy v))
            /\ (connected w1 ->
                present w "gh-status-dot" && present w "gh-status-label" = true ->
                printable (field w1 "owner") && printable (field w1 "repo") = false ->
                r = Throw TypeError)
      | Throw e => GH.load w = (Throw e, w)
      end
  end.
Proof.
  destruct (localStorage w !! GH.CONFIG_KEY) as [[|c t]|] eqn:Hl.
  - destruct (load_nothing w) as (w' & E & C & _); [auto|]. eauto.
  - destruct (JSON_parse (c :: t)) as [v|e] eqn:Hp.
    2: { apply (load_malformed w (c :: t) e Hl); [discriminate|exact Hp]. }
    intros w1.
    assert (Hgood : label_ok w1
                    \/ present w "gh-status-dot" && present w "gh-status-label" = false ->
      exists r w',
        GH.load w = (r, w') /\ config w' = v /\ r = Normal (truthy v)).
    { intros Hq.
      destruct (load_stored w (c :: t) v Hl) as (w' & E & C & _);
        [discriminate|exact Hp|exact Hq|]. eauto. }
    destruct (printable (field w1 "owner") && printable (field w1 "repo")) eqn:Hor.
    { destruct Hgood as (r & w' & E & C & ->).
      { left. intros _. apply andb_true_iff. exact Hor. }
      exists (Normal (truthy v)), w'. repeat split; auto. intros _ _. discriminate. }
    destruct (present w "gh-status-dot" && present w "gh-status-label") eqn:Hpage.
    2: { destruct Hgood as (r & w' & E & C & ->); [right; reflexivity|].
         exists (Normal (truthy v)), w'. repeat split; auto. intros _. discriminate. }
    destruct (isConnected_pure w1) as [[|] Hb].
    + assert (Hcon : connected w1) by (unfold connected; rewrite Hb; reflexivity).
      apply andb_true_iff in Hpage as [Hd Hlab].
      destruct (load_stored_throws w (c :: t) v Hl) as (w' & E & C & _);
        try assumption; try discriminate.
      exists (Throw TypeError), w'. split; [exact E|]. split; [exact C|].
      split; [right; reflexivity|]. split.
      { intros Hpc. destruct (printable_fields w1 Hpc) as (Ho & Hr & _).
        rewrite Ho, Hr in Hor. discriminate. }
      split; [intros Hn; contradiction|]. split; [discriminate|]. reflexivity.
    + assert (Hncon : ~ connected w1).
      { unfold connected. rewrite Hb. discriminate. }
      destruct Hgood as (r & w' & E & C & ->); [left; intros Hcon; contradiction|].
      exists (Normal (truthy v)), w'. repeat split; auto. intros Hcon. contradiction.
  - destruct (load_nothing w) as (w' & E & C & _); [auto|]. eauto.
Qed.

(** [load] in any world whose stored entry is the one [save] wrote. *)
Lemma load_saved owner repo branch token w :
  localStorage w !! GH.CONFIG_KEY = Some (saved_text owner repo branch token) ->
  exists w',
    GH.load w = (Normal true, w')
    /\ config w' = saved_object owner repo branch token.
Proof.
  intros Hl.
  destruct (load_stored w (saved_text owner repo branch token)
              (saved_object owner repo branch token)) as (w' & E & C & _).
  - exact Hl.
  - discriminate.
  - apply JSON_parse_config_text.
  - left. eapply label_ok_config_object. unfold saved_object. reflexivity.
  - exists w'. split; [exact E|exact C].
Qed.

Lemma load_after_save owner repo branch token w :
  exists w',
    GH.load (snd (GH.save owner repo branch token w)) = (Normal true, w')
    /\ config w' = saved_object owner repo branch token.
Proof.
  destruct (save_run owner repo branch token w) as (w1 & E1 & C1 & L1 & _).
  rewrite E1. cbn [snd]. apply load_saved. rewrite L1. apply lookup_insert_eq.
Qed.

Lemma load_after_disconnect w :
  exists w', GH.load (snd (GH.disconnect w)) = (Normal false, w') /\ config w' = JNull.
Proof.
  destruct (disconnect_run w) as (w1 & E1 & C1 & L1 & _).
  rewrite E1. cbn [snd].
  destruct (load_nothing w1) as (w' & E & C & _).
  - left. rewrite L1. apply lookup_delete_eq.
  - eauto.
Qed.

(** C5. For every config state stored by [save] (whatever the four
    arguments), [isConnected()] is [true] if and only if owner, repo and
    token are all non-empty after trimming, both right after [save] and
    after a later [load()] of the stored entry; after [disconnect] it is
    [false]. *)
Theorem isConnected_iff_trimmed_nonempty owner repo branch token w :
  let saved := snd (GH.save owner repo branch token w) in
  let loaded := snd (GH.load saved) in
  exists b,
    fst (GH.isConnected saved) = Normal b
    /\ fst (GH.isConnected loaded) = Normal b
    /\ (b = true <-> trim owner <> [] /\ trim repo <> [] /\ trim token <> [])
    /\ (b = false <-> trim owner = [] \/ trim repo = [] \/ trim token = [])
    /\ fst (GH.isConnected (snd (GH.disconnect w))) = Normal false.
Proof.
  intros saved loaded.
  exists (nonempty (trim owner) && nonempty (trim repo) && nonempty (trim token)).
  destruct (save_run owner repo branch token w) as (w1 & E1 & C1 & _).
  destruct (load_after_save owner repo branch token w) as (w2 & E2 & C2).
  destruct (disconnect_run w) as (w3 & E3 & C3 & _).
  subst saved loaded. rewrite E2, E3. rewrite E1. cbn [snd].
  rewrite (isConnected_config_object w1 _ _ _ _ C1).
  rewrite (isConnected_config_object w2 _ _ _ _ C2).
  rewrite (isConnected_null w3 C3).
  split; [reflexivity|]. split; [reflexivity|].
  split; [|split; [|reflexivity]].
  - rewrite !andb_true_iff, !nonempty_true. tauto.
  - destruct (trim owner), (trim repo), (trim token); cbn; split; intros Hx;
      try reflexivity; try discriminate; auto;
      destruct Hx as [Hx|[Hx|Hx]]; discriminate.
Qed.

(** C8. For every owner, repo, branch and token, [save] then [load] gives
    [true] and exactly the config of the four trimmed fields, the branch
    being [main] when it is empty after trimming; and [load] reproduces
    that config from storage: the same holds in any later state of the
    program whose storage is the one [save] left (so also after a reload
    of the page, with the config forgotten). Likewise [disconnect] then
    [load], at once or in a later state with the storage [disconnect]
    left, gives [false] and no config. *)
Theorem save_load_round_trip owner repo branch token w later :
  let saved := snd (GH.save owner repo branch token w) in
  let cleared := snd (GH.disconnect w) in
  let stored :=
    JObject [(lit "owner", JString (trim owner));
             (lit "repo", JString (trim repo));
             (lit "branch", JString (match trim branch with [] => lit "main" | b => b end));
             (lit "token", JString (trim token))] in
  (exists w', GH.load saved = (Normal true, w') /\ config w' = stored)
  /\ (exists w',
        GH.load (set_localStorage (localStorage saved) later) = (Normal true, w')
        /\ config w' = stored)
  /\ (exists w', GH.load cleared = (Normal false, w') /\ config w' = JNull)
  /\ (exists w',
        GH.load (set_localStorage (localStorage cleared) later) = (Normal false, w')
        /\ config w' = JNull).
Proof.
  intros saved cleared stored.
  assert (Hstored : saved_object owner repo branch token = stored).
  { unfold stored, saved_object, config_object, GH.or_default.
    destruct (trim branch); reflexivity. }
  destruct (save_run owner repo branch token w) as (w1 & E1 & _ & L1 & _).
  destruct (disconnect_run w) as (w2 & E2 & _ & L2 & _).
  subst saved cleared. rewrite E1, E2. cbn [snd].
  assert (Hsaved : forall x, localStorage x = localStorage w1 ->
            exists w', GH.load x = (Normal true, w') /\ config w' = stored).
  { intros x Hx. destruct (load_saved owner repo branch token x) as (w' & E & C).
    - rewrite Hx, L1. apply lookup_insert_eq.
    - exists w'. split; [exact E|]. rewrite C. exact Hstored. }
  assert (Hcleared : forall x, localStorage x = localStorage w2 ->
            exists w', GH.load x = (Normal false, w') /\ config w' = JNull).
  { intros x Hx. destruct (load_nothing x) as (w' & E & C & _).
    - left. rewrite Hx, L2. apply lookup_delete_eq.
    - eauto. }
  split; [apply Hsaved; reflexivity|]. split; [apply Hsaved; reflexivity|].
  split; [apply Hcleared; reflexivity|]. apply Hcleared; reflexivity.
Qed.

(** ** Beyond the claims: the text of [JSON.stringify] is well-formed *)

Lemma well_formed_app a b : well_formed a -> well_formed b -> well_formed (a ++ b).
Proof.
  intros Ha Hb.
  induction Ha as [|c rest Hh Hl Hc Hwf IH|c d rest Hh Hl Hwf IH] using well_formed_ind.
  - exact Hb.
  - cbn [app well_formed]. rewrite Hh. auto.
  - cbn [app well_formed]. rewrite Hh. auto.
Qed.

Lemma well_formed_ascii s : forallb (fun c => c <? 0x80) s = true -> well_formed s.
Proof.
  induction s as [|c s IH]; [constructor|].
  cbn [forallb]. intros Hs. apply andb_true_iff in Hs as [Hc Hs]. apply N.ltb_lt in Hc.
  cbn [well_formed]. unfold is_high_surrogate, is_low_surrogate, code_unit. settle.
  repeat split; [lia|auto].
Qed.

Lemma well_formed_unit c rest :
  is_high_surrogate c = false -> is_low_surrogate c = false -> code_unit c ->
  well_formed rest -> well_formed (c :: rest).
Proof. intros Hh Hl Hc Hr. cbn [well_formed]. rewrite Hh. auto. Qed.

Lemma hex_lower_ascii d : d < 16 -> hex_lower d < 0x80.
Proof. intros Hd. unfold hex_lower. destruct (d <? 10); lia. Qed.

Lemma well_formed_unicode_escape c : c < 65536 -> well_formed (unicode_escape c).
Proof.
  intros Hc. apply well_formed_ascii. unfold unicode_escape. cbn [forallb].
  rewrite !andb_true_iff. repeat split; try reflexivity;
    apply N.ltb_lt, hex_lower_ascii; lia.
Qed.

Lemma well_formed_quote_unit c :
  is_high_surrogate c = false -> is_low_surrogate c = false -> code_unit c ->
  well_formed (quote_unit c).
Proof.
  intros Hh Hl Hc. unfold quote_unit.
  repeat (match goal with |- context [if ?b then _ else _] => destruct b end;
          try (apply well_formed_ascii; reflexivity)).
  - apply well_formed_unicode_escape, Hc.
  - apply well_formed_unit; [assumption..|constructor].
Qed.

Lemma well_formed_quote_body s : valid_string s -> well_formed (quote_body s).
Proof.
  remember (length s) as n eqn:Hn. revert s Hn.
  induction n as [n IH] using (well_founded_induction lt_wf).
  intros [|c s'] Hn Hv; [constructor|].
  cbn [length] in Hn. inversion_clear Hv as [|? ? Hc Hv'].
  cbn [quote_body].
  destruct (is_high_surrogate c) eqn:Hh.
  - destruct s' as [|d s''].
    + apply well_formed_unicode_escape, Hc.
    + destruct (is_low_surrogate d) eqn:Hl.
      * cbn [well_formed]. rewrite Hh. split; [exact Hl|].
        inversion_clear Hv'. apply (IH (length s'')); [cbn [length] in Hn; lia|reflexivity|assumption].
      * apply well_formed_app; [apply well_formed_unicode_escape, Hc|].
        apply (IH (length (d :: s''))); [lia|reflexivity|assumption].
  - destruct (is_low_surrogate c) eqn:Hl.
    + apply well_formed_app; [apply well_formed_unicode_escape, Hc|].
      apply (IH (length s')); [lia|reflexivity|assumption].
    + apply well_formed_app; [apply well_formed_quote_unit; assumption|].
      apply (IH (length s')); [lia|reflexivity|assumption].
Qed.

Lemma well_formed_QuoteJSONString s : valid_string s -> well_formed (QuoteJSONString s).
Proof.
  intros Hv. unfold QuoteJSONString.
  apply (well_formed_app [0x22]); [apply well_formed_ascii; reflexivity|].
  apply well_formed_app; [apply well_formed_quote_body, Hv|].
  apply well_formed_ascii; reflexivity.
Qed.

Lemma well_formed_join sep parts :
  well_formed sep -> Forall well_formed parts -> well_formed (join sep parts).
Proof.
  intros Hsep Hparts. induction Hparts as [|p parts Hp Hps IH]; [constructor|].
  cbn [join]. destruct parts as [|q parts]; [exact Hp|].
  apply well_formed_app; [exact Hp|]. apply well_formed_app; [exact Hsep|exact IH].
Qed.

Lemma well_formed_wrap opening closing gap indent parts :
  well_formed opening -> well_formed closing -> well_formed gap -> well_formed indent ->
  Forall well_formed parts ->
  well_formed (wrap opening closing gap indent parts).
Proof.
  intros Ho Hc Hg Hi Hp. unfold wrap.
  destruct parts as [|p parts]; [apply well_formed_app; assumption|].
  assert (Hlf : well_formed [0x0A]) by (apply well_formed_ascii; reflexivity).
  assert (Hcomma : well_formed (lit ",")) by (apply well_formed_ascii; reflexivity).
  destruct gap as [|g gap].
  - repeat apply well_formed_app; try assumption. apply well_formed_join; assumption.
  - repeat apply well_formed_app; try assumption.
    apply well_formed_join; [|assumption].
    repeat apply well_formed_app; assumption.
Qed.

Lemma valid_array items : valid_value (JArray items) <-> Forall valid_value items.
Proof.
  induction items as [|x items IH]; cbn [valid_value].
  - split; constructor.
  - cbn [valid_value] in IH. rewrite IH. split.
    + intros [Hx Hr]. constructor; assumption.
    + intros Hf. inversion_clear Hf. auto.
Qed.

Lemma valid_object props :
  valid_value (JObject props)
  <-> Forall (fun p => valid_string (fst p) /\ valid_value (snd p)) props.
Proof.
  induction props as [|[k x] props IH]; cbn [valid_value].
  - split; constructor.
  - cbn [valid_value] in IH. rewrite IH. split.
    + intros (Hk & Hx & Hr). constructor; [split|]; assumption.
    + intros Hf. inversion_clear Hf as [|? ? [Hk Hx] Hr]. auto.
Qed.

Lemma Forall_insert_by_index {A} (Q : jsstring * A -> Prop) i p sorted :
  Q p -> Forall (fun e => Q (snd e)) sorted ->
  Forall (fun e => Q (snd e)) (insert_by_index i p sorted).
Proof.
  intros Hp Hs. induction Hs as [|[j q] sorted Hq Hs IH]; cbn [insert_by_index].
  - constructor; [exact Hp|constructor].
  - destruct (i <? j).
    + constructor; [exact Hp|]. constructor; assumption.
    + constructor; assumption.
Qed.

Lemma Forall_own_property_order {A} (Q : jsstring * A -> Prop) props :
  Forall Q props -> Forall Q (own_property_order props).
Proof.
  intros Hp. unfold own_property_order. apply Forall_app. split.
  - apply Forall_map.
    assert (Hgen : forall acc : list (N * (jsstring * A)),
      Forall (fun e => Q (snd e)) acc ->
      Forall (fun e => Q (snd e))
        (fold_left (fun acc p => match array_index (fst p) with
                                 | Some i => insert_by_index i p acc
                                 | None => acc
                                 end) props acc)).
    { induction Hp as [|p props Hq Hp IH]; intros acc Hacc; cbn [fold_left]; [exact Hacc|].
      apply IH. destruct (array_index (fst p)); [|exact Hacc].
      apply Forall_insert_by_index; assumption. }
    apply Hgen. constructor.
  - rewrite Forall_forall in *. intros p Hin. apply Hp.
    apply list_elem_of_In in Hin. apply filter_In in Hin as [Hin _].
    apply list_elem_of_In. exact Hin.
Qed.

Lemma well_formed_Number_ToString d :
  (forall d, well_formed (Number_toString d)) -> well_formed (Number_ToString d).
Proof.
  intros Hfmt. unfold Number_ToString.
  destruct (rounds_to_zero d); [apply well_formed_ascii; reflexivity|].
  destruct (rounds_to_infinity d); [|apply Hfmt].
  destruct (dec_neg d); apply well_formed_ascii; reflexivity.
Qed.

Lemma well_formed_members (gap : jsstring) (ser : list (jsstring * option jsstring)) :
  Forall (fun p => valid_string (fst p) /\ forall tx, snd p = Some tx -> well_formed tx) ser ->
  Forall well_formed
    (flat_map (fun p => match snd p with
                        | Some t =>
                            [QuoteJSONString (fst p) ++ lit ":"
                             ++ match gap with [] => [] | _ => [0x20] end ++ t]
                        | None => []
                        end) ser).
Proof.
  induction 1 as [|[k o] ser [Hk Ho] _ IHs]; [constructor|].
  change (flat_map ?f (?x :: ?l)) with (f x ++ flat_map f l).
  apply Forall_app. split; [|exact IHs].
  unfold fst, snd in *. destruct o as [tx|]; [|constructor].
  constructor; [|constructor].
  apply well_formed_app; [apply well_formed_QuoteJSONString, Hk|].
  apply well_formed_app; [apply well_formed_ascii; reflexivity|].
  apply well_formed_app; [|apply Ho; reflexivity].
  destruct gap; [constructor|apply well_formed_ascii; reflexivity].
Qed.

(** The text [JSON.stringify] gives for a value of 16-bit strings is
    well-formed UTF-16: unpaired surrogates are written as escapes. *)
Lemma well_formed_SerializeJSONProperty gap :
  (forall d, well_formed (Number_toString d)) -> well_formed gap ->
  forall v indent t,
    well_formed indent -> valid_value v ->
    SerializeJSONProperty gap indent v = Some t -> well_formed t.
Proof.
  intros Hfmt Hgap.
  induction v as [| |b|d|s|items IH|props IH] using JSValue_nested_ind;
    intros indent t Hind Hval Hser; cbn [SerializeJSONProperty] in Hser.
  - discriminate.
  - injection Hser as <-. apply well_formed_ascii; reflexivity.
  - destruct b; injection Hser as <-; apply well_formed_ascii; reflexivity.
  - injection Hser as <-. destruct (rounds_to_infinity d).
    + apply well_formed_ascii; reflexivity.
    + apply well_formed_Number_ToString, Hfmt.
  - injection Hser as <-. apply well_formed_QuoteJSONString, Hval.
  - injection Hser as <-.
    apply well_formed_wrap; try assumption; try (apply well_formed_ascii; reflexivity).
    apply valid_array in Hval. apply Forall_map.
    induction IH as [|x items Hx _ IHl]; [constructor|].
    inversion_clear Hval as [|? ? Hvx Hvr]. constructor; [|apply IHl, Hvr].
    destruct (SerializeJSONProperty gap (indent ++ gap) x) as [tx|] eqn:Ex.
    + apply (Hx (indent ++ gap) tx); [apply well_formed_app; assumption|exact Hvx|exact Ex].
    + apply well_formed_ascii; reflexivity.
  - injection Hser as <-.
    apply well_formed_wrap; try assumption; try (apply well_formed_ascii; reflexivity).
    apply valid_object in Hval.
    match goal with
    | |- Forall _ (flat_map ?f (own_property_order ?ser)) =>
        assert (Hser : Forall (fun p => valid_string (fst p)
                                        /\ forall tx, snd p = Some tx -> well_formed tx) ser)
    end.
    { induction IH as [|[k x] props Hx _ IHl]; [constructor|].
      inversion_clear Hval as [|? ? [Hvk Hvx] Hvr]. constructor; [|apply IHl, Hvr].
      unfold fst, snd in *. split; [exact Hvk|]. intros tx Ex.
      apply (Hx (indent ++ gap) tx); [apply well_formed_app; assumption|exact Hvx|exact Ex]. }
    apply Forall_own_property_order in Hser.
    apply well_formed_members, Hser.
Qed.

Lemma well_formed_spaces n : well_formed (repeat 0x20 n).
Proof. induction n as [|n IH]; [constructor|]. cbn [repeat]. apply well_formed_unit; auto. unfold code_unit. lia. Qed.

Lemma well_formed_sync_payload players fixtures results now :
  (forall d, well_formed (Number_toString d)) ->
  valid_value players -> valid_value fixtures -> valid_value results ->
  valid_string (toISOString now) ->
  well_formed (sync_payload players fixtures results now).
Proof.
  intros Hfmt Hp Hf Hr Hn. unfold sync_payload, JSON_stringify_spaced.
  destruct (SerializeJSONProperty _ _ _) as [t|] eqn:E;
    [|apply well_formed_ascii; reflexivity].
  apply (well_formed_SerializeJSONProperty _ Hfmt (well_formed_spaces _) _ [] t) in E;
    [exact E|constructor|].
  apply valid_object. repeat constructor; cbn [fst snd]; try assumption;
    repeat constructor; unfold code_unit; lia.
Qed.

(** ** The runtime: [JSON.parse] never runs out of fuel *)

Lemma skip_ws_length s : (length (skip_ws s) <= length s)%nat.
Proof.
  induction s as [|c s IH]; [reflexivity|].
  cbn [skip_ws]. destruct (is_json_whitespace c); cbn [length]; lia.
Qed.

Lemma skip_ws_cons s c r : skip_ws s = c :: r -> (length r < length s)%nat.
Proof.
  intros Hs. pose proof (skip_ws_length s) as Hl. rewrite Hs in Hl. cbn [length] in Hl. lia.
Qed.

Lemma parse_string_body_length s str r :
  parse_string_body s = Some (str, r) -> (length r < length s)%nat.
Proof.
  remember (length s) as n eqn:Hn. revert s str r Hn.
  induction n as [n IH] using (well_founded_induction lt_wf).
  intros [|c rest] str r Hn; [discriminate|].
  cbn [length] in Hn. cbn [parse_string_body].
  destruct (c =? 34); [intros [= _ <-]; cbn [length] in *; lia|].
  destruct (c <? 32); [discriminate|].
  destruct (c =? 92).
  - destruct rest as [|e rest1]; [discriminate|].
    destruct (e =? ch "u").
    + destruct rest1 as [|h1 [|h2 [|h3 [|h4 rest2]]]]; try discriminate.
      destruct (hex4 h1 h2 h3 h4); [|discriminate].
      unfold prepend. destruct (parse_string_body rest2) as [[s' r']|] eqn:E; [|discriminate].
      intros [= _ <-]. apply (IH (length rest2)) in E; [|cbn [length] in Hn; lia|reflexivity].
      cbn [length] in *. lia.
    + destruct (simple_escape e); [|discriminate].
      unfold prepend. destruct (parse_string_body rest1) as [[s' r']|] eqn:E; [|discriminate].
      intros [= _ <-]. apply (IH (length rest1)) in E; [|cbn [length] in Hn; lia|reflexivity].
      cbn [length] in *. lia.
  - unfold prepend. destruct (parse_string_body rest) as [[s' r']|] eqn:E; [|discriminate].
    intros [= _ <-]. apply (IH (length rest)) in E; [|lia|reflexivity].
    cbn [length] in *. lia.
Qed.

Lemma take_digits_length s : (length (snd (take_digits s)) <= length s)%nat.
Proof.
  induction s as [|c s IH]; [reflexivity|].
  cbn [take_digits]. destruct (is_digit c); [|reflexivity].
  destruct (take_digits s) as [ds r]. cbn [snd length] in *. lia.
Qed.

Lemma parse_fraction_length s fs r :
  parse_fraction s = Some (fs, r) -> (length r <= length s)%nat.
Proof.
  unfold parse_fraction. destruct s as [|c rest]; [intros [= _ <-]; reflexivity|].
  destruct (c =? ch ".").
  - pose proof (take_digits_length rest) as Hl.
    destruct (take_digits rest) as [[|d ds] r']; [discriminate|].
    intros [= _ <-]. cbn [snd length] in *. lia.
  - intros [= _ <-]. reflexivity.
Qed.

Lemma parse_exponent_length s e r :
  parse_exponent s = Some (e, r) -> (length r <= length s)%nat.
Proof.
  unfold parse_exponent. destruct s as [|c rest]; [intros [= _ <-]; reflexivity|].
  destruct ((c =? ch "e") || (c =? ch "E")); [|intros [= _ <-]; reflexivity].
  assert (Hsign : forall neg rest1,
    (match rest with
     | sg :: r0 => if sg =? ch "-" then (true, r0)
                   else if sg =? ch "+" then (false, r0) else (false, rest)
     | [] => (false, rest)
     end) = (neg, rest1) -> (length rest1 <= length rest)%nat).
  { intros neg rest1. destruct rest as [|sg r0]; [intros [= _ <-]; reflexivity|].
    destruct (sg =? ch "-"); [intros [= _ <-]; cbn [length]; lia|].
    destruct (sg =? ch "+"); intros [= _ <-]; cbn [length]; lia. }
  destruct (match rest with
            | sg :: r0 => if sg =? ch "-" then (true, r0)
                          else if sg =? ch "+" then (false, r0) else (false, rest)
            | [] => (false, rest)
            end) as [neg rest1] eqn:Es.
  specialize (Hsign neg rest1 eq_refl).
  pose proof (take_digits_length rest1) as Hl.
  destruct (take_digits rest1) as [[|d ds] r']; [discriminate|].
  intros [= _ <-]. cbn [snd length] in *. lia.
Qed.

Lemma parse_number_length s d r :
  parse_number s = Some (d, r) -> (length r < length s)%nat.
Proof.
  unfold parse_number.
  assert (Hsign : forall neg s1,
    (match s with
     | c :: r0 => if c =? ch "-" then (true, r0) else (false, s)
     | [] => (false, s)
     end) = (neg, s1) -> (length s1 <= length s)%nat).
  { intros neg s1. destruct s as [|c r0]; [intros [= _ <-]; reflexivity|].
    destruct (c =? ch "-"); intros [= _ <-]; cbn [length]; lia. }
  destruct (match s with
            | c :: r0 => if c =? ch "-" then (true, r0) else (false, s)
            | [] => (false, s)
            end) as [neg s1] eqn:Es.
  specialize (Hsign neg s1 eq_refl).
  destruct s1 as [|c r1]; [discriminate|].
  destruct (is_digit c) eqn:Hc; [|discriminate].
  assert (Hint : forall ints s2,
    (if c =? 48 then ([0], r1) else take_digits (c :: r1)) = (ints, s2) ->
    (length s2 <= length r1)%nat).
  { intros ints s2. destruct (c =? 48); [intros [= _ <-]; reflexivity|].
    cbn [take_digits]. rewrite Hc. pose proof (take_digits_length r1) as Hl.
    destruct (take_digits r1) as [ds r']. intros [= _ <-]. exact Hl. }
  destruct (if c =? 48 then ([0], r1) else take_digits (c :: r1)) as [ints s2] eqn:Ei.
  specialize (Hint ints s2 eq_refl).
  destruct (parse_fraction s2) as [[fracs s3]|] eqn:Ef; [|discriminate].
  apply parse_fraction_length in Ef.
  destruct (parse_exponent s3) as [[e s4]|] eqn:Ee; [|discriminate].
  apply parse_exponent_length in Ee.
  intros [= _ <-]. cbn [length] in Hsign. lia.
Qed.

Lemma strip_prefix_length p s r :
  strip_prefix p s = Some r -> (length r + length p = length s)%nat.
Proof.
  revert s. induction p as [|a p IH]; intros s; cbn [strip_prefix].
  - intros [= <-]. cbn [length]. lia.
  - destruct s as [|b s']; [discriminate|]. destruct (a =? b); [|discriminate].
    intros Hr. apply IH in Hr. cbn [length]. lia.
Qed.

Lemma parse_literal_length word v s :
  word <> EmptyString ->
  match parse_literal word v s with
  | POk _ r => (length r < length s)%nat
  | PSyntaxError => True
  | POutOfFuel => False
  end.
Proof.
  intros Hw. unfold parse_literal.
  destruct (strip_prefix (lit word) s) as [r|] eqn:E; [|exact I].
  apply strip_prefix_length in E.
  destruct word as [|a word']; [congruence|].
  unfold lit in E. cbn [list_ascii_of_string map length] in E. lia.
Qed.

(** With fuel for two nested calls a code unit (and one more), no parser
    runs out of fuel, and a parsed value has consumed input. *)
Lemma parse_fuel_enough fuel :
  (forall s, (2 * length s + 1 <= fuel)%nat ->
     match parse_value fuel s with
     | POk _ r => (length r < length s)%nat
     | PSyntaxError => True
     | POutOfFuel => False
     end) /\
  (forall s acc, (2 * length s + 2 <= fuel)%nat ->
     match parse_elements fuel s acc with
     | POk _ r => (length r < length s)%nat
     | PSyntaxError => True
     | POutOfFuel => False
     end) /\
  (forall s acc, (2 * length s + 2 <= fuel)%nat ->
     match parse_members fuel s acc with
     | POk _ r => (length r < length s)%nat
     | PSyntaxError => True
     | POutOfFuel => False
     end).
Proof.
  induction fuel as [|fuel (IHv & IHe & IHm)].
  { repeat split; intros; lia. }
  repeat split.
  - intros s Hf. cbn [parse_value].
    pose proof (skip_ws_length s) as Hs.
    destruct (skip_ws s) as [|c rest] eqn:Es; [exact I|].
    cbn [length] in Hs.
    destruct (c =? ch "{").
    { pose proof (skip_ws_length rest) as Hr.
      destruct (skip_ws rest) as [|d rest'] eqn:Er; [exact I|].
      destruct (d =? ch "}"); [cbn [length] in Hr; lia|].
      specialize (IHm (d :: rest') []).
      destruct (parse_members fuel (d :: rest') []); try exact I.
      - specialize (IHm ltac:(lia)). lia.
      - apply IHm. lia. }
    destruct (c =? ch "[").
    { pose proof (skip_ws_length rest) as Hr.
      destruct (skip_ws rest) as [|d rest'] eqn:Er; [exact I|].
      destruct (d =? ch "]"); [cbn [length] in Hr; lia|].
      specialize (IHe rest []).
      destruct (parse_elements fuel rest []); try exact I.
      - specialize (IHe ltac:(lia)). lia.
      - apply IHe. lia. }
    destruct (c =? 34).
    { destruct (parse_string_body rest) as [[str rest']|] eqn:Eb; [|exact I].
      apply parse_string_body_length in Eb. lia. }
    destruct ((c =? ch "-") || is_digit c).
    { destruct (parse_number (c :: rest)) as [[d rest']|] eqn:En; [|exact I].
      apply parse_number_length in En. cbn [length] in En. lia. }
    destruct (c =? ch "t").
    { pose proof (parse_literal_length "true" (JBool true) (c :: rest) ltac:(discriminate)) as Hl.
      destruct (parse_literal "true" (JBool true) (c :: rest)); try exact Hl.
      cbn [length] in Hl. lia. }
    destruct (c =? ch "f").
    { pose proof (parse_literal_length "false" (JBool false) (c :: rest) ltac:(discriminate)) as Hl.
      destruct (parse_literal "false" (JBool false) (c :: rest)); try exact Hl.
      cbn [length] in Hl. lia. }
    destruct (c =? ch "n").
    { pose proof (parse_literal_length "null" JNull (c :: rest) ltac:(discriminate)) as Hl.
      destruct (parse_literal "null" JNull (c :: rest)); try exact Hl.
      cbn [length] in Hl. lia. }
    exact I.
  - intros s acc Hf. cbn [parse_elements].
    specialize (IHv s ltac:(lia)).
    destruct (parse_value fuel s) as [v rest| |]; [|exact I|exact IHv].
    pose proof (skip_ws_length rest) as Hr.
    destruct (skip_ws rest) as [|c rest'] eqn:Er; [exact I|].
    cbn [length] in Hr.
    destruct (c =? ch ",").
    { specialize (IHe rest' (acc ++ [v]) ltac:(lia)).
      destruct (parse_elements fuel rest' (acc ++ [v])); try exact IHe. lia. }
    destruct (c =? ch "]"); [lia|exact I].
  - intros s acc Hf. cbn [parse_members].
    destruct s as [|q s1]; [exact I|]. cbn [length] in Hf |- *.
    destruct (q =? 34); [|exact I].
    destruct (parse_string_body s1) as [[key s2]|] eqn:Eb; [|exact I].
    apply parse_string_body_length in Eb.
    pose proof (skip_ws_length s2) as H2.
    destruct (skip_ws s2) as [|colon s3] eqn:E2; [exact I|].
    cbn [length] in H2.
    destruct (colon =? ch ":"); [|exact I].
    specialize (IHv s3 ltac:(lia)).
    destruct (parse_value fuel s3) as [v rest| |]; [|exact I|exact IHv].
    pose proof (skip_ws_length rest) as Hr.
    destruct (skip_ws rest) as [|c rest'] eqn:Er; [exact I|].
    cbn [length] in Hr.
    destruct (c =? ch ",").
    { pose proof (skip_ws_length rest') as Hr'.
      specialize (IHm (skip_ws rest') (set_property acc key v) ltac:(lia)).
      destruct (parse_members fuel (skip_ws rest') (set_property acc key v)); try exact IHm. lia. }
    destruct (c =? ch "}"); [lia|exact I].
Qed.

(** [JSON.parse] never decides by lack of fuel. *)
Lemma JSON_parse_fuel text : parse_value (parse_fuel text) text <> POutOfFuel.
Proof.
  destruct (parse_fuel_enough (parse_fuel text)) as (Hv & _).
  specialize (Hv text). unfold parse_fuel in *.
  intros E. rewrite E in Hv. apply Hv. lia.
Qed.

(** ** The runtime: [decodeURIComponent] never runs out of fuel *)

Lemma take_percent_octet_length s b rest :
  take_percent_octet s = Some (b, rest) -> (length rest < length s)%nat.
Proof.
  unfold take_percent_octet. destruct s as [|p [|a [|c r]]]; try discriminate.
  destruct (p =? ch "%"); [|discriminate].
  destruct (hex2 a c); [|discriminate].
  intros [= _ <-]. cbn [length]. lia.
Qed.

Lemma take_continuations_length n s bs rest :
  take_continuations n s = Some (bs, rest) -> (length rest <= length s)%nat.
Proof.
  revert s bs rest. induction n as [|n IH]; intros s bs rest; cbn [take_continuations].
  - intros [= _ <-]. reflexivity.
  - destruct (take_percent_octet s) as [[b r1]|] eqn:E; [|discriminate].
    apply take_percent_octet_length in E.
    destruct (take_continuations n r1) as [[bs' r2]|] eqn:E2; [|discriminate].
    apply IH in E2. intros [= _ <-]. lia.
Qed.

(** Fuel beyond the length of the text changes nothing: the loop decides
    every text by its contents. *)
Lemma Decode_loop_fuel s : forall fuel1 fuel2,
  (length s <= fuel1)%nat -> (length s <= fuel2)%nat ->
  Decode_loop fuel1 s = Decode_loop fuel2 s.
Proof.
  remember (length s) as n eqn:Hn. revert s Hn.
  induction n as [n IH] using (well_founded_induction lt_wf).
  intros s Hn fuel1 fuel2 H1 H2. subst n.
  destruct s as [|c rest]; [destruct fuel1, fuel2; reflexivity|].
  cbn [length] in *.
  destruct fuel1 as [|f1]; [lia|]. destruct fuel2 as [|f2]; [lia|].
  cbn [Decode_loop].
  destruct (negb (c =? ch "%")).
  { rewrite (IH (length rest) ltac:(lia) rest eq_refl f1 f2) by lia. reflexivity. }
  destruct (take_percent_octet (c :: rest)) as [[b rest1]|] eqn:E; [|reflexivity].
  apply take_percent_octet_length in E. cbn [length] in E.
  destruct (leading_ones b =? 0).
  { rewrite (IH (length rest1) ltac:(lia) rest1 eq_refl f1 f2) by lia. reflexivity. }
  destruct ((leading_ones b =? 1) || (4 <? leading_ones b)); [reflexivity|].
  destruct (take_continuations (N.to_nat (leading_ones b - 1)) rest1) as [[bs rest2]|] eqn:E2;
    [|reflexivity].
  apply take_continuations_length in E2.
  destruct (utf8_code_point (b :: bs)); [|reflexivity].
  rewrite (IH (length rest2) ltac:(lia) rest2 eq_refl f1 f2) by lia. reflexivity.
Qed.

(** ** Beyond the claims: [loadRemoteData] *)

(** Decoding undoes encoding, for well-formed text. *)
Lemma decode_encoded_text s x :
  well_formed s -> GH.encode_text s = Normal x -> GH.decode_text x = Normal s.
Proof.
  intros Hwf. destruct (encode_then_unescape s Hwf) as (e & He & Hu).
  unfold GH.encode_text, GH.decode_text.
  rewrite He. cbn [cbind]. rewrite Hu, btoa_bytes by (apply utf8_of_bytes, Hwf).
  intros [= <-].
  rewrite atob_b64_encode by (apply utf8_of_bytes, Hwf). cbn [cbind].
  unfold decodeURIComponent. apply Decode_escape_utf8; [assumption|lia].
Qed.

Lemma encode_text_defined s :
  well_formed s -> GH.encode_text s = Normal (b64_encode (utf8_of s)).
Proof.
  intros Hwf. destruct (encode_then_unescape s Hwf) as (e & He & Hu).
  unfold GH.encode_text. rewrite He. cbn [cbind].
  rewrite Hu, btoa_bytes by (apply utf8_of_bytes, Hwf). reflexivity.
Qed.

Lemma json_run res w : json res w = (json_of res, w).
Proof. unfold json, json_of. destruct (body res); reflexivity. Qed.

Lemma syncbar_ok_requests r w : syncbar_ok (set_requests r w) = syncbar_ok w.
Proof. reflexivity. Qed.

(** [loadRemoteData] from the answer of the store: the value returned, the
    end reported, whether an error was logged. *)
Lemma loadRemoteData_run w :
  connected w -> printable_config w = true -> syncbar_ok w = true ->
  exists w',
    requests w' = requests w ++ [snapshot_request w]
    /\ match network w (requests w) (snapshot_request w) with
       | Rejects e =>
           GH.loadRemoteData w = (Normal JNull, w')
           /\ status_calls w' = status_calls w
                ++ [SyncStart LOADING; SyncEnd (lit "error") (lit "Could not load remote data")]
           /\ console w' = console w ++ [(lit "GH load error:", e)]
       | Responds res =>
           if ok res then
             match decode_snapshot res with
             | Normal data =>
                 GH.loadRemoteData w = (Normal data, w')
                 /\ status_calls w' = status_calls w
                      ++ [SyncStart LOADING; SyncEnd (lit "ok") (lit "Data loaded from GitHub")]
                 /\ console w' = console w
             | Throw e =>
                 GH.loadRemoteData w = (Normal JNull, w')
                 /\ status_calls w' = status_calls w
                      ++ [SyncStart LOADING;
                          SyncEnd (lit "error") (lit "Could not load remote data")]
                 /\ console w' = console w ++ [(lit "GH load error:", e)]
             end
           else
             GH.loadRemoteData w = (Normal JNull, w')
             /\ status_calls w' = status_calls w
                  ++ [SyncStart LOADING; SyncEnd (lit "ok") GH.NO_REMOTE_DATA]
             /\ console w' = console w
       end.
Proof.
  intros Hc Hp Hok. unfold GH.loadRemoteData.
  rewrite (bind_normal _ _ _ _ _ (connected_run w Hc)). cbn [negb].
  destruct (showSyncBar_run LOADING w Hok) as (w1 & E1 & S1 & C1).
  fold LOADING. rewrite (bind_normal _ _ _ _ _ E1).
  assert (Hc1 : connected w1) by (eapply same_core_connected; eassumption).
  assert (Hp1 : printable_config w1 = true)
    by (rewrite (printable_same_config w w1); [exact Hp|apply S1]).
  assert (Hok1 : syncbar_ok w1 = true) by (eapply same_core_syncbar; eassumption).
  unfold try_catch.
  rewrite (bind_normal _ _ _ _ _ (apiBase_connected w1 Hc1 Hp1)).
  rewrite (bind_normal _ _ _ _ _
             (interpolate_connected w1 "branch" Hc1
                (proj1 (proj2 (proj2 (printable_fields w1 Hp1)))))).
  rewrite (bind_normal _ _ _ _ _ (headers_connected w1 Hc1 Hp1)).
  assert (Hreq : snapshot_request w1 = snapshot_request w)
    by apply read_request_same_config, S1.
  set (w2 := set_requests (requests w1 ++ [snapshot_request w1]) w1).
  assert (Hok2 : syncbar_ok w2 = true) by exact Hok1.
  assert (R2 : requests w2 = requests w ++ [snapshot_request w]).
  { unfold w2. cbn [requests set_requests]. rewrite Hreq, (core_requests _ _ S1). reflexivity. }
  assert (C2 : console w2 = console w) by apply S1.
  assert (T2 : status_calls w2 = status_calls w ++ [SyncStart LOADING]) by exact C1.
  (* the error path, from any world after the request *)
  assert (Hcatch : forall e, exists w',
    (console_error (lit "GH load error:") e ;;
     GH.hideSyncBar (lit "error") (lit "Could not load remote data") ;;
     ret JNull)%js w2 = (Normal JNull, w')
    /\ requests w' = requests w ++ [snapshot_request w]
    /\ status_calls w' = status_calls w
         ++ [SyncStart LOADING; SyncEnd (lit "error") (lit "Could not load remote data")]
    /\ console w' = console w ++ [(lit "GH load error:", e)]).
  { intros e.
    rewrite (bind_normal _ _ w2 tt
               (set_console (console w2 ++ [(lit "GH load error:", e)]) w2)) by reflexivity.
    set (w3 := set_console _ w2).
    destruct (hideSyncBar_run (lit "error") (lit "Could not load remote data") w3 Hok2)
      as (w4 & E4 & S4 & C4).
    rewrite (bind_normal _ _ _ _ _ E4). exists w4. split; [reflexivity|].
    rewrite (core_requests _ _ S4), C4, (core_console _ _ S4).
    cbn [requests status_calls console w3 set_console].
    rewrite R2, C2, T2, <- app_assoc. repeat split; reflexivity. }
  destruct (network w (requests w) (snapshot_request w)) as [res|e] eqn:Hnet.
  - assert (Hf : fetch (snapshot_request w1) w1 = (Normal res, w2)).
    { unfold fetch. rewrite Hreq, (core_network _ _ S1), (core_requests _ _ S1), Hnet.
      unfold w2. rewrite Hreq, (core_requests _ _ S1). reflexivity. }
    rewrite (bind_normal _ _ _ _ _ Hf).
    destruct (ok res); cbn [negb].
    + unfold decode_snapshot.
      destruct (json_of res) as [file|e] eqn:Hj; cbn [cbind].
      2: { destruct (Hcatch e) as (w' & E & R & T & C). exists w'. split; [exact R|].
           rewrite (bind_throw _ _ w2 e w2) by (rewrite json_run, Hj; reflexivity).
           rewrite E. auto. }
      rewrite (bind_normal _ _ w2 file w2) by (rewrite json_run, Hj; reflexivity).
      destruct (GH.content_without_newlines file) as [text|e]; cbn [cbind].
      2: { destruct (Hcatch e) as (w' & E & R & T & C). exists w'. split; [exact R|].
           rewrite (bind_throw _ _ w2 e w2) by reflexivity. rewrite E. auto. }
      rewrite (bind_normal _ _ w2 text w2) by reflexivity.
      destruct (GH.decode_text text) as [decoded|e]; cbn [cbind].
      2: { destruct (Hcatch e) as (w' & E & R & T & C). exists w'. split; [exact R|].
           rewrite (bind_throw _ _ w2 e w2) by reflexivity. rewrite E. auto. }
      rewrite (bind_normal _ _ w2 decoded w2) by reflexivity.
      destruct (JSON_parse decoded) as [data|e].
      2: { destruct (Hcatch e) as (w' & E & R & T & C). exists w'. split; [exact R|].
           rewrite (bind_throw _ _ w2 e w2) by reflexivity. rewrite E. auto. }
      rewrite (bind_normal _ _ w2 data w2) by reflexivity.
      destruct (hideSyncBar_run (lit "ok") (lit "Data loaded from GitHub") w2 Hok2)
        as (w3 & E3 & S3 & C3).
      rewrite (bind_normal _ _ _ _ _ E3). exists w3.
      rewrite (core_requests _ _ S3), C3, (core_console _ _ S3), R2, C2, T2, <- app_assoc.
      repeat split; reflexivity.
    + destruct (hideSyncBar_run (lit "ok") GH.NO_REMOTE_DATA w2 Hok2) as (w3 & E3 & S3 & C3).
      rewrite (bind_normal _ _ _ _ _ E3). exists w3.
      rewrite (core_requests _ _ S3), C3, (core_console _ _ S3), R2, C2, T2, <- app_assoc.
      repeat split; reflexivity.
  - assert (Hf : fetch (snapshot_request w1) w1 = (Throw e, w2)).
    { unfold fetch. rewrite Hreq, (core_network _ _ S1), (core_requests _ _ S1), Hnet.
      unfold w2. rewrite Hreq, (core_requests _ _ S1). reflexivity. }
    rewrite (bind_throw _ _ _ _ _ Hf).
    destruct (Hcatch e) as (w' & E & R & T & C). exists w'. split; [exact R|].
    rewrite E. auto.
Qed.

(** X1. On a connected config whose fields convert to strings and a
    whole status bar, [loadRemoteData] always completes normally (whatever the store does), after exactly one
    request, the snapshot read; when that request is rejected in transport
    it returns [null], logs the error and reports [error] with
    [Could not load remote data]. *)
Theorem loadRemoteData_never_throws w :
  connected w -> printable_config w = true -> syncbar_ok w = true ->
  exists v w',
    GH.loadRemoteData w = (Normal v, w')
    /\ requests w' = requests w ++ [snapshot_request w]
    /\ (forall e, network w (requests w) (snapshot_request w) = Rejects e ->
          v = JNull
          /\ console w' = console w ++ [(lit "GH load error:", e)]
          /\ status_calls w' = status_calls w
               ++ [SyncStart LOADING;
                   SyncEnd (lit "error") (lit "Could not load remote data")]).
Proof.
  intros Hc Hp Hok. destruct (loadRemoteData_run w Hc Hp Hok) as (w' & R & Hrun).
  destruct (network w (requests w) (snapshot_request w)) as [res|e].
  - destruct (ok res).
    + destruct (decode_snapshot res) as [data|e]; destruct Hrun as (E & _);
        eexists _, w'; (split; [exact E|]); (split; [exact R|]); discriminate.
    + destruct Hrun as (E & _). eexists _, w'. split; [exact E|]. split; [exact R|].
      discriminate.
  - destruct Hrun as (E & T & C). exists JNull, w'. split; [exact E|]. split; [exact R|].
    intros e' [= <-]. auto.
Qed.

(** X2. On a connected config whose fields convert to strings,
    [loadRemoteData] treats every answer that is not a 2xx like "not
    found": an invalid token (401), a forbidden repository (403) or a
    server error (500) also gives [null], reported as success with the
    "no remote data yet" message and without logging an error. *)
Theorem loadRemoteData_refusal_is_success w res :
  connected w -> printable_config w = true -> syncbar_ok w = true ->
  network w (requests w) (snapshot_request w) = Responds res ->
  ok res = false ->
  exists w',
    GH.loadRemoteData w = (Normal JNull, w')
    /\ status_calls w' = status_calls w
         ++ [SyncStart LOADING; SyncEnd (lit "ok") GH.NO_REMOTE_DATA]
    /\ console w' = console w.
Proof.
  intros Hc Hp Hok Hnet Hnok. destruct (loadRemoteData_run w Hc Hp Hok) as (w' & R & Hrun).
  rewrite Hnet, Hnok in Hrun. exists w'. exact Hrun.
Qed.

(** X3. Reading back what [commitFile] writes, on a connected config
    whose fields convert to strings: when the store answers the snapshot
    read with a 2xx and a JSON object whose [content] is the
    transport encoding of a well-formed JSON text, broken by line feeds
    anywhere, [loadRemoteData] returns the value of that text and reports
    [ok] with [Data loaded from GitHub]. *)
Theorem loadRemoteData_reads_back w res file c text data :
  connected w -> printable_config w = true -> syncbar_ok w = true ->
  network w (requests w) (snapshot_request w) = Responds res ->
  ok res = true ->
  json_of res = Normal file ->
  GetV file (lit "content") = Normal (JString c) ->
  well_formed text ->
  GH.encode_text text = Normal (List.filter (fun u => negb (u =? 0x0A)) c) ->
  JSON_parse text = Normal data ->
  exists w',
    GH.loadRemoteData w = (Normal data, w')
    /\ status_calls w' = status_calls w
         ++ [SyncStart LOADING; SyncEnd (lit "ok") (lit "Data loaded from GitHub")]
    /\ console w' = console w.
Proof.
  intros Hc Hp Hok Hnet Hres Hfile Hcontent Hwf Henc Hdata.
  destruct (loadRemoteData_run w Hc Hp Hok) as (w' & R & Hrun).
  rewrite Hnet, Hres in Hrun.
  assert (Hd : decode_snapshot res = Normal data).
  { unfold decode_snapshot, GH.content_without_newlines.
    rewrite Hfile. cbn [cbind]. rewrite Hcontent. cbn [cbind].
    rewrite (decode_encoded_text text _ Hwf Henc). cbn [cbind]. exact Hdata. }
  rewrite Hd in Hrun. exists w'. exact Hrun.
Qed.

(** ** Beyond the claims: [commitFile] and its callers *)

(** [commitFile] in a world that differs from [w] in the page only. *)
Lemma commitFile_from w w1 path content commitMsg isBinary :
  connected w -> printable_config w = true -> same_core w w1 ->
  GH.commitFile path content commitMsg isBinary w1 =
    match encoded_content content isBinary with
    | Throw e => (Throw e, set_requests (requests w ++ [read_request w path]) w1)
    | Normal enc =>
        (match network w (requests w ++ [read_request w path])
                 (write_request w path commitMsg enc
                    (sha_of_outcome (network w (requests w) (read_request w path)))) with
         | Responds res => Normal (ok res)
         | Rejects e => Throw e
         end,
         set_requests
           (requests w ++ [read_request w path;
                           write_request w path commitMsg enc
                             (sha_of_outcome (network w (requests w) (read_request w path)))])
           w1)
    end.
Proof.
  intros Hc Hp S1.
  assert (Hc1 : connected w1) by (eapply same_core_connected; eassumption).
  assert (Hp1 : printable_config w1 = true)
    by (rewrite (printable_same_config w w1); [exact Hp|apply S1]).
  rewrite (commitFile_connected w1 path content commitMsg isBinary Hc1 Hp1). cbv zeta.
  rewrite (read_request_same_config w w1 path) by apply S1.
  rewrite (core_network _ _ S1), (core_requests _ _ S1).
  destruct (encoded_content content isBinary) as [enc|e]; [|reflexivity].
  rewrite (write_request_same_config w w1) by apply S1. reflexivity.
Qed.

(** The end of a sync that threw [e]: logged, then reported as an error. *)
Lemma report_error label msg e w :
  syncbar_ok w = true ->
  exists w',
    (console_error label e ;; GH.hideSyncBar (lit "error") msg)%js w = (Normal tt, w')
    /\ same_core (set_console (console w ++ [(label, e)]) w) w'
    /\ status_calls w' = status_calls w ++ [SyncEnd (lit "error") msg].
Proof.
  intros Hok.
  rewrite (bind_normal _ _ w tt (set_console (console w ++ [(label, e)]) w)) by reflexivity.
  apply (hideSyncBar_run (lit "error") msg (set_console (console w ++ [(label, e)]) w) Hok).
Qed.

Lemma syncData_run w players fixtures results :
  connected w -> printable_config w = true -> syncbar_ok w = true ->
  let payload := sync_payload players fixtures results (clock w (dates_read w)) in
  let commitMsg := GH.LEAGUE_MSG (toLocaleString_en_ZA (clock w (S (dates_read w)))) in
  let read := read_request w SNAPSHOT_PATH in
  exists w',
    GH.syncData players fixtures results w = (Normal tt, w')
    /\ match GH.encode_text payload with
       | Throw e =>
           requests w' = requests w ++ [read]
           /\ status_calls w' = status_calls w
                ++ [SyncStart SYNCING_DATA; SyncEnd (lit "error") CHECK_TOKEN]
           /\ console w' = console w ++ [(lit "GH sync error:", e)]
       | Normal enc =>
           let write := write_request w SNAPSHOT_PATH commitMsg enc
                          (sha_of_outcome (network w (requests w) read)) in
           requests w' = requests w ++ [read; write]
           /\ match network w (requests w ++ [read]) write with
              | Responds res =>
                  status_calls w' = status_calls w
                    ++ [SyncStart SYNCING_DATA;
                        if ok res then SyncEnd (lit "ok") (lit "League data saved to GitHub")
                        else SyncEnd (lit "error") (lit "Data sync failed")]
                  /\ console w' = console w
              | Rejects e =>
                  status_calls w' = status_calls w
                    ++ [SyncStart SYNCING_DATA; SyncEnd (lit "error") CHECK_TOKEN]
                  /\ console w' = console w ++ [(lit "GH sync error:", e)]
              end
       end.
Proof.
  intros Hc Hp Hok payload commitMsg read. unfold GH.syncData.
  rewrite (bind_normal _ _ _ _ _ (connected_run w Hc)). cbn [negb].
  destruct (showSyncBar_run SYNCING_DATA w Hok) as (w1 & E1 & S1 & C1).
  fold SYNCING_DATA. rewrite (bind_normal _ _ _ _ _ E1).
  assert (Hok1 : syncbar_ok w1 = true) by (eapply same_core_syncbar; eassumption).
  unfold try_catch.
  rewrite (bind_normal _ _ w1 (clock w1 (dates_read w1))
             (set_dates_read (S (dates_read w1)) w1)) by reflexivity.
  set (w1a := set_dates_read _ w1).
  rewrite (bind_normal _ _ w1a (clock w1a (dates_read w1a))
             (set_dates_read (S (dates_read w1a)) w1a)) by reflexivity.
  set (w1b := set_dates_read _ w1a).
  assert (Hcl1 : clock w1 (dates_read w1) = clock w (dates_read w))
    by (rewrite (core_clock _ _ S1), (core_dates _ _ S1); reflexivity).
  assert (Hcl2 : clock w1a (dates_read w1a) = clock w (S (dates_read w))).
  { unfold w1a. cbn [clock dates_read set_dates_read].
    rewrite (core_clock _ _ S1), (core_dates _ _ S1). reflexivity. }
  rewrite Hcl1, Hcl2.
  fold (sync_payload players fixtures results (clock w (dates_read w))). fold payload.
  fold commitMsg. fold SNAPSHOT_PATH.
  assert (Hcommit := commitFile_connected w1b SNAPSHOT_PATH payload commitMsg false).
  assert (Hc1b : connected w1b)
    by (apply (connected_same_config w); [exact (core_config _ _ S1)|exact Hc]).
  assert (Hp1b : printable_config w1b = true)
    by (rewrite (printable_same_config w w1b); [exact Hp|exact (core_config _ _ S1)]).
  specialize (Hcommit Hc1b Hp1b). cbv zeta in Hcommit.
  rewrite (read_request_same_config w w1b SNAPSHOT_PATH) in Hcommit
    by exact (core_config _ _ S1).
  change (network w1b) with (network w1) in Hcommit.
  change (requests w1b) with (requests w1) in Hcommit.
  rewrite (core_network _ _ S1), (core_requests _ _ S1) in Hcommit.
  fold read in Hcommit. cbn [encoded_content] in Hcommit.
  fold CHECK_TOKEN.
  destruct (GH.encode_text payload) as [enc|e].
  - rewrite (write_request_same_config w w1b) in Hcommit by exact (core_config _ _ S1).
    cbv zeta.
    set (write := write_request w SNAPSHOT_PATH commitMsg enc _) in *.
    set (w2 := set_requests (requests w ++ [read; write]) w1b) in Hcommit.
    assert (Hok2 : syncbar_ok w2 = true) by exact Hok1.
    destruct (network w (requests w ++ [read]) write) as [res|e].
    + rewrite (bind_normal _ _ _ _ _ Hcommit).
      destruct (hideSyncBar_run
                  (if ok res then lit "ok" else lit "error")
                  (if ok res then lit "League data saved to GitHub" else lit "Data sync failed")
                  w2 Hok2) as (w3 & E3 & S3 & C3).
      exists w3. split; [rewrite E3; reflexivity|].
      rewrite (core_requests _ _ S3), C3, (core_console _ _ S3).
      cbn [requests status_calls console w2 w1b w1a set_requests set_dates_read].
      rewrite C1, (core_console _ _ S1), <- app_assoc.
      destruct (ok res); repeat split; reflexivity.
    + rewrite (bind_throw _ _ _ _ _ Hcommit).
      destruct (report_error (lit "GH sync error:") CHECK_TOKEN e w2 Hok2)
        as (w3 & E3 & S3 & C3).
      exists w3. split; [exact E3|].
      rewrite (core_requests _ _ S3), C3, (core_console _ _ S3).
      cbn [requests status_calls console w2 w1b w1a set_requests set_dates_read set_console].
      rewrite C1, (core_console _ _ S1), <- app_assoc. repeat split; reflexivity.
  - set (w2 := set_requests (requests w ++ [read]) w1b) in Hcommit.
    assert (Hok2 : syncbar_ok w2 = true) by exact Hok1.
    rewrite (bind_throw _ _ _ _ _ Hcommit).
    destruct (report_error (lit "GH sync error:") CHECK_TOKEN e w2 Hok2)
      as (w3 & E3 & S3 & C3).
    exists w3. split; [exact E3|].
    rewrite (core_requests _ _ S3), C3, (core_console _ _ S3).
    cbn [requests status_calls console w2 w1b w1a set_requests set_dates_read set_console].
    rewrite C1, (core_console _ _ S1), <- app_assoc. repeat split; reflexivity.
Qed.

(** X4. [syncData] on a connected config whose fields convert to strings,
    with a whole status bar: whatever the league data (unpaired surrogates
    included, which [JSON.stringify] escapes), the payload is transcoded,
    exactly one read and one write of the snapshot path are issued, the
    body of the write is the JSON of an object whose [content] decodes
    back to the payload and whose [message] is the commit message, and the
    run ends normally with one report: [ok] when the store accepts the
    write, [error] with [Data sync failed] when it refuses, [error] with
    the "check token" message when the write request throws. *)
Theorem syncData_outcome w players fixtures results :
  connected w -> printable_config w = true -> syncbar_ok w = true ->
  (forall d, well_formed (Number_toString d)) ->
  valid_value players -> valid_value fixtures -> valid_value results ->
  valid_string (toISOString (clock w (dates_read w))) ->
  let payload := sync_payload players fixtures results (clock w (dates_read w)) in
  let commitMsg := GH.LEAGUE_MSG (toLocaleString_en_ZA (clock w (S (dates_read w)))) in
  let read := read_request w SNAPSHOT_PATH in
  exists enc write props w',
    GH.encode_text payload = Normal enc
    /\ GH.decode_text enc = Normal payload
    /\ GH.syncData players fixtures results w = (Normal tt, w')
    /\ requests w' = requests w ++ [read; write]
    /\ req_method write = PUT
    /\ req_url write = api_base w ++ lit "/contents/data/league-data.json"
    /\ req_body write = JSON_stringify (JObject props)
    /\ own_property props (lit "content") = Some (JString enc)
    /\ own_property props (lit "message") = Some (JString commitMsg)
    /\ status_calls w' = status_calls w
         ++ [SyncStart SYNCING_DATA;
             match network w (requests w ++ [read]) write with
             | Responds res =>
                 if ok res then SyncEnd (lit "ok") (lit "League data saved to GitHub")
                 else SyncEnd (lit "error") (lit "Data sync failed")
             | Rejects _ => SyncEnd (lit "error") CHECK_TOKEN
             end].
Proof.
  intros Hc Hpc Hok Hfmt Hp Hf Hr Hn payload commitMsg read.
  assert (Hwf : well_formed payload) by (apply well_formed_sync_payload; assumption).
  destruct (syncData_run w players fixtures results Hc Hpc Hok) as (w' & E & Hrun).
  fold payload commitMsg read in Hrun.
  pose proof (encode_text_defined payload Hwf) as Henc. rewrite Henc in Hrun.
  cbv zeta in Hrun. destruct Hrun as (R & Hrun).
  set (enc := b64_encode (utf8_of payload)) in *.
  set (sha := sha_of_outcome (network w (requests w) read)) in *.
  exists enc, (write_request w SNAPSHOT_PATH commitMsg enc sha),
    (GH.commit_body commitMsg (field w "branch") enc sha), w'.
  split; [exact Henc|]. split; [apply (decode_encoded_text payload _ Hwf Henc)|].
  split; [exact E|]. split; [exact R|].
  split; [reflexivity|]. split; [reflexivity|]. split; [reflexivity|].
  split; [unfold GH.commit_body; destruct (truthy sha); reflexivity|].
  split; [unfold GH.commit_body; destruct (truthy sha); reflexivity|].
  destruct (network w (requests w ++ [read]) _) as [res|e]; destruct Hrun as (T & _);
    exact T.
Qed.

Lemma Encode_unpaired s :
  valid_string s -> ~ well_formed s -> Encode uri_unreserved s = Throw URIError.
Proof.
  remember (length s) as n eqn:Hn. revert s Hn.
  induction n as [n IH] using (well_founded_induction lt_wf).
  intros [|c rest] Hn Hv Hnwf; [exfalso; apply Hnwf; constructor|].
  cbn [length] in Hn. inversion_clear Hv as [|? ? Hc Hv'].
  cbn [Encode]. cbn [well_formed] in Hnwf.
  destruct (uri_unreserved c) eqn:Hun.
  - destruct (unreserved_ascii c Hun) as [Hlt _].
    assert (Hh : is_high_surrogate c = false) by (unfold is_high_surrogate; settle; reflexivity).
    assert (Hl : is_low_surrogate c = false) by (unfold is_low_surrogate; settle; reflexivity).
    rewrite Hh in Hnwf.
    rewrite (IH (length rest)); [reflexivity|lia|reflexivity|assumption|tauto].
  - destruct (is_low_surrogate c) eqn:Hl; [reflexivity|].
    destruct (is_high_surrogate c) eqn:Hh.
    + destruct rest as [|d rest']; [reflexivity|].
      destruct (is_low_surrogate d) eqn:Hld; [|reflexivity].
      inversion_clear Hv'.
      rewrite (IH (length rest')); [reflexivity|cbn [length] in Hn; lia|reflexivity|assumption|tauto].
    + rewrite (IH (length rest)); [reflexivity|lia|reflexivity|assumption|tauto].
Qed.

(** X5. Text content that is not valid Unicode (it has an unpaired
    surrogate) is never written: on a connected config whose fields
    convert to strings [commitFile] reads the revision tag, then throws the URIError of [encodeURIComponent]
    without issuing the write. Binary content is not examined. *)
Theorem commitFile_unpaired_surrogate w path content commitMsg :
  connected w -> printable_config w = true ->
  valid_string content -> ~ well_formed content ->
  GH.commitFile path content commitMsg false w
  = (Throw URIError, set_requests (requests w ++ [read_request w path]) w).
Proof.
  intros Hc Hp Hv Hnwf.
  rewrite (commitFile_connected w path content commitMsg false Hc Hp). cbv zeta.
  unfold encoded_content, GH.encode_text, encodeURIComponent.
  rewrite (Encode_unpaired content Hv Hnwf). reflexivity.
Qed.

(** X6. The two requests of [commitFile] on a connected config whose
    owner, repo, branch and token convert to the strings [o], [r], [b] and
    [t], for binary content or well-formed text: first a GET of
    [https://api.github.com/repos/o/r/contents/path?ref=b], then a PUT of
    the same URL without the query, both with [token t] in the
    [Authorization] header. The body of the PUT is the JSON of an object
    with [message] the commit message, [branch] the stored branch and
    [content]: binary content as given, text content in the transport
    encoding, which decodes back to the text. *)
Theorem commitFile_requests w path content commitMsg isBinary o r b t :
  connected w ->
  ToString (field w "owner") = Normal o -> ToString (field w "repo") = Normal r ->
  ToString (field w "branch") = Normal b -> ToString (field w "token") = Normal t ->
  (isBinary = false -> well_formed content) ->
  exists enc read write props,
    requests (snd (GH.commitFile path content commitMsg isBinary w))
      = requests w ++ [read; write]
    /\ req_method read = GET /\ req_method write = PUT
    /\ req_url write
       = lit "https://api.github.com/repos/" ++ o ++ lit "/" ++ r ++ lit "/contents/" ++ path
    /\ req_url read = req_url write ++ lit "?ref=" ++ b
    /\ own_property (req_headers write) (lit "Authorization") = Some (lit "token " ++ t)
    /\ req_headers read = req_headers write
    /\ req_body read = None
    /\ req_body write = JSON_stringify (JObject props)
    /\ own_property props (lit "message") = Some (JString commitMsg)
    /\ own_property props (lit "branch") = Some (field w "branch")
    /\ own_property props (lit "content") = Some (JString enc)
    /\ (isBinary = true -> enc = content)
    /\ (isBinary = false -> GH.decode_text enc = Normal content).
Proof.
  intros Hc Ho Hr Hb Ht Hwf.
  assert (Hp : printable_config w = true).
  { unfold printable_config, printable. rewrite Ho, Hr, Hb, Ht. reflexivity. }
  assert (Henc : exists enc, encoded_content content isBinary = Normal enc
                 /\ (isBinary = true -> enc = content)
                 /\ (isBinary = false -> GH.decode_text enc = Normal content)).
  { destruct isBinary.
    - exists content. repeat split; auto. discriminate.
    - specialize (Hwf eq_refl). exists (b64_encode (utf8_of content)).
      split; [apply encode_text_defined, Hwf|]. split; [discriminate|].
      intros _. apply (decode_encoded_text content _ Hwf), encode_text_defined, Hwf. }
  destruct Henc as (enc & Henc & Hbin & Htext).
  rewrite (commitFile_connected w path content commitMsg isBinary Hc Hp), Henc. cbv zeta.
  set (sha := sha_of_outcome _).
  exists enc, (read_request w path), (write_request w path commitMsg enc sha),
    (GH.commit_body commitMsg (field w "branch") enc sha).
  cbn [snd requests set_requests].
  cbn [req_method req_url req_headers req_body read_request write_request].
  unfold api_base, api_headers, text_of. rewrite Ho, Hr, Hb, Ht.
  split; [reflexivity|]. split; [reflexivity|]. split; [reflexivity|].
  split; [rewrite <- !app_assoc; reflexivity|].
  split; [rewrite <- !app_assoc; reflexivity|].
  split; [reflexivity|]. split; [reflexivity|]. split; [reflexivity|].
  split; [reflexivity|].
  unfold GH.commit_body.
  destruct (truthy sha); repeat split; try reflexivity; assumption.
Qed.

Lemma getFileSHA_outcome_sha res data sha :
  ok res = true -> json_of res = Normal data -> GetV data (lit "sha") = Normal sha ->
  sha_of_outcome (Responds res) = GH.or_null sha.
Proof.
  intros Hok Hj Hs. unfold sha_of_outcome.
  assert (H404 : (status res =? 404) = false).
  { unfold ok, in_range in Hok. apply andb_true_iff in Hok as [_ Hhi].
    apply N.leb_le in Hhi. apply N.eqb_neq. lia. }
  rewrite H404, Hok. cbn [negb]. unfold json_of in Hj.
  destruct (body res) as [text|]; [|discriminate]. rewrite Hj. cbn [cbind]. rewrite Hs.
  reflexivity.
Qed.

(** X7. [getFileSHA] on a connected config whose fields convert to
    strings issues exactly one request, the read of the path, and never
    throws. It returns the [sha] of the JSON
    answer when the store answers 2xx with a truthy [sha]; it returns
    [null] in every other case and does not tell them apart: a rejected
    request, any status outside 2xx (404, but also 401 or 500), a body
    that is not JSON, a missing or empty [sha]. *)
Theorem getFileSHA_result w path :
  connected w -> printable_config w = true ->
  exists v w',
    GH.getFileSHA path w = (Normal v, w')
    /\ requests w' = requests w ++ [read_request w path]
    /\ (forall res data sha,
          network w (requests w) (read_request w path) = Responds res ->
          ok res = true -> json_of res = Normal data ->
          GetV data (lit "sha") = Normal sha -> truthy sha = true -> v = sha)
    /\ (forall e, network w (requests w) (read_request w path) = Rejects e -> v = JNull)
    /\ (forall res, network w (requests w) (read_request w path) = Responds res ->
          ok res = false -> v = JNull)
    /\ (forall res e, network w (requests w) (read_request w path) = Responds res ->
          json_of res = Throw e -> v = JNull)
    /\ (forall res data sha,
          network w (requests w) (read_request w path) = Responds res ->
          json_of res = Normal data -> GetV data (lit "sha") = Normal sha ->
          truthy sha = false -> v = JNull).
Proof.
  intros Hc Hp. rewrite (getFileSHA_connected w path Hc Hp).
  eexists _, _. split; [reflexivity|]. split; [reflexivity|].
  split; [|split; [|split; [|split]]].
  - intros res data sha Hnet Hok Hj Hs Ht. rewrite Hnet.
    rewrite (getFileSHA_outcome_sha res data sha Hok Hj Hs). unfold GH.or_null.
    rewrite Ht. reflexivity.
  - intros e Hnet. rewrite Hnet. reflexivity.
  - intros res Hnet Hnok. rewrite Hnet. unfold sha_of_outcome. rewrite Hnok.
    destruct (status res =? 404); reflexivity.
  - intros res e Hnet Hj. rewrite Hnet. unfold sha_of_outcome, json_of in *.
    destruct (status res =? 404); [reflexivity|]. destruct (negb (ok res)); [reflexivity|].
    destruct (body res) as [text|]; [|reflexivity]. rewrite Hj. reflexivity.
  - intros res data sha Hnet Hj Hs Ht. rewrite Hnet. unfold sha_of_outcome, json_of in *.
    destruct (status res =? 404); [reflexivity|]. destruct (negb (ok res)); [reflexivity|].
    destruct (body res) as [text|]; [|discriminate]. rewrite Hj. cbn [cbind]. rewrite Hs.
    unfold GH.or_null. rewrite Ht. reflexivity.
Qed.

(** X8. Without a connected config the four operations on the store do
    nothing: [syncData] returns, [uploadMatchImage] and [loadRemoteData]
    return [null], [testConnection] answers [Not configured]; none of them
    issues a request, reports to the status bar or changes anything. *)
Theorem not_connected_no_effect w players fixtures results base64Data filename :
  fst (GH.isConnected w) = Normal false ->
  GH.syncData players fixtures results w = (Normal tt, w)
  /\ GH.uploadMatchImage base64Data filename w = (Normal None, w)
  /\ GH.loadRemoteData w = (Normal JNull, w)
  /\ GH.testConnection w
     = (Normal {| GH.result_ok := false; GH.msg := lit "Not configured" |}, w).
Proof.
  intros Hn. destruct (isConnected_pure w) as [b Hb]. rewrite Hb in Hn. cbn [fst] in Hn.
  injection Hn as ->.
  unfold GH.syncData, GH.uploadMatchImage, GH.loadRemoteData, GH.testConnection.
  rewrite !(bind_normal _ _ _ _ _ Hb). repeat split; reflexivity.
Qed.

(** ** Beyond the claims: the status bar *)

Lemma showSyncBar_throws msg w :
  syncbar_ok w = false ->
  exists w', GH.showSyncBar msg w = (Throw TypeError, w') /\ requests w' = requests w.
Proof.
  unfold syncbar_ok, present. intros Hbad. unfold GH.showSyncBar.
  rewrite (bind_normal _ _ w tt (set_status_calls (status_calls w ++ [SyncStart msg]) w))
    by reflexivity.
  set (w0 := set_status_calls _ w).
  rewrite !(bind_normal _ _ _ _ _ (getElementById_run _ w0)).
  change (document w0) with (document w).
  destruct (document w !! lit "sync-bar") as [b|]; [|discriminate].
  destruct (document w !! lit "sync-msg") as [m|].
  - destruct (document w !! lit "sync-icon") as [i|]; [discriminate|].
    rewrite (bind_normal _ _ _ _ _ (update_some _ _ w0)).
    eexists. split; [reflexivity|]. reflexivity.
  - eexists. split; [reflexivity|]. reflexivity.
Qed.

(** X9. When the page has [sync-bar] but lacks [sync-msg] or [sync-icon],
    [showSyncBar] fails with a TypeError, and since the three store
    operations call it outside their [try], each of them throws that
    TypeError to its caller before any request is issued. *)
Theorem broken_status_bar_throws w players fixtures results base64Data filename :
  connected w -> syncbar_ok w = false ->
  (fst (GH.syncData players fixtures results w) = Throw TypeError
   /\ requests (snd (GH.syncData players fixtures results w)) = requests w)
  /\ (fst (GH.uploadMatchImage base64Data filename w) = Throw TypeError
      /\ requests (snd (GH.uploadMatchImage base64Data filename w)) = requests w)
  /\ (fst (GH.loadRemoteData w) = Throw TypeError
      /\ requests (snd (GH.loadRemoteData w)) = requests w).
Proof.
  intros Hc Hbad.
  unfold GH.syncData, GH.uploadMatchImage, GH.loadRemoteData.
  rewrite !(bind_normal _ _ _ _ _ (connected_run w Hc)). cbn [negb].
  split; [|split].
  - destruct (showSyncBar_throws (lit "Syncing league data" ++ [0x2026]) w Hbad)
      as (w' & E & R).
    rewrite (bind_throw _ _ _ _ _ E). split; [reflexivity|exact R].
  - destruct (showSyncBar_throws (lit "Uploading match screenshot" ++ [0x2026]) w Hbad)
      as (w' & E & R).
    rewrite (bind_throw _ _ _ _ _ E). split; [reflexivity|exact R].
  - destruct (showSyncBar_throws (lit "Loading data from GitHub" ++ [0x2026]) w Hbad)
      as (w' & E & R).
    rewrite (bind_throw _ _ _ _ _ E). split; [reflexivity|exact R].
Qed.

(** X10. The reports of [uploadMatchImage] on a connected config whose
    fields convert to strings, with a whole status bar: one start, then one end. The end is [ok] with
    [Screenshot saved to GitHub] exactly when a URL is returned; a refused
    write and a thrown write both end with [error] and
    [Image upload failed], and only the thrown error is logged. *)
Theorem uploadMatchImage_reports w base64Data filename :
  connected w -> printable_config w = true -> syncbar_ok w = true ->
  let path := lit "match-images/" ++ filename in
  let read := read_request w path in
  let write := write_request w path (GH.SCREENSHOT_MSG filename) base64Data
                 (sha_of_outcome (network w (requests w) read)) in
  exists r w',
    GH.uploadMatchImage base64Data filename w = (Normal r, w')
    /\ match network w (requests w ++ [read]) write with
       | Responds res =>
           console w' = console w
           /\ if ok res then
                r = Some (asset_url w path)
                /\ status_calls w' = status_calls w
                     ++ [SyncStart UPLOADING;
                         SyncEnd (lit "ok") (lit "Screenshot saved to GitHub")]
              else
                r = None
                /\ status_calls w' = status_calls w
                     ++ [SyncStart UPLOADING;
                         SyncEnd (lit "error") (lit "Image upload failed")]
       | Rejects e =>
           r = None
           /\ console w' = console w ++ [(lit "GH image upload error:", e)]
           /\ status_calls w' = status_calls w
                ++ [SyncStart UPLOADING; SyncEnd (lit "error") (lit "Image upload failed")]
       end.
Proof.
  intros Hc Hp Hok path read write. unfold GH.uploadMatchImage.
  rewrite (bind_normal _ _ _ _ _ (connected_run w Hc)). cbn [negb].
  destruct (showSyncBar_run UPLOADING w Hok) as (w1 & E1 & S1 & C1).
  fold UPLOADING. rewrite (bind_normal _ _ _ _ _ E1).
  assert (Hok1 : syncbar_ok w1 = true) by (eapply same_core_syncbar; eassumption).
  unfold try_catch. fold path.
  pose proof (commitFile_from w w1 path base64Data (GH.SCREENSHOT_MSG filename) true Hc Hp S1)
    as Hcommit.
  cbn [encoded_content] in Hcommit. fold read in Hcommit. fold write in Hcommit.
  set (w2 := set_requests (requests w ++ [read; write]) w1) in Hcommit.
  assert (Hok2 : syncbar_ok w2 = true) by exact Hok1.
  destruct (network w (requests w ++ [read]) write) as [res|e].
  - rewrite (bind_normal _ _ _ _ _ Hcommit).
    destruct (ok res).
    + destruct (hideSyncBar_run (lit "ok") (lit "Screenshot saved to GitHub") w2 Hok2)
        as (w3 & E3 & S3 & C3).
      rewrite (bind_normal _ _ _ _ _ E3).
      assert (Hc3 : connected w3).
      { apply (connected_same_config w); [|exact Hc].
        rewrite (core_config _ _ S3). exact (core_config _ _ S1). }
      assert (Hp3 : printable_config w3 = true).
      { rewrite (printable_same_config w w3); [exact Hp|].
        rewrite (core_config _ _ S3). exact (core_config _ _ S1). }
      destruct (printable_fields w3 Hp3) as (Ho3 & Hr3 & Hb3 & _).
      rewrite (bind_normal _ _ _ _ _ (interpolate_connected w3 _ Hc3 Ho3)).
      rewrite (bind_normal _ _ _ _ _ (interpolate_connected w3 _ Hc3 Hr3)).
      rewrite (bind_normal _ _ _ _ _ (interpolate_connected w3 _ Hc3 Hb3)).
      eexists _, w3. split; [reflexivity|].
      rewrite (core_console _ _ S3), C3.
      cbn [console status_calls w2 set_requests]. rewrite (core_console _ _ S1), C1.
      rewrite <- app_assoc. split; [reflexivity|]. split; [|reflexivity].
      unfold asset_url. rewrite !(field_same_config w w3); [reflexivity|..];
        (rewrite (core_config _ _ S3); exact (core_config _ _ S1)).
    + destruct (hideSyncBar_run (lit "error") (lit "Image upload failed") w2 Hok2)
        as (w3 & E3 & S3 & C3).
      rewrite (bind_normal _ _ _ _ _ E3).
      eexists _, w3. split; [reflexivity|].
      rewrite (core_console _ _ S3), C3.
      cbn [console status_calls w2 set_requests]. rewrite (core_console _ _ S1), C1.
      rewrite <- app_assoc. repeat split; reflexivity.
  - rewrite (bind_throw _ _ _ _ _ Hcommit).
    rewrite (bind_normal _ _ w2 tt
               (set_console (console w2 ++ [(lit "GH image upload error:", e)]) w2))
      by reflexivity.
    set (w2' := set_console _ w2).
    assert (Hok2' : syncbar_ok w2' = true) by exact Hok2.
    destruct (hideSyncBar_run (lit "error") (lit "Image upload failed") w2' Hok2')
      as (w3 & E3 & S3 & C3).
    rewrite (bind_normal _ _ _ _ _ E3).
    eexists _, w3. split; [reflexivity|].
    rewrite (core_console _ _ S3), C3.
    cbn [console status_calls w2' w2 set_requests set_console].
    rewrite (core_console _ _ S1), C1, <- app_assoc. repeat split; reflexivity.
Qed.

(** ** Beyond the claims: the stored config *)

Lemma trimStart_suffix s : exists p, s = p ++ trimStart s.
Proof.
  induction s as [|c s [p IH]]; [exists []; reflexivity|].
  cbn [trimStart]. destruct (is_js_whitespace c).
  - exists (c :: p). cbn [app]. f_equal. exact IH.
  - exists []. reflexivity.
Qed.

Lemma trimStart_head s c r : trimStart s = c :: r -> is_js_whitespace c = false.
Proof.
  induction s as [|d s IH]; [discriminate|].
  cbn [trimStart]. destruct (is_js_whitespace d) eqn:Hd; [exact IH|].
  intros [= <- _]. exact Hd.
Qed.

Lemma trimStart_fixed s :
  (forall c r, s = c :: r -> is_js_whitespace c = false) -> trimStart s = s.
Proof.
  destruct s as [|c r]; [reflexivity|]. intros Hs. cbn [trimStart].
  rewrite (Hs c r eq_refl). reflexivity.
Qed.

Lemma trimEnd_prefix s : exists t, s = trimEnd s ++ t.
Proof.
  unfold trimEnd. destruct (trimStart_suffix (rev s)) as [p Hp].
  exists (rev p). rewrite <- rev_app_distr, <- Hp, rev_involutive. reflexivity.
Qed.

Lemma trim_trimmed s : trimmed (trim s).
Proof.
  unfold trim. split.
  - intros c r Hcr. destruct (trimEnd_prefix (trimStart s)) as [t Ht].
    rewrite Hcr in Ht. apply (trimStart_head s c (r ++ t)). exact Ht.
  - intros c r Hcr. unfold trimEnd in Hcr.
    apply (f_equal (@rev N)) in Hcr. rewrite rev_involutive, rev_app_distr in Hcr.
    apply (trimStart_head _ _ _ Hcr).
Qed.

Lemma trimmed_fixed s : trimmed s -> trim s = s.
Proof.
  intros [Hhead Hlast]. unfold trim. rewrite (trimStart_fixed s Hhead).
  unfold trimEnd. rewrite trimStart_fixed; [apply rev_involutive|].
  intros c r Hcr. apply (Hlast c (rev r)).
  apply (f_equal (@rev N)) in Hcr. rewrite rev_involutive in Hcr. exact Hcr.
Qed.

Lemma or_default_trimmed b : trimmed b -> trimmed (GH.or_default b (lit "main")).
Proof.
  intros Hb. destruct b as [|c r]; [|exact Hb]. cbn [GH.or_default]. split.
  - intros c r [= <- _]. reflexivity.
  - intros c r Hcr. destruct r as [|r1 [|r2 [|r3 [|r4 r]]]]; try discriminate.
    + injection Hcr as _ _ _ <-. reflexivity.
    + destruct r; discriminate.
Qed.

(** X11. The config [save] stores is in normal form: none of its four
    fields starts or ends with white space, the branch is not empty, and
    saving the stored fields again stores the same config. *)
Theorem save_stores_normal_form owner repo branch token w :
  exists o r b t,
    config (snd (GH.save owner repo branch token w)) = config_object o r b t
    /\ trimmed o /\ trimmed r /\ trimmed b /\ trimmed t /\ b <> []
    /\ forall w2, config (snd (GH.save o r b t w2)) = config_object o r b t.
Proof.
  exists (trim owner), (trim repo), (GH.or_default (trim branch) (lit "main")), (trim token).
  destruct (save_run owner repo branch token w) as (w' & E & C & _).
  rewrite E. cbn [snd]. split; [exact C|].
  pose proof (trim_trimmed owner) as Ho. pose proof (trim_trimmed repo) as Hr.
  pose proof (or_default_trimmed _ (trim_trimmed branch)) as Hb.
  pose proof (trim_trimmed token) as Ht.
  repeat (split; [assumption|]). split.
  - unfold GH.or_default. destruct (trim branch); discriminate.
  - intros w2.
    destruct (save_run (trim owner) (trim repo) (GH.or_default (trim branch) (lit "main"))
                (trim token) w2) as (w2' & E2 & C2 & _).
    rewrite E2. cbn [snd]. rewrite C2. unfold saved_object.
    rewrite (trimmed_fixed _ Ho), (trimmed_fixed _ Hr), (trimmed_fixed _ Ht),
      (trimmed_fixed _ Hb).
    destruct (trim branch); reflexivity.
Qed.

(** X12. The config lives in one entry of local storage: [save] replaces
    that entry with the JSON text of the new config whatever was stored
    before (malformed text included) and [disconnect] removes it; neither
    touches another entry, issues a request, reports to the status bar or
    logs; and the text [save] stores parses back to the config it set. *)
Theorem config_entry_only owner repo branch token w :
  (exists w',
     GH.save owner repo branch token w = (Normal tt, w')
     /\ localStorage w' !! GH.CONFIG_KEY = Some (saved_text owner repo branch token)
     /\ JSON_parse (saved_text owner repo branch token) = Normal (config w')
     /\ (forall k, k <> GH.CONFIG_KEY -> localStorage w' !! k = localStorage w !! k)
     /\ requests w' = requests w /\ status_calls w' = status_calls w
     /\ console w' = console w)
  /\ (exists w',
        GH.disconnect w = (Normal tt, w')
        /\ localStorage w' !! GH.CONFIG_KEY = None
        /\ config w' = JNull
        /\ (forall k, k <> GH.CONFIG_KEY -> localStorage w' !! k = localStorage w !! k)
        /\ requests w' = requests w /\ status_calls w' = status_calls w
        /\ console w' = console w).
Proof.
  split.
  - destruct (save_run owner repo branch token w) as (w' & E & C & L & R & T & Co & _).
    exists w'. split; [exact E|]. rewrite L, C.
    split; [apply lookup_insert_eq|]. split; [apply JSON_parse_config_text|].
    split; [|auto]. intros k Hk. apply lookup_insert_ne. congruence.
  - destruct (disconnect_run w) as (w' & E & C & L & R & T & Co & _).
    exists w'. split; [exact E|]. rewrite L.
    split; [apply lookup_delete_eq|]. split; [exact C|].
    split; [|auto]. intros k Hk. apply lookup_delete_ne. congruence.
Qed.

(** ** Beyond the claims: the status indicator *)

Lemma keeping_ret keep P : quiet_keeping keep P (ret tt).
Proof.
  intros w _. exists w. split; [reflexivity|]. split; [apply same_core_refl|]. auto.
Qed.

Lemma keeping_update keep P j f :
  ~ In j keep -> quiet_keeping keep P (update (Some j) f).
Proof.
  intros Hj w _. eexists. split; [apply update_some|]. split; [apply same_core_alter|].
  split; [reflexivity|]. split; [reflexivity|].
  intros id Hin. cbn [document set_document]. apply lookup_alter_ne. congruence.
Qed.

Lemma keeping_seq keep P (m k : M unit) :
  stable P -> quiet_keeping keep P m -> quiet_keeping keep P k ->
  quiet_keeping keep P (bind m (fun _ => k)).
Proof.
  intros HP Hm Hk w Hw. destruct (Hm w Hw) as (w1 & E1 & S1 & C1 & T1 & L1).
  destruct (Hk w1 (HP _ _ S1 Hw)) as (w2 & E2 & S2 & C2 & T2 & L2).
  exists w2. rewrite (bind_normal _ _ _ _ _ E1). split; [exact E2|].
  split; [eapply same_core_trans; eassumption|].
  split; [congruence|]. split; [congruence|].
  intros id Hin. rewrite (L2 id Hin). apply L1, Hin.
Qed.

Lemma keeping_config_get keep P key (k : JSValue -> M unit) :
  (forall w, P w -> connected w) -> (forall v, quiet_keeping keep P (k v)) ->
  quiet_keeping keep P (bind (GH.config_get key) k).
Proof.
  intros HP Hk w Hw.
  rewrite (bind_normal _ _ _ _ _ (config_get_connected w key (HP w Hw))). apply Hk, Hw.
Qed.

Lemma keeping_setVal keep P id v : ~ In (lit id) keep -> quiet_keeping keep P (GH.setVal id v).
Proof.
  intros Hid w Hw. unfold GH.setVal.
  rewrite (bind_normal _ _ _ _ _ (getElementById_run _ w)).
  destruct (document w !! lit id);
    [apply (keeping_update keep P _ _ Hid w Hw) | apply (keeping_ret keep P w Hw)].
Qed.

Lemma keeping_button keep P (present_btn : bool) f :
  ~ In (lit "btn-force-sync") keep ->
  quiet_keeping keep P
    (match (if present_btn then Some (lit "btn-force-sync") else None) with
     | Some _ => update (if present_btn then Some (lit "btn-force-sync") else None) f
     | None => ret tt
     end).
Proof.
  intros Hb. destruct present_btn; [apply keeping_update, Hb | apply keeping_ret].
Qed.

Lemma indicator_ids :
  let keep := [lit "gh-status-dot"; lit "gh-status-label"] in
  ~ In (lit "btn-force-sync") keep /\ ~ In (lit "ghOwner") keep /\ ~ In (lit "ghRepo") keep
  /\ ~ In (lit "ghBranch") keep /\ ~ In (lit "ghToken") keep.
Proof.
  cbv zeta. repeat split; intros Hin; vm_compute in Hin;
    repeat (destruct Hin as [Hin|Hin]; [discriminate|]); exact Hin.
Qed.

(** [updateStatusUI] on a page that has the dot and the label, where the
    label can be written. *)
Lemma updateStatusUI_shows w d0 l0 :
  document w !! lit "gh-status-dot" = Some d0 ->
  document w !! lit "gh-status-label" = Some l0 ->
  label_ok w ->
  exists b w',
    GH.isConnected w = (Normal b, w)
    /\ GH.updateStatusUI w = (Normal tt, w')
    /\ same_core w w'
    /\ if b then
         shows w' "gh-status-label"
           (text_of (field w "owner") ++ lit "/" ++ text_of (field w "repo")) (classes l0)
         /\ shows w' "gh-status-dot" (textContent d0) [lit "status-dot"; lit "status-github"]
       else
         shows w' "gh-status-label" (lit "Local only") (classes l0)
         /\ shows w' "gh-status-dot" (textContent d0) [lit "status-dot"; lit "status-local"].
Proof.
  intros Hd Hl Hlab. destruct indicator_ids as (Kb & Ko & Kr & Kbr & Kt).
  set (keep := [lit "gh-status-dot"; lit "gh-status-label"]) in *.
  assert (Hne : lit "gh-status-dot" <> lit "gh-status-label") by discriminate.
  destruct (isConnected_pure w) as [b Hb]. exists b.
  unfold GH.updateStatusUI.
  rewrite !(bind_normal _ _ _ _ _ (getElementById_run _ w)). rewrite Hd, Hl.
  rewrite (bind_normal _ _ _ _ _ Hb).
  set (btn := match document w !! lit "btn-force-sync" with
              | Some _ => Some (lit "btn-force-sync") | None => None end).
  assert (Hbtn : btn = if (match document w !! lit "btn-force-sync" with
                           | Some _ => true | None => false end)
                       then Some (lit "btn-force-sync") else None).
  { unfold btn. destruct (document w !! lit "btn-force-sync"); reflexivity. }
  rewrite Hbtn. clear Hbtn btn.
  set (pb := match document w !! lit "btn-force-sync" with Some _ => true | None => false end).
  destruct b.
  - assert (Hc : connected w) by (unfold connected; rewrite Hb; reflexivity).
    rewrite (bind_normal _ _ _ _ _ (update_some _ _ w)).
    set (w1 := set_document _ w).
    assert (S1 : same_core w w1) by apply same_core_alter.
    assert (Hc1 : connected w1) by (eapply same_core_connected; eassumption).
    destruct (Hlab Hc) as [Ho Hr].
    rewrite (bind_normal _ _ _ _ _ (interpolate_connected w1 "owner" Hc1 Ho)).
    rewrite (bind_normal _ _ _ _ _ (interpolate_connected w1 "repo" Hc1 Hr)).
    rewrite (bind_normal _ _ _ _ _ (update_some _ _ w1)).
    set (w2 := set_document _ w1).
    assert (S2 : same_core w1 w2) by apply same_core_alter.
    assert (Hc2 : connected w2) by (eapply same_core_connected; eassumption).
    assert (Hrest : quiet_keeping keep connected
      (match (if pb then Some (lit "btn-force-sync") else None) with
       | Some _ => update (if pb then Some (lit "btn-force-sync") else None)
                     (with_display (lit "block"))
       | None => ret tt
       end ;;
       let! owner := GH.config_get "owner" in
       GH.setVal "ghOwner" owner ;;
       let! repo := GH.config_get "repo" in
       GH.setVal "ghRepo" repo ;;
       let! branch := GH.config_get "branch" in
       GH.setVal "ghBranch" branch ;;
       let! token := GH.config_get "token" in
       GH.setVal "ghToken" token)%js).
    { repeat first
        [ apply keeping_button; assumption
        | apply keeping_setVal; assumption
        | apply keeping_seq; [exact stable_connected| |]
        | apply keeping_config_get; [auto|intro] ]. }
    destruct (Hrest w2 Hc2) as (w' & E & S & _ & _ & L).
    exists w'. split; [exact Hb|]. split; [exact E|].
    split; [eapply same_core_trans; [exact S1|]; eapply same_core_trans; eassumption|].
    split.
    + exists (with_textContent
                (text_of (field w "owner") ++ lit "/" ++ text_of (field w "repo")) l0).
      split; [|split; reflexivity].
      rewrite (L (lit "gh-status-label")) by (right; left; reflexivity).
      unfold w2, w1. cbn [document set_document].
      rewrite lookup_alter_eq, lookup_alter_ne, Hl by exact Hne. reflexivity.
    + exists (with_classes [lit "status-dot"; lit "status-github"] d0).
      split; [|split; reflexivity].
      rewrite (L (lit "gh-status-dot")) by (left; reflexivity).
      unfold w2, w1. cbn [document set_document].
      rewrite lookup_alter_ne, lookup_alter_eq, Hd by congruence. reflexivity.
  - rewrite (bind_normal _ _ _ _ _ (update_some _ _ w)).
    set (w1 := set_document _ w).
    rewrite (bind_normal _ _ _ _ _ (update_some _ _ w1)).
    set (w2 := set_document _ w1).
    destruct (keeping_button keep (fun _ => True) pb (with_display (lit "none")) Kb w2 I)
      as (w' & E & S & _ & _ & L).
    exists w'. split; [exact Hb|]. split; [exact E|].
    split.
    { apply (same_core_trans w w1); [apply same_core_alter|].
      apply (same_core_trans w1 w2); [apply same_core_alter|exact S]. }
    split.
    + exists (with_textContent (lit "Local only") l0). split; [|split; reflexivity].
      rewrite (L (lit "gh-status-label")) by (right; left; reflexivity).
      unfold w2, w1. cbn [document set_document].
      rewrite lookup_alter_eq, lookup_alter_ne, Hl by exact Hne. reflexivity.
    + exists (with_classes [lit "status-dot"; lit "status-local"] d0).
      split; [|split; reflexivity].
      rewrite (L (lit "gh-status-dot")) by (left; reflexivity).
      unfold w2, w1. cbn [document set_document].
      rewrite lookup_alter_ne, lookup_alter_eq, Hd by congruence. reflexivity.
Qed.

(** X13. The status indicator follows the config. On a page that has the
    status dot and its label, [save] leaves the label showing
    [owner/repo] (trimmed) and the dot with class [status-github] when the
    saved config is connected, and [Local only] with [status-local] when
    it is not; [disconnect] always leaves [Local only] and
    [status-local]. *)
Theorem status_indicator_follows_config owner repo branch token w d0 l0 :
  document w !! lit "gh-status-dot" = Some d0 ->
  document w !! lit "gh-status-label" = Some l0 ->
  (let w' := snd (GH.save owner repo branch token w) in
   if nonempty (trim owner) && nonempty (trim repo) && nonempty (trim token) then
     shows w' "gh-status-label" (trim owner ++ lit "/" ++ trim repo) (classes l0)
     /\ shows w' "gh-status-dot" (textContent d0) [lit "status-dot"; lit "status-github"]
   else
     shows w' "gh-status-label" (lit "Local only") (classes l0)
     /\ shows w' "gh-status-dot" (textContent d0) [lit "status-dot"; lit "status-local"])
  /\ (let w' := snd (GH.disconnect w) in
      shows w' "gh-status-label" (lit "Local only") (classes l0)
      /\ shows w' "gh-status-dot" (textContent d0) [lit "status-dot"; lit "status-local"]).
Proof.
  intros Hd Hl. split.
  - cbv zeta. unfold GH.save. fold (saved_object owner repo branch token).
    rewrite (bind_normal _ _ w tt (set_config (saved_object owner repo branch token) w))
      by reflexivity.
    rewrite (bind_normal _ _ _ (saved_object owner repo branch token) _) by reflexivity.
    set (w1 := set_config _ w).
    match goal with
    | |- context [localStorage_setItem ?k ?v] =>
        rewrite (bind_normal _ _ w1 tt (set_localStorage (<[k := v]> (localStorage w1)) w1))
          by reflexivity
    end.
    set (w2 := set_localStorage _ w1).
    destruct (updateStatusUI_shows w2 d0 l0 Hd Hl
                (label_ok_config_object w2 _ _ _ _ eq_refl)) as (b & w' & Eb & E & _ & Hshow).
    rewrite E. cbn [snd].
    rewrite (isConnected_config_object w2 (trim owner) (trim repo)
               (GH.or_default (trim branch) (lit "main")) (trim token) eq_refl) in Eb.
    injection Eb as <-. exact Hshow.
  - cbv zeta. unfold GH.disconnect.
    rewrite (bind_normal _ _ w tt (set_config JNull w)) by reflexivity.
    set (w1 := set_config _ w).
    rewrite (bind_normal _ _ w1 tt
      (set_localStorage (delete GH.CONFIG_KEY (localStorage w1)) w1)) by reflexivity.
    set (w2 := set_localStorage _ w1).
    destruct (updateStatusUI_shows w2 d0 l0 Hd Hl (label_ok_null w2 eq_refl))
      as (b & w' & Eb & E & _ & Hshow).
    rewrite E. cbn [snd].
    rewrite (isConnected_null w2 eq_refl) in Eb. injection Eb as <-. exact Hshow.
Qed.

Lemma jsstring_eqb_eq a b : jsstring_eqb a b = true <-> a = b.
Proof. unfold jsstring_eqb. apply bool_decide_eq_true. Qed.

Lemma has_token_app u cs ds : has_token u (cs ++ ds) = has_token u cs || has_token u ds.
Proof. unfold has_token. apply existsb_app. Qed.

Lemma has_token_add u t e :
  has_token u (classes (classList_add t e)) = has_token u (classes e) || jsstring_eqb u t.
Proof.
  unfold classList_add. cbn [classes with_classes].
  destruct (has_token t (classes e)) eqn:Ht.
  - destruct (jsstring_eqb u t) eqn:Hu; [|rewrite orb_false_r; reflexivity].
    apply jsstring_eqb_eq in Hu. subst u. rewrite Ht. reflexivity.
  - rewrite has_token_app. cbn [has_token existsb]. rewrite orb_false_r. reflexivity.
Qed.

Lemma has_token_remove u ts e :
  has_token u (classes (classList_remove ts e))
  = has_token u (classes e) && negb (has_token u ts).
Proof.
  unfold classList_remove. cbn [classes with_classes].
  induction (classes e) as [|c cs IH]; [reflexivity|].
  cbn [List.filter]. destruct (has_token c ts) eqn:Hc; cbn [negb].
  - rewrite IH. cbn [has_token existsb]. fold (has_token u cs).
    destruct (jsstring_eqb u c) eqn:Hu; [|reflexivity].
    apply jsstring_eqb_eq in Hu. subst u. rewrite Hc. cbn [negb orb].
    rewrite !andb_false_r. reflexivity.
  - cbn [has_token existsb]. fold (has_token u cs).
    fold (has_token u (List.filter (fun t => negb (has_token t ts)) cs)). rewrite IH.
    destruct (jsstring_eqb u c) eqn:Hu; [|reflexivity].
    apply jsstring_eqb_eq in Hu. subst u. rewrite Hc. reflexivity.
Qed.

Lemma showSyncBar_whole msg w b0 m0 i0 :
  document w !! lit "sync-bar" = Some b0 ->
  document w !! lit "sync-msg" = Some m0 ->
  document w !! lit "sync-icon" = Some i0 ->
  GH.showSyncBar msg w =
    (Normal tt,
     set_document
       (alter (classList_add (lit "sync-active")) (lit "sync-bar")
          (alter (classList_remove [lit "hidden"; lit "sync-error"; lit "sync-ok"])
             (lit "sync-bar")
             (alter (with_innerHTML (GH.icon_html "fas fa-circle-notch fa-spin"))
                (lit "sync-icon")
                (alter (with_textContent (GH.or_default msg GH.SYNCING)) (lit "sync-msg")
                   (document w)))))
       (set_status_calls (status_calls w ++ [SyncStart msg]) w)).
Proof.
  intros Hb Hm Hi. unfold GH.showSyncBar.
  rewrite (bind_normal _ _ w tt (set_status_calls (status_calls w ++ [SyncStart msg]) w))
    by reflexivity.
  set (w0 := set_status_calls _ w).
  rewrite !(bind_normal _ _ _ _ _ (getElementById_run _ w0)).
  change (document w0) with (document w). rewrite Hb, Hm, Hi. reflexivity.
Qed.

Lemma hideSyncBar_whole status msg w b0 m0 i0 :
  document w !! lit "sync-bar" = Some b0 ->
  document w !! lit "sync-msg" = Some m0 ->
  document w !! lit "sync-icon" = Some i0 ->
  GH.hideSyncBar status msg w =
    (Normal tt,
     set_timers (timers w ++ [(4000, AddClass (lit "sync-bar") (lit "hidden"))])
       (set_document
          (if jsstring_eqb status (lit "ok") then
             alter (classList_add (lit "sync-ok")) (lit "sync-bar")
               (alter (with_textContent (GH.or_default msg (lit "Synced to GitHub")))
                  (lit "sync-msg")
                  (alter (with_innerHTML (GH.icon_html "fas fa-check-circle")) (lit "sync-icon")
                     (alter (classList_remove [lit "sync-active"]) (lit "sync-bar")
                        (document w))))
           else
             alter (classList_add (lit "sync-error")) (lit "sync-bar")
               (alter (with_textContent (GH.or_default msg GH.SYNC_FAILED)) (lit "sync-msg")
                  (alter (with_innerHTML (GH.icon_html "fas fa-exclamation-circle"))
                     (lit "sync-icon")
                     (alter (classList_remove [lit "sync-active"]) (lit "sync-bar")
                        (document w)))))
          (set_status_calls (status_calls w ++ [SyncEnd status msg]) w))).
Proof.
  intros Hb Hm Hi. unfold GH.hideSyncBar.
  rewrite (bind_normal _ _ w tt (set_status_calls (status_calls w ++ [SyncEnd status msg]) w))
    by reflexivity.
  set (w0 := set_status_calls _ w).
  rewrite !(bind_normal _ _ _ _ _ (getElementById_run _ w0)).
  change (document w0) with (document w). rewrite Hb, Hm, Hi.
  destruct (jsstring_eqb status (lit "ok")); reflexivity.
Qed.

Lemma status_bar_ids :
  lit "sync-bar" <> lit "sync-msg" /\ lit "sync-bar" <> lit "sync-icon"
  /\ lit "sync-msg" <> lit "sync-icon".
Proof. repeat split; discriminate. Qed.

(** X14. One cycle of the status bar on a page that has its three
    elements. After [showSyncBar] the bar is [sync-active] and is neither
    [hidden], [sync-ok] nor [sync-error], and the message element shows
    the message (or [Syncing to GitHub...] for an empty one). After the
    [hideSyncBar] that follows, the bar is no longer [sync-active], is
    [sync-ok] exactly when the status is [ok] and [sync-error] otherwise,
    the message element shows the end message (or its default), and
    exactly one timer is added: after 4000 ms the bar becomes [hidden]. *)
Theorem status_bar_cycle w msg status endMsg b0 m0 i0 :
  document w !! lit "sync-bar" = Some b0 ->
  document w !! lit "sync-msg" = Some m0 ->
  document w !! lit "sync-icon" = Some i0 ->
  exists w1 w2 bar1 msg1 bar2 msg2,
    GH.showSyncBar msg w = (Normal tt, w1)
    /\ GH.hideSyncBar status endMsg w1 = (Normal tt, w2)
    /\ document w1 !! lit "sync-bar" = Some bar1
    /\ document w1 !! lit "sync-msg" = Some msg1
    /\ has_token (lit "sync-active") (classes bar1) = true
    /\ has_token (lit "hidden") (classes bar1) = false
    /\ has_token (lit "sync-ok") (classes bar1) = false
    /\ has_token (lit "sync-error") (classes bar1) = false
    /\ textContent msg1 = GH.or_default msg GH.SYNCING
    /\ timers w1 = timers w
    /\ document w2 !! lit "sync-bar" = Some bar2
    /\ document w2 !! lit "sync-msg" = Some msg2
    /\ has_token (lit "sync-active") (classes bar2) = false
    /\ has_token (lit "hidden") (classes bar2) = false
    /\ has_token (lit "sync-ok") (classes bar2) = jsstring_eqb status (lit "ok")
    /\ has_token (lit "sync-error") (classes bar2) = negb (jsstring_eqb status (lit "ok"))
    /\ textContent msg2
       = GH.or_default endMsg
           (if jsstring_eqb status (lit "ok") then lit "Synced to GitHub" else GH.SYNC_FAILED)
    /\ timers w2 = timers w ++ [(4000, AddClass (lit "sync-bar") (lit "hidden"))].
Proof.
  intros Hb Hm Hi. destruct status_bar_ids as (Nbm & Nbi & Nmi).
  rewrite (showSyncBar_whole msg w b0 m0 i0 Hb Hm Hi).
  set (w1 := set_document _ _).
  set (bar1 := classList_add (lit "sync-active")
                 (classList_remove [lit "hidden"; lit "sync-error"; lit "sync-ok"] b0)).
  set (msg1 := with_textContent (GH.or_default msg GH.SYNCING) m0).
  set (icon1 := with_innerHTML (GH.icon_html "fas fa-circle-notch fa-spin") i0).
  assert (Hb1 : document w1 !! lit "sync-bar" = Some bar1).
  { unfold w1. cbn [document set_document].
    rewrite !lookup_alter_eq, !lookup_alter_ne, Hb by congruence. reflexivity. }
  assert (Hm1 : document w1 !! lit "sync-msg" = Some msg1).
  { unfold w1. cbn [document set_document].
    rewrite !lookup_alter_ne, lookup_alter_eq, Hm by congruence. reflexivity. }
  assert (Hi1 : document w1 !! lit "sync-icon" = Some icon1).
  { unfold w1. cbn [document set_document].
    rewrite lookup_alter_ne, lookup_alter_ne, lookup_alter_eq, lookup_alter_ne, Hi
      by congruence.
    reflexivity. }
  pose proof (hideSyncBar_whole status endMsg w1 bar1 msg1 icon1 Hb1 Hm1 Hi1) as Hhide.
  set (isok := jsstring_eqb status (lit "ok")) in *.
  set (w2 := set_timers _ _) in Hhide.
  set (bar2 := classList_add (if isok then lit "sync-ok" else lit "sync-error")
                 (classList_remove [lit "sync-active"] bar1)).
  set (msg2 := with_textContent
                 (GH.or_default endMsg
                    (if isok then lit "Synced to GitHub" else GH.SYNC_FAILED)) msg1).
  exists w1, w2, bar1, msg1, bar2, msg2.
  split; [reflexivity|]. split; [exact Hhide|].
  split; [exact Hb1|]. split; [exact Hm1|].
  assert (Hcls1 : forall u, has_token u (classes bar1)
            = has_token u (classes b0)
              && negb (has_token u [lit "hidden"; lit "sync-error"; lit "sync-ok"])
              || jsstring_eqb u (lit "sync-active")).
  { intros u. unfold bar1. rewrite has_token_add, has_token_remove. reflexivity. }
  assert (Hcls2 : forall u, has_token u (classes bar2)
            = has_token u (classes bar1) && negb (has_token u [lit "sync-active"])
              || jsstring_eqb u (if isok then lit "sync-ok" else lit "sync-error")).
  { intros u. unfold bar2. rewrite has_token_add, has_token_remove. reflexivity. }
  split; [rewrite Hcls1; apply orb_true_r|].
  split; [rewrite Hcls1; change (negb _) with false; rewrite andb_false_r; reflexivity|].
  split; [rewrite Hcls1; change (negb _) with false; rewrite andb_false_r; reflexivity|].
  split; [rewrite Hcls1; change (negb _) with false; rewrite andb_false_r; reflexivity|].
  split; [reflexivity|]. split; [reflexivity|].
  split.
  { unfold w2. cbn [document set_document set_timers]. destruct isok;
      rewrite lookup_alter_eq, !lookup_alter_ne, lookup_alter_eq, Hb1 by congruence;
      reflexivity. }
  split.
  { unfold w2. cbn [document set_document set_timers]. destruct isok;
      rewrite lookup_alter_ne, lookup_alter_eq, !lookup_alter_ne, Hm1 by congruence;
      reflexivity. }
  split.
  { rewrite Hcls2. change (negb (has_token (lit "sync-active") [lit "sync-active"])) with false.
    rewrite andb_false_r. destruct isok; reflexivity. }
  split.
  { rewrite Hcls2, Hcls1.
    change (negb (has_token (lit "hidden") [lit "hidden"; lit "sync-error"; lit "sync-ok"]))
      with false.
    rewrite andb_false_r. destruct isok; reflexivity. }
  split.
  { rewrite Hcls2, Hcls1.
    change (negb (has_token (lit "sync-ok") [lit "hidden"; lit "sync-error"; lit "sync-ok"]))
      with false.
    rewrite andb_false_r. destruct isok; reflexivity. }
  split.
  { rewrite Hcls2, Hcls1.
    change (negb (has_token (lit "sync-error")
                    [lit "hidden"; lit "sync-error"; lit "sync-ok"])) with false.
    rewrite andb_false_r. destruct isok; reflexivity. }
  split; [reflexivity|]. reflexivity.
Qed.

(** X15. [testConnection] is purely diagnostic: on a connected config
    whose owner, repo and token convert to the strings [o], [r] and [t]
    (the branch is not looked at) it issues exactly one request, a GET of
    [https://api.github.com/repos/o/r] with [token t] in the
    [Authorization] header, never throws, and leaves the status bar, the
    page, the timers and the log as they were. *)
Theorem testConnection_diagnostic w o r t :
  connected w ->
  ToString (field w "owner") = Normal o -> ToString (field w "repo") = Normal r ->
  ToString (field w "token") = Normal t ->
  exists res w' probe,
    GH.testConnection w = (Normal res, w')
    /\ requests w' = requests w ++ [probe]
    /\ req_method probe = GET
    /\ req_url probe = lit "https://api.github.com/repos/" ++ o ++ lit "/" ++ r
    /\ own_property (req_headers probe) (lit "Authorization") = Some (lit "token " ++ t)
    /\ req_body probe = None
    /\ status_calls w' = status_calls w /\ document w' = document w
    /\ timers w' = timers w /\ console w' = console w.
Proof.
  intros Hc Ho Hr Ht. unfold GH.testConnection.
  rewrite (bind_normal _ _ _ _ _ (connected_run w Hc)). cbn [negb].
  unfold try_catch.
  assert (Hpo : printable (field w "owner") = true) by (unfold printable; rewrite Ho; reflexivity).
  assert (Hpr : printable (field w "repo") = true) by (unfold printable; rewrite Hr; reflexivity).
  assert (Hpt : printable (field w "token") = true) by (unfold printable; rewrite Ht; reflexivity).
  rewrite (bind_normal _ _ _ _ _ (apiBase_fields w Hc Hpo Hpr)).
  rewrite (bind_normal _ _ _ _ _ (headers_fields w Hc Hpt)).
  unfold bind, fetch. fold (probe_request w).
  assert (Hurl : req_url (probe_request w)
                 = lit "https://api.github.com/repos/" ++ o ++ lit "/" ++ r).
  { cbn [req_url probe_request]. unfold api_base, text_of. rewrite Ho, Hr. reflexivity. }
  assert (Hauth : own_property (req_headers (probe_request w)) (lit "Authorization")
                  = Some (lit "token " ++ t)).
  { cbn [req_headers probe_request]. unfold api_headers, text_of. rewrite Ht. reflexivity. }
  destruct (network w (requests w) (probe_request w)) as [res|e].
  - destruct (status res =? 200); [|destruct (status res =? 401);
      [|destruct (status res =? 404)]];
      eexists _, _, (probe_request w); (split; [reflexivity|]);
      (split; [reflexivity|]); (split; [reflexivity|]); (split; [exact Hurl|]);
      (split; [exact Hauth|]); repeat split; reflexivity.
  - eexists _, _, (probe_request w). split; [reflexivity|].
    split; [reflexivity|]. split; [reflexivity|]. split; [exact Hurl|].
    split; [exact Hauth|]. repeat split; reflexivity.
Qed.

Lemma decimal_digits_ascii fuel n acc :
  forallb (fun c => c <? 0x80) acc = true ->
  forallb (fun c => c <? 0x80) (decimal_digits fuel n acc) = true.
Proof.
  revert n acc. induction fuel as [|fuel IH]; intros n acc Hacc; [exact Hacc|].
  cbn [decimal_digits].
  assert (Hd : forallb (fun c => c <? 0x80) ((48 + n mod 10) :: acc) = true).
  { cbn [forallb]. rewrite Hacc, andb_true_r. apply N.ltb_lt. lia. }
  destruct (n <? 10); [exact Hd|]. apply IH, Hd.
Qed.

Lemma digits_only_well_formed d : well_formed (digits_only d).
Proof. apply well_formed_ascii. apply decimal_digits_ascii. reflexivity. Qed.

(** ** Beyond the claims: a config with a field that does not convert *)

Lemma api_unprintable w :
  printable_api w = false ->
  printable_config w = false.
Proof.
  unfold printable_config, printable_api.
  destruct (printable (field w "owner")), (printable (field w "repo")),
    (printable (field w "branch")), (printable (field w "token")); cbn; congruence.
Qed.

(** Building the URL and the headers of a request fails. *)
Lemma api_throws {A} w (k : jsstring -> list (jsstring * jsstring) -> M A) :
  connected w ->
  printable_api w = false ->
  (let! base := GH.apiBase in let! hs := GH.headers in k base hs)%js w = (Throw TypeError, w).
Proof.
  intros Hc Hapi. unfold printable_api in Hapi.
  destruct (printable (field w "owner") && printable (field w "repo")) eqn:Hor.
  - cbn [andb] in Hapi. apply andb_true_iff in Hor as [Ho Hr].
    rewrite (bind_normal _ _ _ _ _ (apiBase_fields w Hc Ho Hr)).
    apply bind_throw, headers_throws; assumption.
  - apply bind_throw, apiBase_throws; assumption.
Qed.

Lemma commitFile_unprintable w path content commitMsg isBinary :
  connected w ->
  printable_api w = false ->
  GH.commitFile path content commitMsg isBinary w =
    (match encoded_content content isBinary with
     | Normal _ => Throw TypeError
     | Throw e => Throw e
     end, w).
Proof.
  intros Hc Hapi. unfold GH.commitFile.
  rewrite (bind_normal _ _ _ _ _ (connected_run w Hc)). cbn [negb].
  rewrite (bind_normal _ _ _ _ _ (getFileSHA_unprintable w path Hc (api_unprintable w Hapi))).
  rewrite (bind_normal _ _ _ _ _ (config_get_connected w _ Hc)).
  unfold encoded_content. destruct isBinary.
  - rewrite (bind_normal _ _ w content w) by reflexivity. cbv zeta.
    apply (api_throws w); assumption.
  - destruct (GH.encode_text content) as [enc|e].
    + rewrite (bind_normal _ _ w enc w) by reflexivity. cbv zeta.
      apply (api_throws w); assumption.
    + apply bind_throw. reflexivity.
Qed.

(** X16. A connected config whose owner, repo or token does not convert to
    a string (a field with an own [toString] property, which only a stored
    entry edited by hand can give) never reaches the store: [getFileSHA]
    answers [null], [commitFile] throws the TypeError of the conversion to
    its caller (for content it can encode) and [testConnection] answers
    [Network error], each without a request and without any other
    effect. *)
Theorem unprintable_field_no_request w path content commitMsg isBinary enc :
  connected w ->
  printable_api w = false ->
  encoded_content content isBinary = Normal enc ->
  GH.getFileSHA path w = (Normal JNull, w)
  /\ GH.commitFile path content commitMsg isBinary w = (Throw TypeError, w)
  /\ GH.testConnection w
     = (Normal {| GH.result_ok := false; GH.msg := lit "Network error" |}, w).
Proof.
  intros Hc Hapi Henc. split; [|split].
  - apply getFileSHA_unprintable; [exact Hc|apply api_unprintable, Hapi].
  - rewrite (commitFile_unprintable w path content commitMsg isBinary Hc Hapi), Henc.
    reflexivity.
  - unfold GH.testConnection.
    rewrite (bind_normal _ _ _ _ _ (connected_run w Hc)). cbn [negb].
    unfold try_catch.
    rewrite (api_throws w _ Hc Hapi). reflexivity.
Qed.

(** The snapshot read of [loadRemoteData] is not built. *)
Lemma snapshot_read_throws {A} w (k : jsstring -> jsstring -> list (jsstring * jsstring) -> M A) :
  connected w -> printable_config w = false ->
  (let! base := GH.apiBase in
   let! branch := GH.interpolate "branch" in
   let! hs := GH.headers in k base branch hs)%js w = (Throw TypeError, w).
Proof.
  intros Hc Hp.
  destruct (printable (field w "owner") && printable (field w "repo")) eqn:Hor.
  2: { apply bind_throw, apiBase_throws; assumption. }
  apply andb_true_iff in Hor as [Ho Hr].
  rewrite (bind_normal _ _ _ _ _ (apiBase_fields w Hc Ho Hr)).
  destruct (printable (field w "branch")) eqn:Hb.
  2: { apply bind_throw, interpolate_unprintable; assumption. }
  rewrite (bind_normal _ _ _ _ _ (interpolate_connected w _ Hc Hb)).
  destruct (printable (field w "token")) eqn:Ht.
  { unfold printable_config in Hp. rewrite Ho, Hr, Hb, Ht in Hp. discriminate. }
  apply bind_throw, headers_throws; assumption.
Qed.

(** X17. With a whole status bar, the three operations on the store report
    such a config as a failed sync and return without a request:
    [loadRemoteData] returns [null], logs the TypeError and reports
    [error] with
    [Could not load remote data]; [uploadMatchImage] returns [null], logs
    it and reports [error] with [Image upload failed]; [syncData] logs an
    error and reports [error] with the "check token" message. *)
Theorem unprintable_field_reports w players fixtures results base64Data filename :
  connected w -> syncbar_ok w = true ->
  printable_api w = false ->
  (exists w',
     GH.loadRemoteData w = (Normal JNull, w')
     /\ requests w' = requests w
     /\ console w' = console w ++ [(lit "GH load error:", TypeError)]
     /\ status_calls w' = status_calls w
          ++ [SyncStart LOADING; SyncEnd (lit "error") (lit "Could not load remote data")])
  /\ (exists w',
        GH.uploadMatchImage base64Data filename w = (Normal None, w')
        /\ requests w' = requests w
        /\ console w' = console w ++ [(lit "GH image upload error:", TypeError)]
        /\ status_calls w' = status_calls w
             ++ [SyncStart UPLOADING; SyncEnd (lit "error") (lit "Image upload failed")])
  /\ (exists e w',
        GH.syncData players fixtures results w = (Normal tt, w')
        /\ requests w' = requests w
        /\ console w' = console w ++ [(lit "GH sync error:", e)]
        /\ status_calls w' = status_calls w
             ++ [SyncStart SYNCING_DATA; SyncEnd (lit "error") CHECK_TOKEN]).
Proof.
  intros Hc Hok Hapi. split; [|split].
  - unfold GH.loadRemoteData.
    rewrite (bind_normal _ _ _ _ _ (connected_run w Hc)). cbn [negb].
    destruct (showSyncBar_run LOADING w Hok) as (w1 & E1 & S1 & C1).
    fold LOADING. rewrite (bind_normal _ _ _ _ _ E1).
    assert (Hc1 : connected w1) by (eapply same_core_connected; eassumption).
    assert (Hp1 : printable_config w1 = false).
    { rewrite (printable_same_config w w1); [apply api_unprintable, Hapi|apply S1]. }
    assert (Hok1 : syncbar_ok w1 = true) by (eapply same_core_syncbar; eassumption).
    unfold try_catch. rewrite (snapshot_read_throws w1 _ Hc1 Hp1).
    rewrite (bind_normal _ _ w1 tt
               (set_console (console w1 ++ [(lit "GH load error:", TypeError)]) w1))
      by reflexivity.
    set (w2 := set_console _ w1).
    destruct (hideSyncBar_run (lit "error") (lit "Could not load remote data") w2 Hok1)
      as (w3 & E3 & S3 & C3).
    rewrite (bind_normal _ _ _ _ _ E3).
    exists w3. split; [reflexivity|].
    rewrite (core_requests _ _ S3), (core_console _ _ S3), C3.
    cbn [requests console status_calls w2 set_console].
    rewrite (core_requests _ _ S1), (core_console _ _ S1), C1, <- app_assoc.
    repeat split; reflexivity.
  - unfold GH.uploadMatchImage.
    rewrite (bind_normal _ _ _ _ _ (connected_run w Hc)). cbn [negb].
    destruct (showSyncBar_run UPLOADING w Hok) as (w1 & E1 & S1 & C1).
    fold UPLOADING. rewrite (bind_normal _ _ _ _ _ E1).
    assert (Hc1 : connected w1) by (eapply same_core_connected; eassumption).
    assert (Hapi1 : printable_api w1 = false).
    { unfold printable_api. rewrite !(field_same_config w w1) by apply S1. exact Hapi. }
    assert (Hok1 : syncbar_ok w1 = true) by (eapply same_core_syncbar; eassumption).
    unfold try_catch.
    rewrite (bind_throw _ _ _ _ _
               (commitFile_unprintable w1 (lit "match-images/" ++ filename) base64Data
                  (GH.SCREENSHOT_MSG filename) true Hc1 Hapi1)).
    rewrite (bind_normal _ _ w1 tt
               (set_console (console w1 ++ [(lit "GH image upload error:", TypeError)]) w1))
      by reflexivity.
    set (w2 := set_console _ w1).
    destruct (hideSyncBar_run (lit "error") (lit "Image upload failed") w2 Hok1)
      as (w3 & E3 & S3 & C3).
    rewrite (bind_normal _ _ _ _ _ E3).
    exists w3. split; [reflexivity|].
    rewrite (core_requests _ _ S3), (core_console _ _ S3), C3.
    cbn [requests console status_calls w2 set_console].
    rewrite (core_requests _ _ S1), (core_console _ _ S1), C1, <- app_assoc.
    repeat split; reflexivity.
  - unfold GH.syncData.
    rewrite (bind_normal _ _ _ _ _ (connected_run w Hc)). cbn [negb].
    destruct (showSyncBar_run SYNCING_DATA w Hok) as (w1 & E1 & S1 & C1).
    fold SYNCING_DATA. rewrite (bind_normal _ _ _ _ _ E1).
    assert (Hok1 : syncbar_ok w1 = true) by (eapply same_core_syncbar; eassumption).
    unfold try_catch.
    rewrite (bind_normal _ _ w1 (clock w1 (dates_read w1))
               (set_dates_read (S (dates_read w1)) w1)) by reflexivity.
    set (w1a := set_dates_read _ w1).
    rewrite (bind_normal _ _ w1a (clock w1a (dates_read w1a))
               (set_dates_read (S (dates_read w1a)) w1a)) by reflexivity.
    set (w1b := set_dates_read _ w1a).
    assert (Hc1b : connected w1b)
      by (apply (connected_same_config w); [exact (core_config _ _ S1)|exact Hc]).
    assert (Hapi1 : printable_api w1b = false).
    { unfold printable_api. rewrite !(field_same_config w w1b) by exact (core_config _ _ S1).
      exact Hapi. }
    match goal with
    | |- context [GH.commitFile ?p ?c ?m false] =>
        pose proof (commitFile_unprintable w1b p c m false Hc1b Hapi1) as Hcommit;
        set (outcome := match encoded_content c false with
                        | Normal _ => Throw TypeError
                        | Throw e => Throw e
                        end) in Hcommit
    end.
    assert (Hthrow : exists e, outcome = @Throw bool e).
    { unfold outcome. destruct (encoded_content _ false); eauto. }
    destruct Hthrow as [e He]. rewrite He in Hcommit.
    rewrite (bind_throw _ _ _ _ _ Hcommit). fold CHECK_TOKEN.
    assert (Hok2 : syncbar_ok w1b = true) by exact Hok1.
    destruct (report_error (lit "GH sync error:") CHECK_TOKEN e w1b Hok2)
      as (w3 & E3 & S3 & C3).
    exists e, w3. split; [exact E3|].
    rewrite (core_requests _ _ S3), C3, (core_console _ _ S3).
    cbn [requests status_calls console w1b w1a set_dates_read set_console].
    rewrite (core_requests _ _ S1), C1, (core_console _ _ S1), <- app_assoc.
    repeat split; reflexivity.
Qed.

(** X18. A connected config whose branch alone does not convert to a
    string (owner, repo and token do): [uploadMatchImage] writes without
    reading first, so the body of its one request, a PUT, has no [sha] and
    carries the branch as stored; it returns [null] even when the store
    accepts the write, because the URL it would return cannot be built,
    and it then reports the upload twice, as [ok] and as [error], with the
    TypeError logged. *)
Theorem unprintable_branch_upload w base64Data filename :
  connected w -> syncbar_ok w = true ->
  printable (field w "owner") = true -> printable (field w "repo") = true ->
  printable (field w "token") = true -> printable (field w "branch") = false ->
  exists write props w',
    GH.uploadMatchImage base64Data filename w = (Normal None, w')
    /\ requests w' = requests w ++ [write]
    /\ req_method write = PUT
    /\ req_url write = api_base w ++ lit "/contents/" ++ (lit "match-images/" ++ filename)
    /\ req_body write = JSON_stringify (JObject props)
    /\ own_property props (lit "sha") = None
    /\ own_property props (lit "branch") = Some (field w "branch")
    /\ own_property props (lit "content") = Some (JString base64Data)
    /\ (forall res, network w (requests w) write = Responds res -> ok res = true ->
          status_calls w' = status_calls w
            ++ [SyncStart UPLOADING;
                SyncEnd (lit "ok") (lit "Screenshot saved to GitHub");
                SyncEnd (lit "error") (lit "Image upload failed")]
          /\ console w' = console w ++ [(lit "GH image upload error:", TypeError)]).
Proof.
  intros Hc Hok Ho Hr Ht Hb.
  set (path := lit "match-images/" ++ filename).
  set (write := write_request w path (GH.SCREENSHOT_MSG filename) base64Data JNull).
  exists write, (GH.commit_body (GH.SCREENSHOT_MSG filename) (field w "branch") base64Data JNull).
  unfold GH.uploadMatchImage.
  rewrite (bind_normal _ _ _ _ _ (connected_run w Hc)). cbn [negb].
  destruct (showSyncBar_run UPLOADING w Hok) as (w1 & E1 & S1 & C1).
  fold UPLOADING. rewrite (bind_normal _ _ _ _ _ E1).
  assert (Hc1 : connected w1) by (eapply same_core_connected; eassumption).
  assert (Hok1 : syncbar_ok w1 = true) by (eapply same_core_syncbar; eassumption).
  assert (Hf : forall k, field w1 k = field w k)
    by (intros k; apply field_same_config, S1).
  unfold try_catch. fold path.
  pose proof (commitFile_no_read w1 path base64Data (GH.SCREENSHOT_MSG filename) true Hc1)
    as Hcommit.
  rewrite !Hf in Hcommit. specialize (Hcommit Ho Hr Ht Hb).
  cbn [encoded_content] in Hcommit. cbv zeta in Hcommit.
  rewrite (write_request_same_config w w1) in Hcommit by apply S1.
  rewrite (core_network _ _ S1), (core_requests _ _ S1) in Hcommit. fold write in Hcommit.
  set (w2 := set_requests (requests w ++ [write]) w1) in Hcommit.
  assert (Hok2 : syncbar_ok w2 = true) by exact Hok1.
  (* the handler, from a world after the write *)
  assert (Hcatch : forall e w3, same_core w2 w3 -> exists w',
    (console_error (lit "GH image upload error:") e ;;
     GH.hideSyncBar (lit "error") (lit "Image upload failed") ;;
     ret None)%js w3 = (Normal (@None jsstring), w')
    /\ requests w' = requests w ++ [write]
    /\ status_calls w' = status_calls w3 ++ [SyncEnd (lit "error") (lit "Image upload failed")]
    /\ console w' = console w ++ [(lit "GH image upload error:", e)]).
  { intros e w3 S3.
    rewrite (bind_normal _ _ w3 tt
               (set_console (console w3 ++ [(lit "GH image upload error:", e)]) w3))
      by reflexivity.
    set (w4 := set_console _ w3).
    assert (Hok4 : syncbar_ok w4 = true).
    { change (syncbar_ok w4) with (syncbar_ok w3). eapply same_core_syncbar; eassumption. }
    destruct (hideSyncBar_run (lit "error") (lit "Image upload failed") w4 Hok4)
      as (w5 & E5 & S5 & C5).
    rewrite (bind_normal _ _ _ _ _ E5). exists w5. split; [reflexivity|].
    rewrite (core_requests _ _ S5), C5, (core_console _ _ S5).
    cbn [requests status_calls console w4 set_console].
    rewrite (core_requests _ _ S3), (core_console _ _ S3).
    cbn [requests console w2 set_requests]. rewrite (core_console _ _ S1).
    repeat split; reflexivity. }
  destruct (network w (requests w) write) as [res|e] eqn:Hnet.
  - rewrite (bind_normal _ _ _ _ _ Hcommit).
    destruct (ok res) eqn:Hres.
    + destruct (hideSyncBar_run (lit "ok") (lit "Screenshot saved to GitHub") w2 Hok2)
        as (w3 & E3 & S3 & C3).
      rewrite (bind_normal _ _ _ _ _ E3).
      assert (Hc3 : connected w3).
      { apply (connected_same_config w); [|exact Hc].
        rewrite (core_config _ _ S3). exact (core_config _ _ S1). }
      assert (Hf3 : forall k, field w3 k = field w k).
      { intros k. apply field_same_config. rewrite (core_config _ _ S3).
        exact (core_config _ _ S1). }
      rewrite (bind_normal _ _ _ _ _
                 (interpolate_connected w3 "owner" Hc3 ltac:(rewrite Hf3; exact Ho))).
      rewrite (bind_normal _ _ _ _ _
                 (interpolate_connected w3 "repo" Hc3 ltac:(rewrite Hf3; exact Hr))).
      rewrite (bind_throw _ _ _ _ _
                 (interpolate_unprintable w3 "branch" Hc3 ltac:(rewrite Hf3; exact Hb))).
      destruct (Hcatch TypeError w3 S3) as (w' & E & R & T & C).
      exists w'. split; [exact E|]. split; [exact R|].
      repeat (split; [reflexivity|]).
      intros res' [= <-] _. split; [|exact C].
      rewrite T, C3. cbn [status_calls w2 set_requests]. rewrite C1, <- !app_assoc.
      reflexivity.
    + destruct (hideSyncBar_run (lit "error") (lit "Image upload failed") w2 Hok2)
        as (w3 & E3 & S3 & C3).
      rewrite (bind_normal _ _ _ _ _ E3).
      exists w3. split; [reflexivity|]. split; [rewrite (core_requests _ _ S3); reflexivity|].
      repeat (split; [reflexivity|]).
      intros res' [= <-] Hres'. congruence.
  - rewrite (bind_throw _ _ _ _ _ Hcommit).
    destruct (Hcatch e w2 (same_core_refl w2)) as (w' & E & R & T & C).
    exists w'. split; [exact E|]. split; [exact R|].
    repeat (split; [reflexivity|]).
    intros res' Hres'. discriminate.
Qed.

(** X19. A stored entry that is well-formed JSON can still make [load]
    throw: when it gives a connected config whose owner or repo does not
    convert to a string, on a page with the status dot and its label,
    [load] throws a TypeError after it has replaced the config and
    switched the dot to [status-github]; the label and the stored entry
    are as before. *)
Theorem load_unprintable_throws w text v d0 l0 :
  localStorage w !! GH.CONFIG_KEY = Some text ->
  JSON_parse text = Normal v ->
  document w !! lit "gh-status-dot" = Some d0 ->
  document w !! lit "gh-status-label" = Some l0 ->
  connected (set_config v w) ->
  printable (GetV_optional v (lit "owner")) && printable (GetV_optional v (lit "repo"))
    = false ->
  exists w',
    GH.load w = (Throw TypeError, w')
    /\ config w' = v
    /\ localStorage w' = localStorage w
    /\ shows w' "gh-status-dot" (textContent d0) [lit "status-dot"; lit "status-github"]
    /\ document w' !! lit "gh-status-label" = Some l0.
Proof.
  intros Hl Hp Hd Hlab Hcon Hunp.
  assert (Hne : text <> []) by (intros ->; discriminate).
  rewrite (load_reads w text Hl Hne).
  rewrite (bind_normal _ _ w v w) by (unfold lift; rewrite Hp; reflexivity).
  rewrite (bind_normal _ _ w tt (set_config v w)) by reflexivity.
  set (w1 := set_config v w) in *.
  assert (Hthrow := updateStatusUI_throws_at w1 Hcon).
  unfold present in Hthrow. change (document w1) with (document w) in Hthrow.
  rewrite Hd, Hlab in Hthrow. specialize (Hthrow eq_refl eq_refl Hunp).
  rewrite (bind_throw _ _ _ _ _ Hthrow).
  eexists. split; [reflexivity|]. split; [reflexivity|]. split; [reflexivity|].
  unfold shows. cbn [document set_document]. change (document w1) with (document w). split.
  - exists (with_classes [lit "status-dot"; lit "status-github"] d0).
    split; [|split; reflexivity].
    rewrite lookup_alter_eq, Hd. reflexivity.
  - rewrite lookup_alter_ne by discriminate. exact Hlab.
Qed.

End Proofs.

(** ** Concrete runs *)

Lemma commitFile_not_connected_witness :
  GH.commitFile (lit "data/league-data.json") (lit "{}") (lit "update") false offline
    = (Normal false, offline)
  /\ requests (snd (GH.commitFile (lit "data/league-data.json") (lit "{}") (lit "update")
                      false offline)) = requests offline.
Proof.
  apply (commitFile_not_connected_no_request offline). reflexivity.
Defined.

(** C1, the claim fails: a transport error of the write request is not
    caught by [commitFile]. *)
Lemma commitFile_write_error_escapes :
  fst (GH.commitFile (lit "data/league-data.json") (lit "{}") (lit "update") false
         online_write_fails) = Throw TypeError.
Proof. vm_compute. reflexivity. Qed.

Lemma getFileSHA_catches_commitFile_propagates_witness :
  fst (GH.getFileSHA (lit "data/league-data.json") (world sample_config ∅ (fun _ _ => Rejects TypeError)))
    = Normal JNull
  /\ fst (GH.commitFile (lit "data/league-data.json") (lit "{}") (lit "update") true
            online_creates) = Normal true.
Proof.
  split.
  - destruct (getFileSHA_catches_commitFile_propagates
                (world sample_config ∅ (fun _ _ => Rejects TypeError))
                (lit "data/league-data.json") (lit "{}") (lit "update") true)
      as ((v & w' & E & Hv) & _ & _).
    rewrite E. cbn [fst]. f_equal. apply (Hv eq_refl TypeError). reflexivity.
  - destruct (getFileSHA_catches_commitFile_propagates online_creates
                (lit "data/league-data.json") (lit "{}") (lit "update") true)
      as (_ & _ & Hw).
    destruct (Hw eq_refl eq_refl (lit "{}") eq_refl) as [Hres _].
    apply (Hres {| status := 201; body := None |}). reflexivity.
Defined.

(** C2, the claim fails: malformed stored data makes [load] throw. *)
Lemma load_malformed_throws : fst (GH.load malformed_store) = Throw SyntaxError.
Proof. vm_compute. reflexivity. Qed.

Lemma commitFile_sha_tag_witness :
  let read := GH.getFileSHA (lit "data/league-data.json") online_updates in
  exists sha write props,
    fst read = Normal sha
    /\ requests (snd (GH.commitFile (lit "data/league-data.json") sample_text (lit "update")
                        false online_updates))
       = requests (snd read) ++ [write]
    /\ req_method write = PUT
    /\ req_body write = JSON_stringify (JObject props)
    /\ (own_property props (lit "sha") <> None <-> sha <> JNull)
    /\ (sha <> JNull -> own_property props (lit "sha") = Some sha)
    /\ (forall res,
          network online_updates (requests online_updates)
            (read_request online_updates (lit "data/league-data.json")) = Responds res ->
          status res = 404 -> own_property props (lit "sha") = None).
Proof.
  eapply (commitFile_sha_tag_iff online_updates (lit "data/league-data.json") sample_text
            (lit "update") false).
  - reflexivity.
  - reflexivity.
  - vm_compute. reflexivity.
Defined.

Lemma text_round_trip_witness :
  exists x, GH.encode_text sample_text = Normal x /\ GH.decode_text x = Normal sample_text.
Proof.
  apply text_round_trip. vm_compute. repeat split; reflexivity.
Defined.

(** C6, the claim fails: the message for status 200 is [Connected!], with
    an exclamation mark. *)
Lemma testConnection_message_200 :
  fst (GH.testConnection online_200)
  <> Normal {| GH.result_ok := true; GH.msg := lit "Connected" |}.
Proof. vm_compute. discriminate. Qed.

Lemma testConnection_classifies_witness :
  exists r w',
    GH.testConnection online_200 = (Normal r, w')
    /\ r = {| GH.result_ok := true; GH.msg := lit "Connected!" |}
    /\ config w' = config online_200.
Proof.
  destruct (testConnection_classifies online_200 eq_refl eq_refl)
    as (r & w' & E & C & _ & Hres & _).
  exists r, w'. split; [exact E|]. split; [|exact C].
  apply (Hres {| status := 200; body := None |} eq_refl). reflexivity.
Defined.

Lemma loadRemoteData_not_found_witness :
  exists w',
    GH.loadRemoteData online_404 = (Normal JNull, w')
    /\ status_calls w' = status_calls online_404
         ++ [SyncStart (lit "Loading data from GitHub" ++ [0x2026]);
             SyncEnd (lit "ok") GH.NO_REMOTE_DATA]
    /\ console w' = console online_404.
Proof.
  apply (loadRemoteData_not_found online_404 {| status := 404; body := None |});
    reflexivity.
Defined.

Lemma uploadMatchImage_result_witness :
  exists w',
    GH.uploadMatchImage (lit "aGk=") (lit "m.png") online_creates
    = (Normal (Some (lit "https://raw.githubusercontent.com/a/b/main/match-images/m.png")),
       w').
Proof.
  destruct (uploadMatchImage_result online_creates (lit "aGk=") (lit "m.png")
              eq_refl eq_refl eq_refl) as (w' & E & _).
  exists w'. exact E.
Defined.

(** ** Concrete runs beyond the claims *)

Lemma loadRemoteData_never_throws_witness :
  exists w',
    GH.loadRemoteData online_rejects = (Normal JNull, w')
    /\ console w' = [(lit "GH load error:", TypeError)].
Proof.
  destruct (loadRemoteData_never_throws online_rejects eq_refl eq_refl eq_refl)
    as (v & w' & E & _ & Hrej).
  destruct (Hrej TypeError eq_refl) as (Hv & C & _).
  exists w'. split; [rewrite E, Hv; reflexivity|exact C].
Defined.

Lemma loadRemoteData_refusal_witness :
  exists w',
    GH.loadRemoteData online_401 = (Normal JNull, w')
    /\ status_calls w' = status_calls online_401
         ++ [SyncStart LOADING; SyncEnd (lit "ok") GH.NO_REMOTE_DATA]
    /\ console w' = console online_401.
Proof.
  apply (loadRemoteData_refusal_is_success online_401 {| status := 401; body := None |});
    reflexivity.
Defined.

Lemma loadRemoteData_reads_back_witness :
  exists w',
    GH.loadRemoteData online_snapshot = (Normal (JString sample_text), w')
    /\ status_calls w' = status_calls online_snapshot
         ++ [SyncStart LOADING; SyncEnd (lit "ok") (lit "Data loaded from GitHub")]
    /\ console w' = console online_snapshot.
Proof.
  eapply (loadRemoteData_reads_back online_snapshot
            {| status := 200; body := Some snapshot_body |} _ _ snapshot_text).
  - reflexivity.
  - reflexivity.
  - reflexivity.
  - reflexivity.
  - reflexivity.
  - vm_compute. reflexivity.
  - vm_compute. reflexivity.
  - vm_compute. repeat split; reflexivity.
  - vm_compute. reflexivity.
  - vm_compute. reflexivity.
Defined.

Lemma syncData_outcome_witness :
  exists w',
    GH.syncData sample_players (JArray []) (JArray []) online_creates = (Normal tt, w')
    /\ status_calls w'
       = [SyncStart SYNCING_DATA; SyncEnd (lit "ok") (lit "League data saved to GitHub")].
Proof.
  destruct (syncData_outcome online_creates sample_players (JArray []) (JArray []))
    as (enc & write & props & w' & _ & _ & E & _ & M & _ & _ & _ & _ & T).
  - reflexivity.
  - reflexivity.
  - reflexivity.
  - exact digits_only_well_formed.
  - vm_compute. repeat split; repeat constructor; reflexivity.
  - exact I.
  - exact I.
  - vm_compute. repeat constructor; reflexivity.
  - exists w'. split; [exact E|]. rewrite T.
    unfold online_creates, world, creates. cbn [network]. rewrite M. reflexivity.
Defined.

Lemma commitFile_unpaired_surrogate_witness :
  GH.commitFile SNAPSHOT_PATH [0xD800] (lit "update") false online_creates
  = (Throw URIError,
     set_requests (requests online_creates ++ [read_request online_creates SNAPSHOT_PATH])
       online_creates).
Proof.
  apply (commitFile_unpaired_surrogate online_creates).
  - reflexivity.
  - reflexivity.
  - repeat constructor; reflexivity.
  - vm_compute. tauto.
Defined.

Lemma commitFile_requests_witness :
  exists enc read write,
    requests (snd (GH.commitFile SNAPSHOT_PATH sample_text (lit "update") false
                     online_updates))
      = requests online_updates ++ [read; write]
    /\ req_url read
       = lit "https://api.github.com/repos/a/b/contents/data/league-data.json?ref=main"
    /\ req_url write = lit "https://api.github.com/repos/a/b/contents/data/league-data.json"
    /\ GH.decode_text enc = Normal sample_text.
Proof.
  destruct (commitFile_requests online_updates SNAPSHOT_PATH sample_text (lit "update") false
              (lit "a") (lit "b") (lit "main") (lit "t"))
    as (enc & read & write & props & R & _ & _ & U & Ur & _ & _ & _ & _ & _ & _ & _ & _ & D).
  - reflexivity.
  - reflexivity.
  - reflexivity.
  - reflexivity.
  - reflexivity.
  - intros _. vm_compute. repeat split; reflexivity.
  - exists enc, read, write. split; [exact R|].
    split; [rewrite Ur, U; reflexivity|]. split; [rewrite U; reflexivity|]. apply D.
    reflexivity.
Defined.

Lemma getFileSHA_result_witness :
  fst (GH.getFileSHA SNAPSHOT_PATH online_updates) = Normal (JString (lit "abc")).
Proof.
  destruct (getFileSHA_result online_updates SNAPSHOT_PATH eq_refl eq_refl)
    as (v & w' & E & _ & Hsha & _).
  rewrite E. cbn [fst]. f_equal.
  eapply (Hsha _ _ (JString (lit "abc"))).
  - reflexivity.
  - reflexivity.
  - vm_compute. reflexivity.
  - vm_compute. reflexivity.
  - reflexivity.
Defined.

Lemma not_connected_no_effect_witness :
  GH.syncData JNull JNull JNull offline = (Normal tt, offline)
  /\ GH.uploadMatchImage (lit "aGk=") (lit "m.png") offline = (Normal None, offline)
  /\ GH.loadRemoteData offline = (Normal JNull, offline)
  /\ GH.testConnection offline
     = (Normal {| GH.result_ok := false; GH.msg := lit "Not configured" |}, offline).
Proof.
  apply (not_connected_no_effect offline). reflexivity.
Defined.

Lemma broken_status_bar_witness :
  fst (GH.loadRemoteData broken_bar) = Throw TypeError
  /\ requests (snd (GH.loadRemoteData broken_bar)) = requests broken_bar.
Proof.
  apply (broken_status_bar_throws broken_bar JNull JNull JNull (lit "aGk=") (lit "m.png"));
    reflexivity.
Defined.

Lemma uploadMatchImage_reports_witness :
  exists w',
    GH.uploadMatchImage (lit "aGk=") (lit "m.png") online_write_fails = (Normal None, w')
    /\ console w' = [(lit "GH image upload error:", TypeError)].
Proof.
  destruct (uploadMatchImage_reports online_write_fails (lit "aGk=") (lit "m.png")
              eq_refl eq_refl eq_refl) as (r & w' & E & Hr).
  cbv zeta in Hr. destruct Hr as (Hnone & C & _).
  exists w'. split; [rewrite E, Hnone; reflexivity|exact C].
Defined.

Lemma status_indicator_witness :
  shows (snd (GH.save (lit " a ") (lit "b") [] (lit "t") offline)) "gh-status-label"
    (lit "a/b") []
  /\ shows (snd (GH.save (lit " a ") (lit "b") [] (lit "t") offline)) "gh-status-dot"
       [] [lit "status-dot"; lit "status-github"].
Proof.
  exact (proj1 (status_indicator_follows_config (lit " a ") (lit "b") [] (lit "t") offline
                  blank blank eq_refl eq_refl)).
Defined.

Lemma status_bar_cycle_witness :
  exists w1 w2,
    GH.showSyncBar [] offline = (Normal tt, w1)
    /\ GH.hideSyncBar (lit "ok") [] w1 = (Normal tt, w2)
    /\ timers w2 = [(4000, AddClass (lit "sync-bar") (lit "hidden"))].
Proof.
  destruct (status_bar_cycle offline [] (lit "ok") [] blank blank blank
              eq_refl eq_refl eq_refl)
    as (w1 & w2 & bar1 & msg1 & bar2 & msg2 & E1 & E2
        & _ & _ & _ & _ & _ & _ & _ & _ & _ & _ & _ & _ & _ & _ & _ & T).
  exists w1, w2. split; [exact E1|]. split; [exact E2|]. exact T.
Defined.

Lemma testConnection_diagnostic_witness :
  exists r w' probe,
    GH.testConnection online_401 = (Normal r, w')
    /\ requests w' = [probe]
    /\ req_url probe = lit "https://api.github.com/repos/a/b".
Proof.
  destruct (testConnection_diagnostic online_401 (lit "a") (lit "b") (lit "t")
              eq_refl eq_refl eq_refl eq_refl) as (r & w' & probe & E & R & _ & U & _).
  exists r, w', probe. split; [exact E|]. split; [exact R|exact U].
Defined.

Lemma unprintable_field_witness :
  GH.commitFile SNAPSHOT_PATH (lit "{}") (lit "update") true odd_owner
    = (Throw TypeError, odd_owner)
  /\ GH.testConnection odd_owner
     = (Normal {| GH.result_ok := false; GH.msg := lit "Network error" |}, odd_owner).
Proof.
  destruct (unprintable_field_no_request odd_owner SNAPSHOT_PATH (lit "{}") (lit "update")
              true (lit "{}") eq_refl eq_refl eq_refl) as (_ & Hcommit & Htest).
  split; [exact Hcommit|exact Htest].
Defined.

Lemma unprintable_field_reports_witness :
  exists w',
    GH.loadRemoteData odd_owner = (Normal JNull, w')
    /\ requests w' = []
    /\ console w' = [(lit "GH load error:", TypeError)].
Proof.
  destruct (unprintable_field_reports odd_owner JNull JNull JNull (lit "aGk=") (lit "m.png")
              eq_refl eq_refl eq_refl) as ((w' & E & R & C & _) & _).
  exists w'. split; [exact E|]. split; [exact R|exact C].
Defined.

Lemma unprintable_branch_witness :
  exists write w',
    GH.uploadMatchImage (lit "aGk=") (lit "m.png") odd_branch = (Normal None, w')
    /\ requests w' = [write]
    /\ req_url write = lit "https://api.github.com/repos/a/b/contents/match-images/m.png"
    /\ status_calls w'
       = [SyncStart UPLOADING;
          SyncEnd (lit "ok") (lit "Screenshot saved to GitHub");
          SyncEnd (lit "error") (lit "Image upload failed")].
Proof.
  destruct (unprintable_branch_upload odd_branch (lit "aGk=") (lit "m.png")
              eq_refl eq_refl eq_refl eq_refl eq_refl eq_refl)
    as (write & props & w' & E & R & M & U & _ & _ & _ & _ & Hres).
  exists write, w'. split; [exact E|]. split; [exact R|]. split; [rewrite U; reflexivity|].
  apply (Hres {| status := 201; body := None |}); [|reflexivity].
  unfold odd_branch, world, creates. cbn [network]. rewrite M. reflexivity.
Defined.

Lemma load_unprintable_witness :
  exists w',
    GH.load odd_store = (Throw TypeError, w')
    /\ truthy (config w') = true
    /\ localStorage w' = localStorage odd_store.
Proof.
  destruct (load_unprintable_throws odd_store odd_entry
              (JObject [(lit "owner", odd_value); (lit "repo", JString (lit "b"));
                        (lit "token", JString (lit "t"))]) blank blank)
    as (w' & E & C & L & _).
  - reflexivity.
  - vm_compute. reflexivity.
  - reflexivity.
  - reflexivity.
  - reflexivity.
  - reflexivity.
  - exists w'. split; [exact E|]. split; [rewrite C; reflexivity|exact L].
Defined.
